(** * ghostly-session: session daemon, frame codec and attach client

    A shallow embedding of [ghostly-session.cpp] and the properties of
    its session-name validation, wire codec, client table, child
    reaping, shutdown sequence and attach loop.

    Conventions.
    - C integers are [Z]; a [uint8_t] is a [Z] in [0, 256), a [uint32_t]
      a [Z] in [0, 2^32).  Bit operations are [Z.land], [Z.lor],
      [Z.shiftl], [Z.shiftr].
    - [std::string] is [string]; a [char] is read through its code
      [0..255] (the comparisons of the source give the same answers
      for signed and unsigned [char], as every character they accept
      is below 128).
    - System calls are modelled by what they return: the outcome of
      each call is an input of the model (a script, a channel or a
      tick of the event loop), and what the program does to the
      outside is recorded as a list of events. *)

From Stdlib Require Import ZArith List String Ascii Bool Lia.
From coqutil Require Import Z.bitblast.
From stdpp Require Import base list pretty.

Open Scope Z_scope.

(** ** 2. Constants, types, protocol definitions *)

Definition DETACH_KEY : Z := 0x1C.

(** [enum MsgType : uint8_t].  A value of the enumeration is any
    [uint8_t]: [recv_msg] casts the first header byte to it. *)
Definition MsgType := Z.
Definition MSG_DATA   : MsgType := 0x01.
Definition MSG_WINCH  : MsgType := 0x02.
Definition MSG_DETACH : MsgType := 0x03.
Definition MSG_EXIT   : MsgType := 0x04.
Definition MSG_HELLO  : MsgType := 0x05.

Definition MAX_CLIENTS : Z := 16.
Definition BUF_SIZE : Z := 8192.
Definition MAX_NAME_LEN : Z := 64.
Definition CLIENT_RECV_TIMEOUT : Z := 30.

Definition byte := Z.
Definition is_byte (b : Z) : Prop := 0 <= b < 256.

(** ** 3. Utility functions *)

Module Names.

Definition code (c : ascii) : Z := Z.of_N (N_of_ascii c).

(** The body of the [for (char c : name)] loop: [true] is [continue],
    [false] is [return false]. *)
Definition name_char_ok (c : ascii) : bool :=
  if (code "a" <=? code c) && (code c <=? code "z") then true
  else if (code "A" <=? code c) && (code c <=? code "Z") then true
  else if (code "0" <=? code c) && (code c <=? code "9") then true
  else if (code c =? code "-") || (code c =? code "_") || (code c =? code ".")
       then true
  else false.

Fixpoint name_chars_ok (s : string) : bool :=
  match s with
  | EmptyString => true
  | String c rest => if name_char_ok c then name_chars_ok rest else false
  end.

Definition valid_session_name (name : string) : bool :=
  if (String.length name =? 0)%nat
     || (MAX_NAME_LEN <? Z.of_nat (String.length name)) then false
  else if String.eqb name "." || String.eqb name ".." then false
  else name_chars_ok name.

(** The character class [[A-Za-z0-9._-]] of the specification. *)
Definition in_name_class (c : ascii) : Prop :=
  (65 <= code c <= 90) \/ (97 <= code c <= 122) \/ (48 <= code c <= 57)
  \/ c = "."%char \/ c = "_"%char \/ c = "-"%char.

Fixpoint string_forall (P : ascii -> Prop) (s : string) : Prop :=
  match s with
  | EmptyString => True
  | String c rest => P c /\ string_forall P rest
  end.

Fixpoint string_mem (c : ascii) (s : string) : Prop :=
  match s with
  | EmptyString => False
  | String d rest => c = d \/ string_mem c rest
  end.

(** Validity as the specification words it. *)
Definition name_valid_spec (name : string) : Prop :=
  (1 <= String.length name <= 64)%nat
  /\ string_forall in_name_class name
  /\ name <> "."%string /\ name <> ".."%string.

End Names.

(** ** 4. Protocol framing *)

Module Wire.

(** *** The byte streams under [write_all] and [read_all] *)

(** What one call of [write(fd, p, len)] returns. *)
Inductive write_result :=
| WrBytes (n : nat)      (* n >= 0 bytes taken, at most [len] *)
| WrEINTR                (* -1, errno = EINTR *)
| WrEAGAIN (poll_r : Z)  (* -1, errno = EAGAIN or EWOULDBLOCK; [poll_r]
                            is what the poll(POLLOUT, 1000) after it returns *)
| WrError.               (* -1, any other errno *)

(** [write_all script buf]: the successive results of [write] are read
    off [script]; a script that runs out stands for a peer that is gone
    (every further [write] fails).  Returns the success flag, the bytes
    that reached the descriptor and the rest of the script. *)
Fixpoint write_all (script : list write_result) (buf : list byte)
  : bool * list byte * list write_result :=
  match buf with
  | [] => (true, [], script)
  | _ :: _ =>
    match script with
    | [] => (false, [], [])
    | WrBytes n :: script' =>
        let k := Nat.min n (length buf) in
        let '(ok, w, s) := write_all script' (drop k buf) in
        (ok, take k buf ++ w, s)
    | WrEINTR :: script' => write_all script' buf
    | WrEAGAIN r :: script' =>
        if r <=? 0 then (false, [], script') else write_all script' buf
    | WrError :: script' => (false, [], script')
    end
  end.

(** What the receiving side of a descriptor delivers to successive
    [read] calls. *)
Inductive read_event :=
| RdChunk (bs : list byte)  (* bytes available to one read; the empty
                               chunk is end of stream (read returns 0) *)
| RdEINTR                   (* -1, errno = EINTR *)
| RdError.                  (* -1, any other errno (a receive timeout
                               included) *)

Definition channel := list read_event.

(** [read_all chan len]: read exactly [len] bytes.  A [read] takes at
    most [len] bytes of the chunk at the head and leaves the others
    there; a channel that runs out is a stream that ended. *)
Fixpoint read_all (chan : channel) (len : nat)
  : option (list byte * channel) :=
  match len with
  | O => Some ([], chan)
  | S _ =>
    match chan with
    | [] => None
    | RdChunk bs :: chan' =>
        match bs with
        | [] => None
        | _ :: _ =>
          if (length bs <=? len)%nat then
            match read_all chan' (len - length bs) with
            | Some (r, c) => Some (bs ++ r, c)
            | None => None
            end
          else Some (take len bs, RdChunk (drop len bs) :: chan')
        end
    | RdEINTR :: chan' => read_all chan' len
    | RdError :: _ => None
    end
  end.

(** The bytes a channel holds, in order. *)
Fixpoint chan_bytes (chan : channel) : list byte :=
  match chan with
  | [] => []
  | RdChunk bs :: chan' => bs ++ chan_bytes chan'
  | _ :: chan' => chan_bytes chan'
  end.

(** A channel on which nothing goes wrong: chunks are not empty and no
    read fails for good (interruptions are allowed). *)
Fixpoint chan_clean (chan : channel) : bool :=
  match chan with
  | [] => true
  | RdChunk [] :: _ => false
  | RdChunk (_ :: _) :: chan' => chan_clean chan'
  | RdEINTR :: chan' => chan_clean chan'
  | RdError :: _ => false
  end.

(** *** The frame codec *)

(** The 5-byte header [send_msg] builds. *)
Definition frame_header (type : MsgType) (len : Z) : list byte :=
  [ type mod 256;
    Z.land (Z.shiftr len 24) 0xFF;
    Z.land (Z.shiftr len 16) 0xFF;
    Z.land (Z.shiftr len 8) 0xFF;
    Z.land len 0xFF ].

(** [send_msg(fd, type, data, len)]: [data] is the buffer, of which the
    first [len] bytes are written. *)
Definition send_msg (script : list write_result)
           (type : MsgType) (data : list byte) (len : Z)
  : bool * list byte * list write_result :=
  let hdr := frame_header type len in
  let '(ok1, w1, s1) := write_all script hdr in
  if negb ok1 then (false, w1, s1)
  else if 0 <? len then
    let '(ok2, w2, s2) := write_all s1 (take (Z.to_nat len) data) in
    if negb ok2 then (false, w1 ++ w2, s2) else (true, w1 ++ w2, s2)
  else (true, w1, s1).

(** A 32-bit length, most significant byte first (big-endian), as
    the specification lays the header out. *)
Definition be32_bytes (len : Z) : list byte :=
  [ len / 16777216 mod 256; len / 65536 mod 256; len / 256 mod 256;
    len mod 256 ].

(** The length field as [recv_msg] decodes it from the header bytes
    (they are [uint8_t], so that no shift leaves 32 bits). *)
Definition header_len (hdr : list byte) : Z :=
  Z.lor (Z.lor (Z.lor (Z.shiftl (nth 1 hdr 0) 24) (Z.shiftl (nth 2 hdr 0) 16))
               (Z.shiftl (nth 3 hdr 0) 8))
        (nth 4 hdr 0).

(** A received frame: [*out_type], [*out_data] (the empty list for
    [NULL]) and [*out_len]. *)
Record frame := Frame {
  f_type : MsgType;
  f_data : list byte;
  f_len : Z
}.

(** [recv_msg]: [None] is [return false].  [malloc_ok] says whether the
    allocation of the payload buffer succeeds. *)
Definition recv_msg (malloc_ok : bool) (chan : channel)
  : option (frame * channel) :=
  match read_all chan 5 with
  | None => None
  | Some (hdr, chan1) =>
    let type := nth 0 hdr 0 in
    let len := header_len hdr in
    if len =? 0 then Some (Frame type [] len, chan1)
    else if 1024 * 1024 <? len then None
    else if negb malloc_ok then None
    else
      match read_all chan1 (Z.to_nat len) with
      | None => None
      | Some (data, chan2) => Some (Frame type data len, chan2)
      end
  end.

End Wire.

(** ** Programs: state, output and loops

    The code of the daemon and of the attach client is sequential code
    over a record of variables that also acts on the outside.  It is
    embedded in a state-and-output monad: a program takes the variables
    and returns a value, the variables and the events it produced. *)

Definition prog (S E A : Type) : Type := S -> A * S * list E.

#[global] Instance prog_ret {S E} : MRet (prog S E) :=
  fun A a s => (a, s, []).
#[global] Instance prog_bind {S E} : MBind (prog S E) :=
  fun A B k m s =>
    let '(a, s1, e1) := m s in
    let '(b, s2, e2) := k a s1 in
    (b, s2, e1 ++ e2).

Definition get {S E} : prog S E S := fun s => (s, s, []).
Definition modify {S E} (f : S -> S) : prog S E unit := fun s => (tt, f s, []).
Definition emit {S E} (e : E) : prog S E unit := fun s => (tt, s, [e]).
Definition when {S E} (b : bool) (m : prog S E unit) : prog S E unit :=
  if b then m else mret tt.

Definition value_of {S E A} (r : A * S * list E) : A := fst (fst r).
Definition state_of {S E A} (r : A * S * list E) : S := snd (fst r).
Definition events_of {S E A} (r : A * S * list E) : list E := snd r.

(** [for (int i = k - 1; i >= 0; i--) body(i)] *)
Fixpoint down_from {S E} (k : nat) (body : Z -> prog S E unit)
  : prog S E unit :=
  match k with
  | O => mret tt
  | S i => body (Z.of_nat i);; down_from i body
  end.

(** How one turn of a [while] loop ends: at its end or by [continue],
    or by [break]. *)
Inductive ctl := Continue | Break.

(** [while (cond) { iter }], one tick of outside input per turn.  The
    value is [true] when the loop was left and [false] when the ticks
    ran out first. *)
Fixpoint while_loop {S E T} (cond : S -> bool) (iter : T -> prog S E ctl)
         (ticks : list T) : prog S E bool :=
  fun s =>
    if negb (cond s) then (true, s, [])
    else match ticks with
         | [] => (false, s, [])
         | t :: ticks' =>
           let '(c, s1, e1) := iter t s in
           match c with
           | Break => (true, s1, e1)
           | Continue =>
             let '(b, s2, e2) := while_loop cond iter ticks' s1 in
             (b, s2, e1 ++ e2)
           end
         end.

(** ** The platform: wait statuses, signals, poll

    [<sys/wait.h>] is the platform's; the macros are modelled on the
    encoding Linux and the BSDs share: the low seven bits hold the
    terminating signal (0 for a normal exit, 0x7f for a stopped child),
    bit 7 the core-dump flag, bits 8..15 the exit status. *)

Module Sys.

Definition WTERMSIG (s : Z) : Z := Z.land s 0x7f.
Definition WEXITSTATUS (s : Z) : Z := Z.shiftr (Z.land s 0xff00) 8.
Definition WIFEXITED (s : Z) : bool := WTERMSIG s =? 0.

(** [((signed char) ((s & 0x7f) + 1) >> 1) > 0] *)
Definition WIFSIGNALED (s : Z) : bool :=
  let x := Z.land s 0x7f + 1 in
  let sc := if 128 <=? x then x - 256 else x in
  0 <? Z.shiftr sc 1.

(** The status the kernel reports for a child that called
    [exit(code)], and for one killed by signal [sig]. *)
Definition status_of_exit (code : Z) : Z := Z.shiftl (code mod 256) 8.
Definition status_of_signal (sig : Z) (core : bool) : Z :=
  Z.lor sig (if core then 0x80 else 0).

Definition SIGHUP : Z := 1.
Definition SIGKILL : Z := 9.
Definition SIGTERM : Z := 15.

(** What [waitpid(pid, &wstatus, flags)] returns. *)
Inductive waitpid_result :=
| WaitNone                  (* 0: WNOHANG and the child has not changed state *)
| WaitReaped (wstatus : Z)  (* the pid; the status is stored in [wstatus] *)
| WaitError.                (* -1 *)

(** [fds[k].revents], read through the two masks the source tests. *)
Record revents := mkRevents {
  pollin : bool;        (* revents & POLLIN *)
  pollhup_err : bool    (* revents & (POLLHUP | POLLERR) *)
}.

Inductive poll_result :=
| PollReady    (* ret >= 0 *)
| PollEINTR    (* ret < 0, errno = EINTR *)
| PollError.   (* ret < 0, any other errno *)

End Sys.

(** ** 6. Server: PTY, daemon fork, poll() event loop, multi-client broadcast *)

Module Server.
Import Sys.

(** What the daemon does to the outside. *)
Inductive event :=
| EClose (fd : Z)
| ESend (fd : Z) (type : MsgType) (payload : list byte) (ok : bool)
    (* send_msg(fd, type, payload, len) and what it returned *)
| EWriteInfo (session : string) (clients : Z) (created : Z) (cmd : string)
    (* write_info_file(info_path(session), getpid(), clients, created, cmd) *)
| ESetRecvTimeout (fd : Z) (seconds : Z)
| EWinsize (cols rows : Z)        (* ioctl(pty_master, TIOCSWINSZ, ...) *)
| EPtyWrite (data : list byte)    (* write_all(pty_master, data, len) *)
| EKill (pid : Z) (sig : Z)
| EUsleep (usec : Z)
| EWaitpid (pid : Z) (nohang : bool)
| EWritePid (session : string)    (* write_pid_file(pid_path(session), getpid()) *)
| ECleanupSessionFiles (session : string).

Record ServerState := mkServer {
  name : string;
  command : string;
  pty_master : Z;
  child_pid : Z;
  listen_fd : Z;
  client_fds : list Z;      (* int client_fds[MAX_CLIENTS] *)
  num_clients : Z;
  created : Z;
  child_exit_code : Z;
  running : bool
}.

Definition set_child_pid (v : Z) (s : ServerState) : ServerState :=
  mkServer (name s) (command s) (pty_master s) v (listen_fd s)
           (client_fds s) (num_clients s) (created s) (child_exit_code s)
           (running s).
Definition set_client_fds (v : list Z) (s : ServerState) : ServerState :=
  mkServer (name s) (command s) (pty_master s) (child_pid s) (listen_fd s)
           v (num_clients s) (created s) (child_exit_code s) (running s).
Definition set_num_clients (v : Z) (s : ServerState) : ServerState :=
  mkServer (name s) (command s) (pty_master s) (child_pid s) (listen_fd s)
           (client_fds s) v (created s) (child_exit_code s) (running s).
Definition set_child_exit_code (v : Z) (s : ServerState) : ServerState :=
  mkServer (name s) (command s) (pty_master s) (child_pid s) (listen_fd s)
           (client_fds s) (num_clients s) (created s) v (running s).
Definition set_running (v : bool) (s : ServerState) : ServerState :=
  mkServer (name s) (command s) (pty_master s) (child_pid s) (listen_fd s)
           (client_fds s) (num_clients s) (created s) (child_exit_code s) v.

(** [client_fds[i]]; an index outside the array reads 0 here (the
    source never makes one). *)
Definition fd_at (s : ServerState) (i : Z) : Z :=
  nth (Z.to_nat i) (client_fds s) 0.

(** The attached clients: the first [num_clients] slots of the array. *)
Definition attached (s : ServerState) : list Z :=
  take (Z.to_nat (num_clients s)) (client_fds s).

Abbreviation M := (prog ServerState event).

(** *** Signal handlers *)

(** [server_sigchld]: [g] is [g_server] ([None] for [NULL]), [w] what
    the handler's [waitpid(child_pid, &wstatus, WNOHANG)] returns. *)
Definition server_sigchld (w : waitpid_result) (g : option ServerState)
  : option ServerState :=
  match g with
  | Some s =>
    if 0 <? child_pid s then
      let s1 :=
        match w with
        | WaitReaped wstatus =>
          let s' :=
            if WIFEXITED wstatus
            then set_child_exit_code (WEXITSTATUS wstatus) s
            else if WIFSIGNALED wstatus
            then set_child_exit_code (128 + WTERMSIG wstatus) s
            else s in
          set_child_pid (-1) s'
        | _ => s
        end in
      Some (set_running false s1)
    else Some s
  | None => None
  end.

Definition server_sigterm (g : option ServerState) : option ServerState :=
  match g with
  | Some s => Some (set_running false s)
  | None => None
  end.

(** *** The client table *)

Definition server_remove_client (idx : Z) : M unit :=
  s ← get;
  emit (EClose (fd_at s idx));;
  modify (set_client_fds
            (<[Z.to_nat idx := fd_at s (num_clients s - 1)]> (client_fds s)));;
  modify (set_num_clients (num_clients s - 1));;
  emit (EWriteInfo (name s) (num_clients s - 1) (created s) (command s)).

(** The variables as [server_remove_client] leaves them. *)
Definition removed (idx : Z) (s : ServerState) : ServerState :=
  set_num_clients (num_clients s - 1)
    (set_client_fds
       (<[Z.to_nat idx := fd_at s (num_clients s - 1)]> (client_fds s)) s).

(** The body of the loop of [server_broadcast] at index [i];
    [send_ok fd] is what [send_msg] to [fd] returns. *)
Definition broadcast_at (send_ok : Z -> bool) (type : MsgType)
           (data : list byte) (i : Z) : M unit :=
  s ← get;
  let ok := send_ok (fd_at s i) in
  emit (ESend (fd_at s i) type data ok);;
  when (negb ok) (server_remove_client i).

Definition server_broadcast (send_ok : Z -> bool) (type : MsgType)
           (data : list byte) : M unit :=
  s ← get;
  down_from (Z.to_nat (num_clients s)) (broadcast_at send_ok type data).

(** *** Reading a trace *)

(** The descriptors a trace sent frames to, in order, and those it
    closed. *)
Definition sent_to (evs : list event) : list Z :=
  flat_map (fun e => match e with ESend fd _ _ _ => [fd] | _ => [] end) evs.
Definition closed_by (evs : list event) : list Z :=
  flat_map (fun e => match e with EClose fd => [fd] | _ => [] end) evs.

(** What the specification asks of one fan-out over the clients [fds],
    taken in this order, [n] clients being attached: each is sent the
    frame once; one whose send fails is closed and the info file
    rewritten with the count lowered by one. *)
Fixpoint fanout_events (session : string) (created : Z) (cmd : string)
         (send_ok : Z -> bool) (type : MsgType) (data : list byte)
         (n : Z) (fds : list Z) : list event :=
  match fds with
  | [] => []
  | fd :: rest =>
    if send_ok fd then
      ESend fd type data true
      :: fanout_events session created cmd send_ok type data n rest
    else
      ESend fd type data false :: EClose fd
      :: EWriteInfo session (n - 1) created cmd
      :: fanout_events session created cmd send_ok type data (n - 1) rest
  end.

(** Everything but the client table is the same in the two states. *)
Definition same_session (s s' : ServerState) : Prop :=
  name s' = name s /\ command s' = command s
  /\ pty_master s' = pty_master s /\ child_pid s' = child_pid s
  /\ listen_fd s' = listen_fd s /\ created s' = created s
  /\ child_exit_code s' = child_exit_code s /\ running s' = running s.

(** *** The event loop of [run_server] *)

Inductive signal :=
| SigChld (w : waitpid_result)  (* with what the handler's waitpid returns *)
| SigTerm.

(** [read(pty_master, buf, sizeof(buf))] *)
Inductive pty_read :=
| PtyRead (buf : list byte)     (* n = length buf >= 0 *)
| PtyReadErr (retry : bool).    (* n < 0; [retry]: errno is EAGAIN or EINTR *)

(** One turn of the [while (srv.running)] loop, seen from outside: what
    every system call of that turn returns.  [t_client i] is
    [fds[2 + i].revents]; the array [fds] is sized before the accept,
    so for a client admitted in the same turn this is a read past its
    end, and whatever the tick holds at [i] stands for the value found
    there.  [t_recv fd] and [t_send_ok fd] are the results of
    [recv_msg] and [send_msg] on descriptor [fd]. *)
Record tick := mkTick {
  t_sig_poll : list signal;   (* signals handled while in poll *)
  t_poll : poll_result;
  t_listen_in : bool;         (* fds[0].revents & POLLIN *)
  t_accept : Z;               (* accept(listen_fd, NULL, NULL) *)
  t_hello : option Wire.frame;  (* recv_msg on the new descriptor *)
  t_pty : revents;            (* fds[1].revents *)
  t_pty_read : pty_read;
  t_send_ok : Z -> bool;
  t_client : Z -> revents;
  t_recv : Z -> option Wire.frame;
  t_sig_body : list signal    (* signals handled while the body runs *)
}.

(** The handlers run on [g_server = &srv]. *)
Definition handle (sg : signal) (s : ServerState) : ServerState :=
  let g := match sg with
           | SigChld w => server_sigchld w (Some s)
           | SigTerm => server_sigterm (Some s)
           end in
  match g with Some s' => s' | None => s end.

Definition deliver (sgs : list signal) : M unit :=
  modify (fun s => fold_left (fun acc sg => handle sg acc) sgs s).

(** [((uint16_t) data[i] << 8) | data[i + 1]], stored in a [uint16_t] *)
Definition be16 (data : list byte) (i : nat) : Z :=
  Z.lor (Z.shiftl (nth i data 0) 8) (nth (i + 1) data 0) mod 65536.

Definition accept_phase (t : tick) : M unit :=
  when (t_listen_in t) (
    let cfd := t_accept t in
    when (0 <=? cfd) (
      s ← get;
      if MAX_CLIENTS <=? num_clients s then emit (EClose cfd)
      else
        emit (ESetRecvTimeout cfd 2);;
        hello_ok ← match t_hello t with
                    | Some f =>
                      if (Wire.f_type f =? MSG_HELLO) && (Wire.f_len f =? 4)
                      then emit (EWinsize (be16 (Wire.f_data f) 0)
                                          (be16 (Wire.f_data f) 2));;
                           mret true
                      else mret false
                    | None => mret false
                    end;
        if hello_ok : bool then
          emit (ESetRecvTimeout cfd CLIENT_RECV_TIMEOUT);;
          modify (set_client_fds
                    (<[Z.to_nat (num_clients s) := cfd]> (client_fds s)));;
          modify (set_num_clients (num_clients s + 1));;
          emit (EWriteInfo (name s) (num_clients s + 1) (created s)
                           (command s))
        else emit (EClose cfd))).

Definition pty_phase (t : tick) : M unit :=
  when (pollin (t_pty t)) (
    match t_pty_read t with
    | PtyRead buf =>
      if (0 <? length buf)%nat
      then server_broadcast (t_send_ok t) MSG_DATA buf
      else modify (set_running false)
    | PtyReadErr retry => when (negb retry) (modify (set_running false))
    end);;
  when (pollhup_err (t_pty t)) (modify (set_running false)).

(** The body of the client-input loop at index [i]. *)
Definition client_at (t : tick) (i : Z) : M unit :=
  let rev := t_client t i in
  when (pollin rev || pollhup_err rev) (
    if pollin rev then
      s ← get;
      match t_recv t (fd_at s i) with
      | None => server_remove_client i
      | Some f =>
        if Wire.f_type f =? MSG_DATA then
          when (0 <? Wire.f_len f) (emit (EPtyWrite (Wire.f_data f)))
        else if Wire.f_type f =? MSG_WINCH then
          when (Wire.f_len f =? 4)
               (emit (EWinsize (be16 (Wire.f_data f) 0)
                               (be16 (Wire.f_data f) 2)))
        else if Wire.f_type f =? MSG_DETACH then server_remove_client i
        else mret tt
      end
    else server_remove_client i).

Definition client_phase (t : tick) : M unit :=
  s ← get;
  down_from (Z.to_nat (num_clients s)) (client_at t).

Definition loop_iter (t : tick) : M ctl :=
  deliver (t_sig_poll t);;
  match t_poll t with
  | PollEINTR => mret Continue
  | PollError => mret Break
  | PollReady =>
    accept_phase t;; pty_phase t;; client_phase t;;
    deliver (t_sig_body t);;
    mret Continue
  end.

(** [while (srv.running) { ... }] over the ticks given. *)
Definition event_loop (ticks : list tick) : M bool :=
  while_loop running loop_iter ticks.

(** *** Shutdown *)

(** What the calls of the shutdown sequence return: the three
    [waitpid]s, the value the uninitialised [wstatus] starts with, and
    the results of sending EXIT. *)
Record shutdown_env := mkShutdown {
  sd_wait1 : waitpid_result;   (* WNOHANG, after SIGHUP *)
  sd_wait2 : waitpid_result;   (* WNOHANG, after SIGTERM *)
  sd_wait3 : waitpid_result;   (* blocking, after SIGKILL *)
  sd_wstatus0 : Z;
  sd_send_ok : Z -> bool
}.

(** [wstatus] after a [waitpid] that returned [w]. *)
Definition stored (w : waitpid_result) (wstatus : Z) : Z :=
  match w with WaitReaped ws => ws | _ => wstatus end.

(** [FIX #8]: kill the child on shutdown if still alive.  The sequence
    is taken as it stands in [run_server], no signal being handled
    while it runs; a [waitpid] that returns 0 or -1 leaves [wstatus]
    as it was. *)
Definition shutdown_child (sd : shutdown_env) : M unit :=
  s ← get;
  let pid := child_pid s in
  when (0 <? pid) (
    emit (EKill pid SIGHUP);;
    emit (EUsleep 50000);;
    emit (EWaitpid pid true);;
    let ws1 := stored (sd_wait1 sd) (sd_wstatus0 sd) in
    wstatus ← match sd_wait1 sd with
               | WaitNone =>
                 emit (EKill pid SIGTERM);;
                 emit (EUsleep 100000);;
                 emit (EWaitpid pid true);;
                 let ws2 := stored (sd_wait2 sd) ws1 in
                 match sd_wait2 sd with
                 | WaitNone =>
                   emit (EKill pid SIGKILL);;
                   emit (EWaitpid pid false);;
                   mret (stored (sd_wait3 sd) ws2)
                 | _ => mret ws2
                 end
               | _ => mret ws1
               end;
    when ((child_exit_code s =? 0) && WIFEXITED wstatus)
         (modify (set_child_exit_code (WEXITSTATUS wstatus)))).

Fixpoint close_all (fds : list Z) : M unit :=
  match fds with
  | [] => mret tt
  | fd :: rest => emit (EClose fd);; close_all rest
  end.

(** Everything of [run_server] after the loop; the value is what
    [run_server] returns. *)
Definition shutdown (sd : shutdown_env) : M Z :=
  shutdown_child sd;;
  s ← get;
  let ec := child_exit_code s mod 256 in
  server_broadcast (sd_send_ok sd) MSG_EXIT [ec];;
  s' ← get;
  close_all (attached s');;
  emit (EClose (listen_fd s'));;
  emit (EClose (pty_master s'));;
  emit (ECleanupSessionFiles (name s'));;
  mret (child_exit_code s').

(** What [run_server] starts from once the PTY is forked and the
    socket bound: the descriptors and pid it got, the time, and the
    contents the array [client_fds] happens to have. *)
Record startup := mkStartup {
  su_pty_master : Z;
  su_child : Z;
  su_listen_fd : Z;
  su_created : Z;
  su_slots : nat -> Z
}.

Definition init_server (session cmd : string) (su : startup) : ServerState :=
  mkServer session (if String.eqb cmd "" then "bash"%string else cmd)
           (su_pty_master su) (su_child su) (su_listen_fd su)
           (map (su_slots su) (seq 0 (Z.to_nat MAX_CLIENTS)))
           0 (su_created su) 0 true.

(** The daemon part of [run_server]: [None] when the ticks ran out
    before the loop was left. *)
Definition run_server (session cmd : string) (su : startup)
           (ticks : list tick) (sd : shutdown_env)
  : option Z * ServerState * list event :=
  let s0 := init_server session cmd su in
  let e0 := [EWritePid session;
             EWriteInfo session 0 (created s0) (command s0)] in
  let '(exited, s1, e1) := event_loop ticks s0 in
  if exited : bool then
    let '(rc, s2, e2) := shutdown sd s1 in
    (Some rc, s2, e0 ++ e1 ++ e2)
  else (None, s1, e0 ++ e1).

(** *** Invariants and assumptions of the daemon *)

(** The client table is within its array. *)
Definition table_ok (s : ServerState) : Prop :=
  0 <= num_clients s <= MAX_CLIENTS
  /\ length (client_fds s) = Z.to_nat MAX_CLIENTS.

(** The table is within its array, holds at least [k] clients, and (if
    [P] asks for it) satisfies [P]. *)
Definition table_above (P : list Z -> Prop) (k : nat) (s : ServerState)
  : Prop :=
  table_ok s /\ (k <= Z.to_nat (num_clients s))%nat /\ P (attached s).

(** The only frames the event sends are DATA frames. *)
Definition data_only (e : event) : Prop :=
  match e with ESend _ ty _ _ => ty = MSG_DATA | _ => True end.

(** The event sends no frame. *)
Definition no_send (e : event) : Prop :=
  match e with ESend _ _ _ _ => False | _ => True end.

(** The only frames the event sends are EXIT frames of one byte. *)
Definition exit_only (e : event) : Prop :=
  match e with
  | ESend _ ty p _ => ty = MSG_EXIT /\ length p = 1%nat
  | _ => True
  end.

(** The kernel never hands out a descriptor that is open: along the
    run, a descriptor that [accept] returns is not one of the attached
    clients'. *)
Fixpoint accepts_fresh (ticks : list tick) (s : ServerState) : Prop :=
  match ticks with
  | [] => True
  | t :: ticks' =>
    running s = true ->
    (t_poll t = PollReady -> t_listen_in t = true ->
     ~ In (t_accept t) (attached s))
    /\ (value_of (loop_iter t s) = Continue ->
        accepts_fresh ticks' (state_of (loop_iter t s)))
  end.

(** The HELLO test of the admission, and the variables once a client
    is admitted on descriptor [cfd]. *)
Definition hello_valid (t : tick) : bool :=
  match t_hello t with
  | Some f => (Wire.f_type f =? MSG_HELLO) && (Wire.f_len f =? 4)
  | None => false
  end.

Definition admitted (cfd : Z) (s : ServerState) : ServerState :=
  set_num_clients (num_clients s + 1)
    (set_client_fds (<[Z.to_nat (num_clients s) := cfd]> (client_fds s)) s).

(** Every event of the program satisfies [P]. *)
Definition emits {A} (P : event -> Prop) (p : M A) : Prop :=
  forall s, Forall P (events_of (p s)).

(** The program leaves the client table alone. *)
Definition keeps_table {A} (p : M A) : Prop :=
  forall s, client_fds (state_of (p s)) = client_fds s
            /\ num_clients (state_of (p s)) = num_clients s.

End Server.

(** ** 7. Client: connect, raw mode, poll() loop, detach key, SIGWINCH *)

Module Client.
Import Sys.

Definition LF : string := String "010" EmptyString.
Definition CRLF : string := String "013" LF.

(** [s.c_str()] as [%s] prints it: the characters before the first NUL. *)
Fixpoint c_str (s : string) : string :=
  match s with
  | EmptyString => EmptyString
  | String c rest =>
    if Ascii.eqb c "000" then EmptyString else String c (c_str rest)
  end.

(** What the attach client does to the outside. *)
Inductive cevent :=
| CSend (type : MsgType) (payload : list byte)  (* send_msg(sock_fd, ...) *)
| CTermRaw                       (* tcsetattr(STDIN_FILENO, TCSANOW, raw) *)
| CTermRestore                   (* tcsetattr(..., &saved_termios) *)
| CStderr (msg : string)
| CStdout (data : list byte)     (* write_all(STDOUT_FILENO, data, len) *)
| CClose.                        (* close(sock_fd) *)

(** The variables of [cmd_attach] and the statics it uses. *)
Record ClientState := mkClient {
  exit_code : Z;
  running : bool;
  termios_saved : bool;
  got_winch : bool
}.

Definition set_exit_code (v : Z) (s : ClientState) : ClientState :=
  mkClient v (running s) (termios_saved s) (got_winch s).
Definition set_running (v : bool) (s : ClientState) : ClientState :=
  mkClient (exit_code s) v (termios_saved s) (got_winch s).
Definition set_termios_saved (v : bool) (s : ClientState) : ClientState :=
  mkClient (exit_code s) (running s) v (got_winch s).
Definition set_got_winch (v : bool) (s : ClientState) : ClientState :=
  mkClient (exit_code s) (running s) (termios_saved s) v.

Abbreviation CM := (prog ClientState cevent).

(** [read(STDIN_FILENO, buf, sizeof(buf))] *)
Inductive stdin_read :=
| StdinRead (buf : list byte)   (* n = length buf >= 0 *)
| StdinErr.                     (* n < 0 *)

(** One turn of the client's loop, seen from outside. *)
Record ctick := mkCtick {
  k_winch : bool;               (* SIGWINCH was handled since the last turn *)
  k_poll : poll_result;
  k_winsize : option (Z * Z);   (* ioctl(TIOCGWINSZ): cols and rows, or failure *)
  k_stdin_in : bool;            (* fds[0].revents & POLLIN *)
  k_read : stdin_read;
  k_send_ok : bool;             (* what send_msg of the DATA frame returns *)
  k_sock : revents;             (* fds[1].revents *)
  k_recv : option Wire.frame    (* recv_msg(sock_fd, ...) *)
}.

(** The four bytes of a HELLO or WINCH payload. *)
Definition winsize_payload (cols rows : Z) : list byte :=
  [ Z.land (Z.shiftr cols 8) 0xFF; Z.land cols 0xFF;
    Z.land (Z.shiftr rows 8) 0xFF; Z.land rows 0xFF ].

Definition send_window_size (ws : option (Z * Z)) : CM unit :=
  match ws with
  | None => mret tt
  | Some (cols, rows) => emit (CSend MSG_WINCH (winsize_payload cols rows))
  end.

Definition term_raw (isatty tcgetattr_ok : bool) : CM unit :=
  if negb isatty then mret tt
  else if negb tcgetattr_ok then mret tt
  else modify (set_termios_saved true);; emit CTermRaw.

Definition term_restore : CM unit :=
  s ← get;
  when (termios_saved s) (emit CTermRestore);;
  modify (set_termios_saved false).

Definition detached_notice (name : string) : string :=
  CRLF ++ "[detached from '" ++ c_str name ++ "']" ++ CRLF.

(** The loop that looks for the detach key; the value is [detached]. *)
Fixpoint scan_detach (name : string) (buf : list byte) : CM bool :=
  match buf with
  | [] => mret false
  | b :: rest =>
    if b =? DETACH_KEY then
      emit (CSend MSG_DETACH []);;
      modify (set_running false);;
      term_restore;;
      emit (CStderr (detached_notice name));;
      mret true
    else scan_detach name rest
  end.

(** Stdin -> server *)
Definition stdin_phase (name : string) (t : ctick) : CM unit :=
  when (k_stdin_in t) (
    match k_read t with
    | StdinRead buf =>
      if (0 <? length buf)%nat then
        detached ← scan_detach name buf;
        s ← get;
        when (negb detached && running s) (
          emit (CSend MSG_DATA buf);;
          when (negb (k_send_ok t)) (modify (set_running false)))
      else modify (set_running false)
    | StdinErr => mret tt
    end).

(** The [switch (type)] on a frame from the daemon. *)
Definition dispatch (f : Wire.frame) : CM unit :=
  if Wire.f_type f =? MSG_DATA then
    when (0 <? Wire.f_len f) (emit (CStdout (Wire.f_data f)))
  else if Wire.f_type f =? MSG_EXIT then
    when (1 <=? Wire.f_len f)
         (modify (set_exit_code (nth 0 (Wire.f_data f) 0)));;
    modify (set_running false)
  else mret tt.

Definition hup_check (t : ctick) : CM unit :=
  when (pollhup_err (k_sock t)) (modify (set_running false)).

Definition take_winch (t : ctick) : CM unit :=
  s ← get;
  when (got_winch s) (
    modify (set_got_winch false);;
    send_window_size (k_winsize t)).

Definition attach_iter (name : string) (t : ctick) : CM ctl :=
  when (k_winch t) (modify (set_got_winch true));;
  match k_poll t with
  | PollEINTR => take_winch t;; mret Continue
  | PollError => mret Break
  | PollReady =>
    take_winch t;;
    stdin_phase name t;;
    s ← get;
    if running s && pollin (k_sock t) then
      match k_recv t with
      | None => modify (set_running false);; mret Continue
      | Some f => dispatch f;; hup_check t;; mret Continue
      end
    else hup_check t;; mret Continue
  end.

Definition attach_loop (name : string) (ticks : list ctick) : CM bool :=
  while_loop running (attach_iter name) ticks.

(** What the calls of [cmd_attach] before its loop return. *)
Record attach_env := mkAttachEnv {
  a_sock_fd : Z;                 (* connect_to_session(name) *)
  a_winsize : option (Z * Z);    (* ioctl(STDIN_FILENO, TIOCGWINSZ, &ws) *)
  a_hello_ok : bool;             (* send_msg of the HELLO frame *)
  a_isatty : bool;
  a_tcgetattr_ok : bool
}.

(** The statics as [cmd_attach] finds them when the process starts
    ([exit_code] and [running] are locals, set before the loop). *)
Definition client_init : ClientState := mkClient 0 true false false.

(** [cmd_attach]: the value is [None] when the ticks ran out with the
    client still in its loop. *)
Definition cmd_attach (env : attach_env) (name : string)
           (ticks : list ctick) : CM (option Z) :=
  if negb (Names.valid_session_name name) then
    emit (CStderr ("Invalid session name '" ++ c_str name ++ "'" ++ LF));;
    mret (Some 1)
  else if a_sock_fd env <? 0 then
    emit (CStderr ("Cannot attach to session '" ++ c_str name
                   ++ "': not running" ++ LF));;
    mret (Some 1)
  else
    let '(cols, rows) := match a_winsize env with
                         | Some ws => ws
                         | None => (80, 24)
                         end in
    emit (CSend MSG_HELLO (winsize_payload cols rows));;
    if negb (a_hello_ok env) then
      emit (CStderr ("Failed to send HELLO to session '" ++ c_str name
                     ++ "'" ++ LF));;
      emit CClose;;
      mret (Some 1)
    else
      term_raw (a_isatty env) (a_tcgetattr_ok env);;
      modify (set_exit_code 0);;
      modify (set_running true);;
      exited ← attach_loop name ticks;
      if exited : bool then
        term_restore;;
        emit CClose;;
        s ← get;
        mret (Some (exit_code s))
      else mret None.

(** *** Reading a run of the client *)

(** The chunk holds the detach key. *)
Definition has_detach_key (buf : list byte) : bool :=
  existsb (fun b => b =? DETACH_KEY) buf.

(** The WINCH frame a turn sends before it looks at its input. *)
Definition winch_events (t : ctick) (s : ClientState) : list cevent :=
  if k_winch t || got_winch s then
    match k_winsize t with
    | Some (cols, rows) => [CSend MSG_WINCH (winsize_payload cols rows)]
    | None => []
    end
  else [].



(** The variables when [cmd_attach] enters its loop, and what it has
    done by then (the name being valid, the connection made and the
    HELLO sent). *)
Definition loop_entry (env : attach_env) (st : ClientState) : ClientState :=
  set_running true
    (set_exit_code 0
       (if a_isatty env && a_tcgetattr_ok env
        then set_termios_saved true st else st)).

Definition hello_payload (env : attach_env) : list byte :=
  match a_winsize env with
  | Some (cols, rows) => winsize_payload cols rows
  | None => winsize_payload 80 24
  end.

Definition setup_events (env : attach_env) : list cevent :=
  CSend MSG_HELLO (hello_payload env)
  :: (if a_isatty env && a_tcgetattr_ok env then [CTermRaw] else []).

(** A program under which the exit code stays what it is for as long
    as [running] holds, and which never sets [running]. *)
Definition keeps {A} (p : CM A) : Prop :=
  forall s, running (state_of (p s)) = true ->
            exit_code (state_of (p s)) = exit_code s /\ running s = true.

End Client.

(** ** 6, 8, 11. The commands [create], [open] and [kill] *)

Module Commands.
Import Sys.

(** What a command does to the outside. *)
Inductive effect :=
| FxStderr (msg : string)
| FxStdout (msg : string)
| FxPerror (what : string)       (* perror(what) *)
| FxEnsureSocketDir              (* ensure_socket_dir() *)
| FxCleanup (name : string)      (* cleanup_session_files(name) *)
| FxKill (pid : Z) (sig : Z)
| FxUsleep (usec : Z)
| FxFork
| FxSetsid
| FxStdioToDevNull               (* open("/dev/null") and the three dup2 *)
| FxClient (e : Client.cevent).  (* an action of cmd_attach *)

(** How the process that runs a command leaves it. *)
Inductive outcome :=
| Returns (code : Z)             (* return code *)
| Exits (code : Z)               (* _exit(code) in a forked child *)
| RunsServer (name cmd : string) (* _exit(run_server(name, cmd)) *)
| Attached.                      (* still in the loop of cmd_attach *)

Definition invalid_name_long (name : string) : string :=
  "Invalid session name '" ++ Client.c_str name
  ++ "': use alphanumeric, dash, underscore, dot (max "
  ++ pretty MAX_NAME_LEN ++ " chars)" ++ Client.LF.

Definition invalid_name_short (name : string) : string :=
  "Invalid session name '" ++ Client.c_str name ++ "'" ++ Client.LF.

(** What the calls of [cmd_create] return. *)
Record create_env := mkCreateEnv {
  ce_ensure_dir : bool;        (* ensure_socket_dir() *)
  ce_sock_exists : bool;       (* file_exists(spath) *)
  ce_pid : Z;                  (* read_pid_file(pid_path(name)) *)
  ce_alive : bool;             (* process_alive(pid) *)
  ce_fork1 : Z;                (* the first fork() *)
  ce_appears : nat -> bool;    (* file_exists(spath) at turn i of the wait *)
  ce_fork2 : Z;                (* the second fork() *)
  ce_devnull : Z               (* open("/dev/null", O_RDWR) *)
}.

(** [for (int i = 0; i < 20; i++) { usleep(50000); if (file_exists(spath)) return 0; }] *)
Fixpoint wait_socket (appears : nat -> bool) (i turns : nat) : list effect :=
  match turns with
  | O => []
  | S turns' =>
    FxUsleep 50000 ::
    (if appears i then [] else wait_socket appears (S i) turns')
  end.

Definition cmd_create (env : create_env) (name cmd : string)
  : outcome * list effect :=
  if negb (Names.valid_session_name name) then
    (Returns 1, [FxStderr (invalid_name_long name)])
  else if negb (ce_ensure_dir env) then (Returns 1, [FxEnsureSocketDir])
  else
    let stale := ce_sock_exists env
                 && negb ((0 <? ce_pid env) && ce_alive env) in
    if ce_sock_exists env && ((0 <? ce_pid env) && ce_alive env) then
      (Returns 1,
       [FxEnsureSocketDir;
        FxStderr ("Session '" ++ Client.c_str name ++ "' already exists (pid "
                  ++ pretty (ce_pid env) ++ ")" ++ Client.LF)])
    else
      let pre := FxEnsureSocketDir
                 :: (if stale then [FxCleanup name] else []) ++ [FxFork] in
      if ce_fork1 env <? 0 then
        (Returns 1, pre ++ [FxPerror "fork"])
      else if 0 <? ce_fork1 env then
        (Returns 0, pre ++ wait_socket (ce_appears env) 0 20)
      else if ce_fork2 env <? 0 then (Exits 1, pre ++ [FxSetsid; FxFork])
      else if 0 <? ce_fork2 env then (Exits 0, pre ++ [FxSetsid; FxFork])
      else
        (RunsServer name cmd,
         pre ++ [FxSetsid; FxFork]
             ++ (if 0 <=? ce_devnull env then [FxStdioToDevNull] else [])).

(** What the calls of [cmd_kill] return. *)
Record kill_env := mkKillEnv {
  ke_pid : Z;                  (* read_pid_file(pid_path(name)) *)
  ke_alive0 : bool;            (* the first process_alive(pid) *)
  ke_alive : nat -> bool       (* process_alive(pid) at turn i of the wait *)
}.

(** [for (int i = 0; i < 10; i++) { usleep(100000); if (!process_alive(pid)) ... return 0; }];
    the value says whether the loop returned. *)
Fixpoint wait_dead (name : string) (alive : nat -> bool) (i turns : nat)
  : bool * list effect :=
  match turns with
  | O => (false, [])
  | S turns' =>
    if alive i then
      let '(r, fx) := wait_dead name alive (S i) turns' in
      (r, FxUsleep 100000 :: fx)
    else
      (true, [FxUsleep 100000; FxCleanup name;
              FxStdout ("Session '" ++ Client.c_str name ++ "' killed."
                        ++ Client.LF)])
  end.

Definition cmd_kill (env : kill_env) (name : string) : Z * list effect :=
  if negb (Names.valid_session_name name) then
    (1, [FxStderr (invalid_name_short name)])
  else if (ke_pid env <=? 0) || negb (ke_alive0 env) then
    (1, [FxCleanup name;
         FxStderr ("Session '" ++ Client.c_str name
                   ++ "' not found or already dead." ++ Client.LF)])
  else
    let '(returned, fx) := wait_dead name (ke_alive env) 0 10 in
    if returned : bool then (0, FxKill (ke_pid env) SIGTERM :: fx)
    else
      (0, FxKill (ke_pid env) SIGTERM :: fx
          ++ [FxKill (ke_pid env) SIGKILL; FxUsleep 100000; FxCleanup name;
              FxStdout ("Session '" ++ Client.c_str name
                        ++ "' killed (SIGKILL)." ++ Client.LF)]).

(** [cmd_attach] as a command: its actions and how it ends. *)
Definition attach (env : Client.attach_env) (ticks : list Client.ctick)
           (name : string) : outcome * list effect :=
  let r := Client.cmd_attach env name ticks Client.client_init in
  (match value_of r with Some code => Returns code | None => Attached end,
   map FxClient (events_of r)).

(** What the calls of [cmd_open] return, those of the [cmd_create] and
    [cmd_attach] it runs included. *)
Record open_env := mkOpenEnv {
  oe_sock_exists : bool;
  oe_pid : Z;
  oe_alive : bool;
  oe_create : create_env;
  oe_attach : Client.attach_env;
  oe_ticks : list Client.ctick
}.

Definition cmd_open (env : open_env) (name cmd : string)
  : outcome * list effect :=
  if negb (Names.valid_session_name name) then
    (Returns 1, [FxStderr (invalid_name_long name)])
  else if oe_sock_exists env && ((0 <? oe_pid env) && oe_alive env) then
    attach (oe_attach env) (oe_ticks env) name
  else
    let pre := if oe_sock_exists env then [FxCleanup name] else [] in
    let '(o, fx) := cmd_create (oe_create env) name cmd in
    match o with
    | Returns rc =>
      if negb (rc =? 0) then (Returns rc, pre ++ fx)
      else
        let '(o', fx') := attach (oe_attach env) (oe_ticks env) name in
        (o', pre ++ fx ++ FxUsleep 100000 :: fx')
    | _ => (o, pre ++ fx)
    end.

End Commands.

(** ** Frames on a stream *)

Module Stream.
Import Wire.

(** The bytes of one frame on the wire, as the specification lays them
    out: the header, then the payload. *)
Definition encode_frame (f : frame) : list byte :=
  frame_header (f_type f) (f_len f) ++ f_data f.

(** Successive calls of [recv_msg] on a descriptor return the frames
    [fs], in this order, and leave the channel with the bytes [rest]. *)
Fixpoint received (fs : list frame) (chan : channel) (rest : list byte)
  : Prop :=
  match fs with
  | [] => chan_bytes chan = rest
  | f :: fs' =>
    exists chan', recv_msg true chan = Some (f, chan')
                  /\ received fs' chan' rest
  end.

(** Successive calls of [send_msg] on a descriptor, for the frames
    [fs] in this order, all return true and write the bytes [w]. *)
Fixpoint sent (fs : list frame) (script : list write_result)
         (w : list byte) : Prop :=
  match fs with
  | [] => w = []
  | f :: fs' =>
    exists w1 script1 w2,
      send_msg script (f_type f) (f_data f) (f_len f) = (true, w1, script1)
      /\ sent fs' script1 w2
      /\ w = w1 ++ w2
  end.

(** A frame that [send_msg] can have been asked to send and that
    [recv_msg] accepts: a type that is a byte, a length that is the
    payload's and at most 1 MiB. *)
Definition frame_ok (f : frame) : Prop :=
  is_byte (f_type f)
  /\ f_len f = Z.of_nat (length (f_data f))
  /\ f_len f <= 1048576.

End Stream.

(** ** The attach client and the daemon, end to end *)

Module Link.
Import Wire Server Client.

(** The window size [cmd_attach] puts in its HELLO: the terminal's, or
    80 columns by 24 rows when standard input is no terminal. *)
Definition announced (env : attach_env) : Z * Z :=
  match a_winsize env with
  | Some ws => ws
  | None => (80, 24)
  end.

(** [ws_col] and [ws_row] are [unsigned short]. *)
Definition winsize_ok (ws : Z * Z) : Prop :=
  0 <= fst ws < 65536 /\ 0 <= snd ws < 65536.

End Link.
(** ** Reading a run of the daemon *)

(** The program relates the variables it starts from, the events it
    produces and the variables it leaves by [Q]. *)
Definition respects {S E A} (Q : S -> list E -> S -> Prop) (p : prog S E A)
  : Prop :=
  forall s, Q s (events_of (p s)) (state_of (p s)).

Module Daemon.
Import Sys Server.

(** Everything but the child's bookkeeping and [running] is the same
    in the two states. *)
Definition same_tables (s s' : ServerState) : Prop :=
  name s' = name s /\ command s' = command s
  /\ pty_master s' = pty_master s /\ listen_fd s' = listen_fd s
  /\ client_fds s' = client_fds s /\ num_clients s' = num_clients s
  /\ created s' = created s.

(** The PTY part of the turn finds the PTY open: no hang-up or error
    is polled, and a read, if there is one, returns data or asks to be
    retried. *)
Definition pty_alive (t : tick) : bool :=
  negb (pollhup_err (t_pty t))
  && (negb (pollin (t_pty t))
      || match t_pty_read t with
         | PtyRead buf => (0 <? length buf)%nat
         | PtyReadErr retry => retry
         end).

(** The client count the info file holds after an event, [c] being
    what it held before ([None]: not written yet), and after a trace. *)
Definition info_step (c : option Z) (e : event) : option Z :=
  match e with
  | EWriteInfo _ n _ _ => Some n
  | _ => c
  end.

Definition info_count (evs : list event) : option Z :=
  fold_left info_step evs None.

(** An info file the event writes is that of the session of [s]. *)
Definition info_for (s : ServerState) (e : event) : Prop :=
  match e with
  | EWriteInfo n _ c u => n = name s /\ c = created s /\ u = command s
  | _ => True
  end.

(** What a program does to the info file: it leaves the session's
    name, command and creation time alone, every info file it writes is
    the session's, and the count the file holds, if it was the number
    of attached clients before, is that number after. *)
Definition info_synced (s : ServerState) (e : list event) (s' : ServerState)
  : Prop :=
  name s' = name s /\ command s' = command s /\ created s' = created s
  /\ Forall (info_for s) e
  /\ fold_left info_step e (Some (num_clients s)) = Some (num_clients s').

(** The event writes no info file. *)
Definition no_info (e : event) : Prop :=
  match e with EWriteInfo _ _ _ _ => False | _ => True end.

(** The descriptor the turn gets from [accept], if any. *)
Definition accepted_at (t : tick) : list Z :=
  match t_poll t with
  | PollReady =>
    if t_listen_in t && (0 <=? t_accept t) then [t_accept t] else []
  | _ => []
  end.

(** The descriptors [accept] returned along the loop. *)
Fixpoint accepted (ticks : list tick) (s : ServerState) : list Z :=
  match ticks with
  | [] => []
  | t :: ticks' =>
    if negb (running s) then []
    else accepted_at t
         ++ match value_of (loop_iter t s) with
            | Break => []
            | Continue => accepted ticks' (state_of (loop_iter t s))
            end
  end.

(** The child's bookkeeping is the same in the two states. *)
Definition same_child (s s' : ServerState) : Prop :=
  child_pid s' = child_pid s /\ child_exit_code s' = child_exit_code s.

(** The exit code the daemon holds fits the byte of an EXIT frame. *)
Definition exit_code_ok (s : ServerState) : Prop :=
  0 <= child_exit_code s <= 255.

(** The only frames the event sends are EXIT frames whose payload is
    the one byte [rc]. *)
Definition exit_with (rc : Z) (e : event) : Prop :=
  match e with
  | ESend _ ty p _ => ty = MSG_EXIT /\ p = [rc]
  | _ => True
  end.

(** What a program does with descriptors: with the client table
    within its array before, it is so after, the listening socket, the
    PTY and the session's name are the same, and the descriptors
    attached before together with the new ones [extra] are, each once,
    those the program closed and those attached after. *)
Definition closes_ok (extra : list Z) (s : ServerState) (e : list event)
           (s' : ServerState) : Prop :=
  table_ok s ->
  table_ok s'
  /\ listen_fd s' = listen_fd s /\ pty_master s' = pty_master s
  /\ name s' = name s
  /\ closed_by e ++ attached s' ≡ₚ attached s ++ extra.

(** The signals a trace sends: the pid and the signal of each [kill]. *)
Definition kills (evs : list event) : list (Z * Z) :=
  flat_map (fun e => match e with EKill pid sig => [(pid, sig)] | _ => [] end)
           evs.

(** The event is no [kill]. *)
Definition no_kill (e : event) : Prop :=
  match e with EKill _ _ => False | _ => True end.

(** The event closes no descriptor. *)
Definition no_close (e : event) : Prop :=
  match e with EClose _ => False | _ => True end.

End Daemon.

(** ** Reading a run of the attach client *)

Module Relay.
Import Sys Wire Client.

(** The terminal after an event: in raw mode ([Some true]) or as it
    was found ([Some false]); [None] once raw mode was set on a raw
    terminal or settings restored that had not been saved. *)
Definition term_step (raw : option bool) (e : cevent) : option bool :=
  match raw, e with
  | Some false, CTermRaw => Some true
  | Some true, CTermRaw => None
  | Some true, CTermRestore => Some false
  | Some false, CTermRestore => None
  | r, _ => r
  end.

Definition term_after (raw : bool) (evs : list cevent) : option bool :=
  fold_left term_step evs (Some raw).

(** [termios_saved] follows the terminal. *)
Definition term_tracked (s : ClientState) (e : list cevent) (s' : ClientState)
  : Prop :=
  term_after (termios_saved s) e = Some (termios_saved s').

(** What the client may put on its socket and on standard output in
    the turn [t]: a WINCH frame, an empty DETACH frame, a DATA frame
    with the chunk just read from standard input, which is not empty
    and holds no detach key; on standard output the payload of the
    DATA frame just received, which is not empty. *)
Definition relay_at (t : ctick) (e : cevent) : Prop :=
  match e with
  | CSend ty p =>
    ty = MSG_WINCH
    \/ (ty = MSG_DETACH /\ p = [])
    \/ (ty = MSG_DATA /\ k_stdin_in t = true /\ k_read t = StdinRead p
        /\ p <> [] /\ has_detach_key p = false)
  | CStdout d =>
    exists f, k_recv t = Some f /\ f_type f = MSG_DATA /\ f_data f = d
              /\ 0 < f_len f
  | _ => True
  end.

(** The same over a run: the HELLO frame, or what some turn allows. *)
Definition relayed (ticks : list ctick) (e : cevent) : Prop :=
  match e with
  | CSend ty _ => ty = MSG_HELLO \/ exists t, In t ticks /\ relay_at t e
  | CStdout _ => exists t, In t ticks /\ relay_at t e
  | _ => True
  end.

End Relay.
(** ** Reading what a command did *)

Module Effects.
Import Sys Commands.






End Effects.

(** ** 3, 9, 12. Paths, JSON strings, directory entries, arguments *)

Module Registry.

Definition QUOTE : ascii := "034".
Definition BACKSLASH : ascii := "092".
Definition NL : ascii := "010".
Definition CR : ascii := "013".
Definition TAB : ascii := "009".

(** [snprintf(buf, sizeof(buf), "/tmp/ghostly-%u", (unsigned)my_uid())]
    with [char buf[128]]: the text cut to 127 characters. *)
Definition socket_dir (uid : Z) : string :=
  substring 0 127 ("/tmp/ghostly-" ++ pretty uid).

Definition socket_path (uid : Z) (name : string) : string :=
  socket_dir uid ++ "/" ++ name ++ ".sock".

Definition pid_path (uid : Z) (name : string) : string :=
  socket_dir uid ++ "/" ++ name ++ ".pid".

Definition info_path (uid : Z) (name : string) : string :=
  socket_dir uid ++ "/" ++ name ++ ".info".

(** [path.size() < sizeof(addr.sun_path)]; the size of [sun_path] is
    the platform's (108 on Linux, 104 on macOS and the BSDs). *)
Definition socket_path_fits (sun_path_size : nat) (path : string) : bool :=
  (String.length path <? sun_path_size)%nat.

(** What [json_escape] appends for one character. *)
Definition escape_char (c : ascii) : string :=
  if Ascii.eqb c QUOTE then String BACKSLASH (String QUOTE EmptyString)
  else if Ascii.eqb c BACKSLASH
  then String BACKSLASH (String BACKSLASH EmptyString)
  else if Ascii.eqb c NL then String BACKSLASH (String "n" EmptyString)
  else if Ascii.eqb c CR then String BACKSLASH (String "r" EmptyString)
  else if Ascii.eqb c TAB then String BACKSLASH (String "t" EmptyString)
  else String c EmptyString.

Fixpoint json_escape (s : string) : string :=
  match s with
  | EmptyString => EmptyString
  | String c rest => escape_char c ++ json_escape rest
  end.

(** Reading a JSON string body written with these five escapes. *)
Definition unescape_char (c : ascii) : ascii :=
  if Ascii.eqb c "n" then NL
  else if Ascii.eqb c "r" then CR
  else if Ascii.eqb c "t" then TAB
  else c.

Fixpoint json_unescape (s : string) : string :=
  match s with
  | EmptyString => EmptyString
  | String c rest =>
    if Ascii.eqb c BACKSLASH then
      match rest with
      | EmptyString => String c EmptyString
      | String d rest' => String (unescape_char d) (json_unescape rest')
      end
    else String c (json_unescape rest)
  end.

(** The text can stand between the quotes of a JSON string without
    ending it: a backslash is followed by one of the five escaped
    characters, and no quote, line feed, carriage return or tab stands
    outside an escape. *)
Fixpoint json_body_ok (s : string) : bool :=
  match s with
  | EmptyString => true
  | String c rest =>
    if Ascii.eqb c BACKSLASH then
      match rest with
      | EmptyString => false
      | String d rest' =>
        (Ascii.eqb d QUOTE || Ascii.eqb d BACKSLASH || Ascii.eqb d "n"
         || Ascii.eqb d "r" || Ascii.eqb d "t")
        && json_body_ok rest'
      end
    else
      negb (Ascii.eqb c QUOTE || Ascii.eqb c NL || Ascii.eqb c CR
            || Ascii.eqb c TAB)
      && json_body_ok rest
  end.

(** One of the five characters [json_escape] rewrites. *)
Definition escaped (c : ascii) : bool :=
  Ascii.eqb c QUOTE || Ascii.eqb c BACKSLASH || Ascii.eqb c NL
  || Ascii.eqb c CR || Ascii.eqb c TAB.

(** [hay.rfind(needle)]: the last position at which [needle] occurs,
    [None] for [npos]. *)
Fixpoint rfind (needle hay : string) : option nat :=
  match hay with
  | EmptyString =>
    if String.eqb needle EmptyString then Some 0%nat else None
  | String _ rest =>
    match rfind needle rest with
    | Some i => Some (S i)
    | None => if String.prefix needle hay then Some 0%nat else None
    end
  end.

(** The session a directory entry of [enumerate_sessions] stands for:
    [rfind(".sock")] must find the suffix, and the name is what comes
    before it ([None]: the entry is skipped). *)
Definition entry_name (fname : string) : option string :=
  match rfind ".sock" fname with
  | None => None
  | Some pos =>
    if (pos + 5 =? String.length fname)%nat
    then Some (substring 0 pos fname)
    else None
  end.

(** The session [enumerate_sessions] goes on with for a directory
    entry: entries that are no [.sock] file or whose name is not a
    valid session name are skipped. *)
Definition entry_session (fname : string) : option string :=
  match entry_name fname with
  | Some name => if Names.valid_session_name name then Some name else None
  | None => None
  end.

(** The last character of a text. *)
Fixpoint last_char (s : string) : option ascii :=
  match s with
  | EmptyString => None
  | String c rest =>
    match last_char rest with
    | Some d => Some d
    | None => Some c
    end
  end.

(** The loop of [collect_cmd], [cmd] being what is collected so far. *)
Fixpoint collect_from (cmd : string) (args : list string) : string :=
  match args with
  | [] => cmd
  | a :: rest =>
    collect_from
      ((if String.eqb cmd EmptyString then cmd else cmd ++ " ") ++ a) rest
  end.

(** [collect_cmd(argc, argv, start)], [argv] holding the [argc]
    arguments. *)
Definition collect_cmd (argv : list string) (start : nat) : string :=
  collect_from EmptyString (drop start argv).

(** The loop of [main] that looks for the first ["--"] from index [i]
    on ([rest] being the arguments from there). *)
Fixpoint find_cmd (argv : list string) (i : nat) (rest : list string)
  : string :=
  match rest with
  | [] => EmptyString
  | a :: rest' =>
    if String.eqb a "--" then collect_cmd argv (i + 1)
    else find_cmd argv (S i) rest'
  end.

(** The command [main] passes to [cmd_create] and [cmd_open]. *)
Definition command_of (argv : list string) : string :=
  find_cmd argv 3 (drop 3 argv).

(** The leading empty arguments dropped. *)
Fixpoint drop_empty (args : list string) : list string :=
  match args with
  | [] => []
  | a :: rest => if String.eqb a EmptyString then drop_empty rest else args
  end.

(** *** The pid file and the info file *)

(** [isspace] in the C locale. *)
Definition is_space (c : ascii) : bool :=
  Ascii.eqb c " " || Ascii.eqb c TAB || Ascii.eqb c NL || Ascii.eqb c "011"
  || Ascii.eqb c "012" || Ascii.eqb c CR.

Definition digit_of (c : ascii) : option Z :=
  let n := Names.code c in
  if (48 <=? n) && (n <=? 57) then Some (n - 48) else None.

Fixpoint skip_space (s : string) : string :=
  match s with
  | EmptyString => EmptyString
  | String c rest => if is_space c then skip_space rest else s
  end.

(** The value of the decimal digits at the front of [s], [acc] being
    the value of those read so far. *)
Fixpoint digits (acc : Z) (s : string) : Z :=
  match s with
  | EmptyString => acc
  | String c rest =>
    match digit_of c with
    | Some d => digits (10 * acc + d) rest
    | None => acc
    end
  end.

Definition starts_with_digit (s : string) : bool :=
  match s with
  | EmptyString => false
  | String c _ => match digit_of c with Some _ => true | None => false end
  end.

(** The number at the front of a text as [strtol] reads it in base
    10: white space, an optional sign, digits; [None] when there is no
    digit. *)
Definition leading_number (s : string) : option Z :=
  match skip_space s with
  | String c rest =>
    if Ascii.eqb c "-" then
      if starts_with_digit rest then Some (- digits 0 rest) else None
    else if Ascii.eqb c "+" then
      if starts_with_digit rest then Some (digits 0 rest) else None
    else if starts_with_digit (String c rest)
    then Some (digits 0 (String c rest)) else None
  | EmptyString => None
  end.

Definition fits_int (v : Z) : bool := (- 2 ^ 31 <=? v) && (v <? 2 ^ 31).
Definition fits_long (v : Z) : bool := (- 2 ^ 63 <=? v) && (v <? 2 ^ 63).

(** What a conversion gives: a value, or nothing defined (the number
    read does not fit the type). *)
Inductive converted :=
| Value (v : Z)
| Undefined.

(** [atoi(s)] and [atol(s)]: 0 when there is no number. *)
Definition atoi (s : string) : converted :=
  match leading_number s with
  | Some v => if fits_int v then Value v else Undefined
  | None => Value 0
  end.

Definition atol (s : string) : converted :=
  match leading_number s with
  | Some v => if fits_long v then Value v else Undefined
  | None => Value 0
  end.

(** [fprintf(f, "%d\n", (int)pid)] *)
Definition write_pid_file (pid : Z) : string :=
  pretty pid ++ String NL EmptyString.

(** [read_pid_file]: [file] is the content of the file, [None] when
    it cannot be opened; [fscanf(f, "%d", &pid) != 1] is the case of
    no number. *)
Definition read_pid_file (file : option string) : converted :=
  match file with
  | None => Value 0
  | Some s =>
    match leading_number s with
    | Some v => if fits_int v then Value v else Undefined
    | None => Value 0
    end
  end.

(** [fprintf(f, "pid=%d\nclients=%d\ncreated=%ld\ncmd=%s\n", ...)] *)
Definition write_info_file (pid clients created : Z) (cmd : string)
  : string :=
  "pid=" ++ pretty pid ++ String NL EmptyString
  ++ "clients=" ++ pretty clients ++ String NL EmptyString
  ++ "created=" ++ pretty created ++ String NL EmptyString
  ++ "cmd=" ++ Client.c_str cmd ++ String NL EmptyString.

(** The lines successive calls of [fgets(line, size, f)] read from the
    text [s], the first being the line that is being read with room
    for [room] more characters: a line ends after a line feed or when
    it is full, and the last one at the end of the text. *)
Fixpoint fgets_go (size room : nat) (s : string) : list string :=
  match s with
  | EmptyString => [EmptyString]
  | String c rest =>
    if Ascii.eqb c NL || (room =? 1)%nat
    then String c EmptyString :: fgets_go size (size - 1) rest
    else match fgets_go size (room - 1) rest with
         | l :: ls => String c l :: ls
         | [] => [String c EmptyString]
         end
  end.

(** The lines [while (fgets(line, size, f))] sees: [fgets] returns
    [NULL] when there is nothing left to read. *)
Definition fgets_lines (size : nat) (s : string) : list string :=
  List.filter (fun l => negb (String.eqb l EmptyString))
              (fgets_go size (size - 1) s).

(** [while (!s.empty() && (s.back() == '\n' || s.back() == '\r')) s.pop_back();] *)
Fixpoint rtrim (s : string) : string :=
  match s with
  | EmptyString => EmptyString
  | String c rest =>
    match rtrim rest with
    | EmptyString =>
      if Ascii.eqb c NL || Ascii.eqb c CR then EmptyString
      else String c EmptyString
    | r => String c r
    end
  end.

(** The fields of [SessionInfo] that come from the info file. *)
Record info := mkInfo {
  i_clients : Z;
  i_created : Z;
  i_command : string
}.

(** [strncmp(line, key, strlen(key)) == 0] and [line + strlen(key)] *)
Definition after_key (key line : string) : option string :=
  if String.prefix key line
  then Some (substring (String.length key)
                       (String.length line - String.length key) line)
  else None.

(** The body of the loop over the lines of the info file; [None] once
    a conversion was undefined. *)
Definition info_line (si : option info) (line : string) : option info :=
  match si with
  | None => None
  | Some i =>
    match after_key "clients=" line with
    | Some v =>
      match atoi v with
      | Value n => Some (mkInfo n (i_created i) (i_command i))
      | Undefined => None
      end
    | None =>
      match after_key "created=" line with
      | Some v =>
        match atol v with
        | Value n => Some (mkInfo (i_clients i) n (i_command i))
        | Undefined => None
        end
      | None =>
        match after_key "cmd=" line with
        | Some v =>
          Some (mkInfo (i_clients i) (i_created i) (rtrim (Client.c_str v)))
        | None => Some i
        end
      end
    end
  end.

(** What [enumerate_sessions] reads from an info file ([char line[512]]). *)
Definition parse_info (content : string) : option info :=
  fold_left info_line (fgets_lines 512 content)
            (Some (mkInfo 0 0 "bash")).

(** No line feed and no carriage return in the text. *)
Definition one_line (s : string) : Prop :=
  Names.string_forall (fun c => c <> NL /\ c <> CR) s.

End Registry.

(** ** What the daemon passes on *)

Module Passing.
Import Sys Wire Server.

(** What the daemon may pass on in the turn [t]: to the clients, as a
    DATA frame, the chunk just read from the PTY, which is not empty;
    to the PTY the payload of a non-empty DATA frame just received
    from a client, and as window size the two numbers of the 4-byte
    HELLO frame of the connection just accepted or of a 4-byte WINCH
    frame just received from a client. *)
Definition pass_at (t : tick) (e : event) : Prop :=
  match e with
  | ESend _ ty p _ =>
    ty = MSG_DATA /\ pollin (t_pty t) = true /\ t_pty_read t = PtyRead p
    /\ p <> []
  | EPtyWrite d =>
    exists fd f, t_recv t fd = Some f /\ f_type f = MSG_DATA /\ f_data f = d
                 /\ 0 < f_len f
  | EWinsize c r =>
    exists f,
      ((t_hello t = Some f /\ f_type f = MSG_HELLO)
       \/ (exists fd, t_recv t fd = Some f /\ f_type f = MSG_WINCH))
      /\ f_len f = 4
      /\ c = be16 (f_data f) 0 /\ r = be16 (f_data f) 2
  | _ => True
  end.

(** The same over a run: what some turn allows, or an EXIT frame. *)
Definition passed (ticks : list tick) (e : event) : Prop :=
  match e with
  | ESend _ ty _ _ => ty = MSG_EXIT \/ exists t, In t ticks /\ pass_at t e
  | EPtyWrite _ | EWinsize _ _ => exists t, In t ticks /\ pass_at t e
  | _ => True
  end.

End Passing.

(** ** The shutdown sequence with signals *)

Module Async.
Import Sys Server.

(** The handlers installed before the loop stay installed to the end
    of [run_server], and the shutdown sequence reads [srv.child_pid]
    and [srv.child_exit_code] anew at every statement.  These are the
    signals handled before each of these reads. *)
Record shutdown_signals := mkShutdownSignals {
  sg_check : list signal;   (* before [if (srv.child_pid > 0)] *)
  sg_hup : list signal;     (* before [kill(srv.child_pid, SIGHUP)] *)
  sg_wait1 : list signal;   (* before the first [waitpid] *)
  sg_term : list signal;    (* before [kill(srv.child_pid, SIGTERM)] *)
  sg_wait2 : list signal;   (* before the second [waitpid] *)
  sg_kill : list signal;    (* before [kill(srv.child_pid, SIGKILL)] *)
  sg_wait3 : list signal;   (* before the blocking [waitpid] *)
  sg_code : list signal;    (* before [srv.child_exit_code == 0] is tested *)
  sg_store : list signal    (* before [srv.child_exit_code] is assigned *)
}.

(** No signal is handled during the sequence. *)
Definition quiet : shutdown_signals :=
  mkShutdownSignals [] [] [] [] [] [] [] [] [].

(** The child ends after the first [waitpid] has returned 0, and the
    SIGCHLD handler reaps it (its [waitpid] stores [ws]) before the
    sequence goes on. *)
Definition reaped_before_term (ws : Z) : shutdown_signals :=
  mkShutdownSignals [] [] [] [SigChld (WaitReaped ws)] [] [] [] [] [].

(** [kill(srv.child_pid, sig)] *)
Definition kill_child (sig : Z) : M unit :=
  s ← get;
  emit (EKill (child_pid s) sig).

(** [waitpid(srv.child_pid, &wstatus, nohang ? WNOHANG : 0)] *)
Definition wait_child (nohang : bool) : M unit :=
  s ← get;
  emit (EWaitpid (child_pid s) nohang).

(** [FIX #8] as it runs with the handlers installed. *)
Definition shutdown_child_async (sd : shutdown_env) (sg : shutdown_signals)
  : M unit :=
  deliver (sg_check sg);;
  s ← get;
  when (0 <? child_pid s) (
    deliver (sg_hup sg);;
    kill_child SIGHUP;;
    emit (EUsleep 50000);;
    deliver (sg_wait1 sg);;
    wait_child true;;
    let ws1 := stored (sd_wait1 sd) (sd_wstatus0 sd) in
    wstatus ← match sd_wait1 sd with
               | WaitNone =>
                 deliver (sg_term sg);;
                 kill_child SIGTERM;;
                 emit (EUsleep 100000);;
                 deliver (sg_wait2 sg);;
                 wait_child true;;
                 let ws2 := stored (sd_wait2 sd) ws1 in
                 match sd_wait2 sd with
                 | WaitNone =>
                   deliver (sg_kill sg);;
                   kill_child SIGKILL;;
                   deliver (sg_wait3 sg);;
                   wait_child false;;
                   mret (stored (sd_wait3 sd) ws2)
                 | _ => mret ws2
                 end
               | _ => mret ws1
               end;
    deliver (sg_code sg);;
    s' ← get;
    when ((child_exit_code s' =? 0) && WIFEXITED wstatus) (
      deliver (sg_store sg);;
      modify (set_child_exit_code (WEXITSTATUS wstatus)))).

(** The variables after the handlers ran for the signals [sgs]. *)
Definition handled (sgs : list signal) (s : ServerState) : ServerState :=
  fold_left (fun acc sg => handle sg acc) sgs s.

(** The [kill]s of the sequence, read off the code: each with the
    value [srv.child_pid] has when it is called. *)
Definition async_kills (sd : shutdown_env) (sg : shutdown_signals)
           (s : ServerState) : list (Z * Z) :=
  let s1 := handled (sg_check sg) s in
  if 0 <? child_pid s1 then
    let s2 := handled (sg_hup sg) s1 in
    (child_pid s2, SIGHUP)
    :: match sd_wait1 sd with
       | WaitNone =>
         let s4 := handled (sg_term sg) (handled (sg_wait1 sg) s2) in
         (child_pid s4, SIGTERM)
         :: match sd_wait2 sd with
            | WaitNone =>
              [(child_pid (handled (sg_kill sg) (handled (sg_wait2 sg) s4)),
                SIGKILL)]
            | _ => []
            end
       | _ => []
       end
  else [].

End Async.

(** * Properties *)

(** Unfolding the monad, to run a program whose tests are known. *)
Ltac run_prog :=
  cbv [mbind mret prog_bind prog_ret modify emit get when].

(** ** Session names *)

Section NameFacts.
Import Names.

Lemma code_inj (c d : ascii) : code c = code d -> c = d.
Proof.
  unfold code. intros H. apply N2Z.inj in H.
  rewrite <- (ascii_N_embedding c), <- (ascii_N_embedding d). now f_equal.
Qed.

Lemma name_char_ok_spec (c : ascii) :
  name_char_ok c = true <-> in_name_class c.
Proof.
  unfold name_char_ok, in_name_class.
  assert (Hdot : c = "."%char <-> code c = 46)
    by (split; [intros ->; reflexivity | intros H; now apply code_inj]).
  assert (Hund : c = "_"%char <-> code c = 95)
    by (split; [intros ->; reflexivity | intros H; now apply code_inj]).
  assert (Hdash : c = "-"%char <-> code c = 45)
    by (split; [intros ->; reflexivity | intros H; now apply code_inj]).
  rewrite Hdot, Hund, Hdash.
  change (code "a") with 97. change (code "z") with 122.
  change (code "A") with 65. change (code "Z") with 90.
  change (code "0") with 48. change (code "9") with 57.
  change (code "-") with 45. change (code "_") with 95.
  change (code ".") with 46.
  generalize (code c). intros n.
  destruct (Z.leb_spec 97 n), (Z.leb_spec n 122), (Z.leb_spec 65 n),
    (Z.leb_spec n 90), (Z.leb_spec 48 n), (Z.leb_spec n 57),
    (Z.eqb_spec n 45), (Z.eqb_spec n 95), (Z.eqb_spec n 46);
    cbn; split; intros; try reflexivity; try discriminate; lia.
Qed.

Lemma name_chars_ok_spec (s : string) :
  name_chars_ok s = true <-> string_forall in_name_class s.
Proof.
  induction s as [|c s IH]; cbn.
  - tauto.
  - rewrite <- IH, <- name_char_ok_spec.
    destruct (name_char_ok c); intuition congruence.
Qed.

Lemma valid_session_name_iff (name : string) :
  valid_session_name name = true <-> name_valid_spec name.
Proof.
  unfold valid_session_name, name_valid_spec, MAX_NAME_LEN.
  rewrite <- name_chars_ok_spec.
  destruct (Nat.eqb_spec (String.length name) 0),
    (Z.ltb_spec 64 (Z.of_nat (String.length name))),
    (String.eqb_spec name "."), (String.eqb_spec name "..");
    cbn; split; intros Hv; try discriminate; try tauto;
    try (destruct Hv as (? & ? & ? & ?); lia || congruence).
  repeat split; try assumption; lia.
Qed.

Lemma bad_char_rejected (c : ascii) (s : string) :
  name_char_ok c = false -> string_mem c s -> name_chars_ok s = false.
Proof.
  intros Hc. induction s as [|d s IH]; cbn.
  - tauto.
  - intros [<- | H].
    + now rewrite Hc.
    + rewrite (IH H). now destruct (name_char_ok d).
Qed.

Lemma chars_rejected_invalid (name : string) :
  name_chars_ok name = false -> valid_session_name name = false.
Proof.
  unfold valid_session_name. intros ->.
  repeat match goal with
         | |- context [if ?b then _ else _] => destruct b
         end; reflexivity.
Qed.

Example valid_name_accepted :
  valid_session_name "my-session_1.0" = true.
Proof. reflexivity. Qed.

Example name_of_64_accepted :
  valid_session_name
    "0123456789abcdef0123456789abcdef0123456789abcdef0123456789abcdef"
  = true.
Proof. reflexivity. Qed.

Example name_with_space_rejected : valid_session_name "a b" = false.
Proof. reflexivity. Qed.

(** C3: a session name is valid exactly when it has 1 to 64 characters,
    all of them in [[A-Za-z0-9._-]], and is neither "." nor ".."; the
    empty name, ".", "..", every name of 65 characters and every name
    that holds a slash or a NUL are invalid; and [cmd_create],
    [cmd_attach], [cmd_open] and [cmd_kill] answer an invalid name with
    exit code 1, doing nothing but print the diagnostic on standard
    error (no file, process, socket or terminal is touched, and the
    variables of the client are as they were). *)
Theorem session_name_validation (name : string) :
  (valid_session_name name = true <-> name_valid_spec name)
  /\ valid_session_name "" = false
  /\ valid_session_name "." = false
  /\ valid_session_name ".." = false
  /\ (String.length name = 65%nat -> valid_session_name name = false)
  /\ (string_mem "/" name -> valid_session_name name = false)
  /\ (string_mem "000" name -> valid_session_name name = false)
  /\ (valid_session_name name = false ->
      (forall env cmd,
          Commands.cmd_create env name cmd
          = (Commands.Returns 1,
             [Commands.FxStderr (Commands.invalid_name_long name)]))
      /\ (forall env ticks st,
          Client.cmd_attach env name ticks st
          = (Some 1, st,
             [Client.CStderr (Commands.invalid_name_short name)]))
      /\ (forall env cmd,
          Commands.cmd_open env name cmd
          = (Commands.Returns 1,
             [Commands.FxStderr (Commands.invalid_name_long name)]))
      /\ (forall env,
          Commands.cmd_kill env name
          = (1, [Commands.FxStderr (Commands.invalid_name_short name)]))).
Proof.
  split; [apply valid_session_name_iff|].
  do 3 (split; [reflexivity|]).
  split.
  { intros Hlen. unfold valid_session_name, MAX_NAME_LEN. rewrite Hlen.
    reflexivity. }
  split; [intros H; apply chars_rejected_invalid;
          now apply (bad_char_rejected "/")|].
  split; [intros H; apply chars_rejected_invalid;
          now apply (bad_char_rejected "000")|].
  intros Hbad. repeat split; intros.
  - unfold Commands.cmd_create. now rewrite Hbad.
  - unfold Client.cmd_attach. now rewrite Hbad.
  - unfold Commands.cmd_open. now rewrite Hbad.
  - unfold Commands.cmd_kill. now rewrite Hbad.
Qed.

(** The refusal at work on a name with a slash. *)
Lemma session_name_validation_witness :
  valid_session_name "a/b" = false
  /\ forall env, Commands.cmd_kill env "a/b"
                 = (1, [Commands.FxStderr (Commands.invalid_name_short "a/b")]).
Proof.
  split; [reflexivity|].
  apply (session_name_validation "a/b"). reflexivity.
Defined.

End NameFacts.

(** ** The frame codec *)

Section CodecFacts.
Import Wire.

(** A [write_all] that succeeds has written the whole buffer, however
    the writes were cut and interrupted. *)
Lemma write_all_ok (script : list write_result) :
  forall (buf w : list byte) (s : list write_result),
    write_all script buf = (true, w, s) -> w = buf.
Proof.
  induction script as [|r script IH]; intros buf w s.
  - destruct buf; cbn; congruence.
  - destruct buf as [|b buf]; [cbn; congruence|].
    destruct r as [n| |pr|]; cbn [write_all].
    + destruct (write_all script (drop (Nat.min n (length (b :: buf))) (b :: buf)))
        as [[ok w'] s'] eqn:E.
      intros [= -> <- <-]. apply IH in E. subst w'. apply take_drop.
    + apply IH.
    + destruct (pr <=? 0); [congruence | apply IH].
    + congruence.
Qed.

Lemma app_eq_prefix {A} (l1 k1 l2 k2 : list A) :
  l1 ++ k1 = l2 ++ k2 -> (length l1 <= length l2)%nat ->
  l2 = l1 ++ drop (length l1) l2 /\ k1 = drop (length l1) l2 ++ k2.
Proof.
  revert l2. induction l1 as [|x l1 IH]; intros l2 H Hlen.
  - cbn in *. now rewrite drop_0.
  - destruct l2 as [|y l2]; [cbn in Hlen; lia|].
    cbn in H. injection H as -> H. cbn in Hlen.
    destruct (IH l2 H ltac:(lia)) as [H1 H2].
    cbn. split; [now f_equal | assumption].
Qed.

Lemma read_all_chunk (chunk : list byte) (chan : channel) (len : nat) :
  chunk <> [] -> len <> 0%nat ->
  read_all (RdChunk chunk :: chan) len
  = if (length chunk <=? len)%nat then
      match read_all chan (len - length chunk) with
      | Some (r, c) => Some (chunk ++ r, c)
      | None => None
      end
    else Some (take len chunk, RdChunk (drop len chunk) :: chan).
Proof.
  intros Hc Hl. destruct len; [congruence|]. destruct chunk; [congruence|].
  reflexivity.
Qed.

(** On a clean channel [read_all] returns the next [len] bytes of the
    stream, however they are cut into chunks, and leaves the others. *)
Lemma read_all_clean (chan : channel) :
  forall (bs rest : list byte),
    chan_clean chan = true ->
    chan_bytes chan = bs ++ rest ->
    exists chan',
      read_all chan (length bs) = Some (bs, chan')
      /\ chan_clean chan' = true
      /\ chan_bytes chan' = rest.
Proof.
  induction chan as [|ev chan IH]; intros bs rest Hclean Hbytes.
  - cbn in Hbytes. symmetry in Hbytes. apply app_eq_nil in Hbytes as [-> ->].
    exists []. now cbn.
  - destruct (decide (bs = [])) as [->|Hbs]; [exists (ev :: chan); now cbn|].
    assert (Hlen : length bs <> 0%nat) by (destruct bs; cbn; congruence).
    destruct ev as [chunk| |].
    + assert (Hchunk : chunk <> []) by (destruct chunk; cbn in Hclean; congruence).
      assert (Hclean' : chan_clean chan = true)
        by (destruct chunk; cbn in Hclean; congruence).
      change (chan_bytes (RdChunk chunk :: chan))
        with (chunk ++ chan_bytes chan) in Hbytes.
      rewrite read_all_chunk by assumption.
      destruct (Nat.leb_spec (length chunk) (length bs)) as [Hle|Hgt].
      * destruct (app_eq_prefix _ _ _ _ Hbytes Hle) as [Hsplit Hrest].
        destruct (IH _ _ Hclean' Hrest) as (chan' & Hread & Hc & Hb).
        rewrite length_drop in Hread. rewrite Hread.
        exists chan'. rewrite <- Hsplit. auto.
      * symmetry in Hbytes.
        destruct (app_eq_prefix _ _ _ _ Hbytes ltac:(lia)) as [Hsplit Hrest].
        exists (RdChunk (drop (length bs) chunk) :: chan).
        split; [|split].
        -- do 2 f_equal. rewrite Hsplit. apply take_app_length.
        -- cbn. destruct (drop (length bs) chunk) eqn:E; [|assumption].
           apply (f_equal length) in E. rewrite length_drop in E.
           cbn in E. lia.
        -- cbn [chan_bytes]. now rewrite Hrest.
    + destruct bs as [|b bs]; [congruence|]. cbn in Hclean.
      cbn [length read_all]. now apply (IH (b :: bs)).
    + discriminate.
Qed.

Lemma frame_header_be (ty : MsgType) (len : Z) :
  is_byte ty -> frame_header ty len = ty :: be32_bytes len.
Proof.
  intros Hty. unfold frame_header, be32_bytes.
  change 0xFF with (Z.ones 8).
  rewrite !Z.land_ones, !Z.shiftr_div_pow2 by lia.
  rewrite (Z.mod_small ty) by exact Hty. reflexivity.
Qed.

Lemma header_len_frame_header (ty : MsgType) (len : Z) :
  0 <= len < 2 ^ 32 -> header_len (frame_header ty len) = len.
Proof.
  intros H. unfold header_len, frame_header. cbn [nth].
  change 0xFF with (Z.ones 8).
  Z.bitblast.
  match goal with
  | |- context [Z.testbit len ?i] =>
    assert (Hhigh : Z.testbit len i = false)
      by (rewrite <- (Z.mod_small len (2 ^ 32)) by exact H;
          apply Z.mod_pow2_bits_high; lia)
  end.
  rewrite Hhigh. reflexivity.
Qed.

(** What a [send_msg] that succeeds has written: the header, then the
    first [len] bytes of the buffer. *)
Lemma send_msg_ok (script s : list write_result) (ty : MsgType)
      (data w : list byte) :
  send_msg script ty data (Z.of_nat (length data)) = (true, w, s) ->
  w = frame_header ty (Z.of_nat (length data)) ++ data.
Proof.
  unfold send_msg.
  destruct (write_all script _) as [[ok1 w1] s1] eqn:E1.
  destruct ok1; cbn [negb]; [|discriminate].
  apply write_all_ok in E1. subst w1.
  destruct (Z.ltb_spec 0 (Z.of_nat (length data))) as [Hpos|Hzero].
  - rewrite Nat2Z.id, firstn_all.
    destruct (write_all s1 data) as [[ok2 w2] s2] eqn:E2.
    destruct ok2; cbn [negb]; [|discriminate].
    apply write_all_ok in E2. subst w2. now intros [= <- <-].
  - assert (data = []) as -> by (destruct data; [reflexivity | cbn in Hzero; lia]).
    intros [= <- <-]. now rewrite app_nil_r.
Qed.

Lemma recv_msg_oversize (m : bool) (chan c : channel) (hdr : list byte) :
  read_all chan 5 = Some (hdr, c) -> 1048576 < header_len hdr ->
  recv_msg m chan = None.
Proof.
  intros Hread Hbig. unfold recv_msg. rewrite Hread.
  destruct (Z.eqb_spec (header_len hdr) 0); [lia|].
  destruct (Z.ltb_spec (1024 * 1024) (header_len hdr)); [reflexivity | lia].
Qed.

Example send_msg_hello :
  send_msg [WrBytes 5; WrBytes 4] MSG_HELLO [0; 80; 0; 24] 4
  = (true, [5; 0; 0; 0; 4; 0; 80; 0; 24], []).
Proof. reflexivity. Qed.

Example send_msg_peer_gone :
  send_msg [WrBytes 5; WrEAGAIN 0] MSG_DATA [104; 105] 2
  = (false, [1; 0; 0; 0; 2], []).
Proof. reflexivity. Qed.

(** A header that declares 0x00100001 bytes, one more than 1 MiB. *)
Example recv_msg_too_long :
  recv_msg true [RdChunk [1; 0; 16; 0; 1; 7; 7; 7]] = None.
Proof. reflexivity. Qed.

(** A stream that ends inside the payload. *)
Example recv_msg_short_stream :
  recv_msg true [RdChunk [1; 0; 0; 0; 2; 7]; RdChunk []] = None.
Proof. reflexivity. Qed.

(** C5: a frame that [send_msg] wrote in full is the type tag, the
    payload length as four big-endian bytes and the payload; read back
    by [recv_msg] from a channel that delivers those bytes (cut into
    reads in any way) it yields the same type tag and the same payload
    when the payload has at most 1 MiB, and fails when it has more; and
    [recv_msg] fails on every header that declares more than 1 MiB. *)
Theorem frame_roundtrip (ty : MsgType) (data : list byte)
        (script script' : list write_result) (w : list byte)
        (chan : channel) (rest : list byte) :
  is_byte ty ->
  Z.of_nat (length data) < 2 ^ 32 ->
  send_msg script ty data (Z.of_nat (length data)) = (true, w, script') ->
  chan_clean chan = true ->
  chan_bytes chan = w ++ rest ->
  w = ty :: be32_bytes (Z.of_nat (length data)) ++ data
  /\ (Z.of_nat (length data) <= 1048576 ->
      exists chan',
        recv_msg true chan
        = Some (Frame ty data (Z.of_nat (length data)), chan')
        /\ chan_clean chan' = true
        /\ chan_bytes chan' = rest)
  /\ (1048576 < Z.of_nat (length data) ->
      forall m, recv_msg m chan = None)
  /\ (forall m chan0 hdr c,
        read_all chan0 5 = Some (hdr, c) ->
        1048576 < header_len hdr ->
        recv_msg m chan0 = None).
Proof.
  intros Hty Hlen Hsend Hclean Hbytes.
  set (len := Z.of_nat (length data)) in *.
  apply send_msg_ok in Hsend. fold len in Hsend.
  assert (Hhdr : exists chan1,
             read_all chan 5 = Some (frame_header ty len, chan1)
             /\ chan_clean chan1 = true
             /\ chan_bytes chan1 = data ++ rest).
  { apply (read_all_clean chan (frame_header ty len) (data ++ rest) Hclean).
    now rewrite Hbytes, Hsend, <- app_assoc. }
  destruct Hhdr as (chan1 & Hread & Hclean1 & Hbytes1).
  assert (Hdec : header_len (frame_header ty len) = len)
    by (apply header_len_frame_header; lia).
  split; [|split; [|split]].
  - rewrite Hsend, frame_header_be by exact Hty. reflexivity.
  - intros Hsmall. unfold recv_msg. rewrite Hread, Hdec.
    replace (nth 0 (frame_header ty len) 0) with ty
      by (cbn; now rewrite Z.mod_small).
    destruct (Z.eqb_spec len 0) as [Hz|Hnz].
    + assert (data = []) as -> by (destruct data; [reflexivity | cbn in len; lia]).
      exists chan1. now rewrite Hz.
    + destruct (Z.ltb_spec (1024 * 1024) len); [lia|]. cbn [negb].
      destruct (read_all_clean chan1 data rest Hclean1 Hbytes1)
        as (chan2 & Hread2 & Hclean2 & Hbytes2).
      unfold len at 1. rewrite Nat2Z.id, Hread2. now exists chan2.
  - intros Hbig m. apply (recv_msg_oversize m chan chan1 _ Hread). lia.
  - intros m chan0 hdr c. apply recv_msg_oversize.
Qed.

(** A 3-byte DATA frame, written in two short writes around an
    interruption and read back in three reads. *)
Lemma frame_roundtrip_witness :
  exists chan',
    recv_msg true [RdChunk [1; 0]; RdEINTR; RdChunk [0; 0; 3; 104];
                   RdChunk [105; 10; 4]]
    = Some (Frame MSG_DATA [104; 105; 10] 3, chan')
    /\ chan_clean chan' = true
    /\ chan_bytes chan' = [4].
Proof.
  apply (frame_roundtrip MSG_DATA [104; 105; 10]
           [WrBytes 2; WrEINTR; WrEAGAIN 1; WrBytes 9; WrBytes 3] []
           [1; 0; 0; 0; 3; 104; 105; 10]
           [RdChunk [1; 0]; RdEINTR; RdChunk [0; 0; 3; 104];
            RdChunk [105; 10; 4]] [4]).
  - unfold is_byte, MSG_DATA. lia.
  - cbn. lia.
  - reflexivity.
  - reflexivity.
  - reflexivity.
  - cbn. lia.
Defined.

End CodecFacts.

(** ** Wait statuses and the reaping of the child *)

Section ReapFacts.
Import Sys Server.

Lemma Z_range_forallb (P : Z -> bool) (lo : Z) (n : nat) :
  forallb P (map (fun k => lo + Z.of_nat k) (seq 0 n)) = true ->
  forall z, lo <= z < lo + Z.of_nat n -> P z = true.
Proof.
  intros H z Hz. rewrite forallb_forall in H. apply H.
  apply in_map_iff. exists (Z.to_nat (z - lo)).
  split; [lia | apply in_seq; lia].
Qed.

Lemma exit_status_decodes (code : Z) :
  0 <= code < 256 ->
  WIFEXITED (status_of_exit code) = true
  /\ WEXITSTATUS (status_of_exit code) = code.
Proof.
  intros H.
  pose proof (Z_range_forallb
    (fun c => WIFEXITED (status_of_exit c)
              && (WEXITSTATUS (status_of_exit c) =? c)) 0 256
    ltac:(vm_compute; reflexivity) code ltac:(lia)) as Hc.
  apply andb_prop in Hc as [H1 H2]. split; [exact H1 | lia].
Qed.

Lemma signal_status_decodes (sig : Z) (core : bool) :
  1 <= sig <= 126 ->
  WIFEXITED (status_of_signal sig core) = false
  /\ WIFSIGNALED (status_of_signal sig core) = true
  /\ WTERMSIG (status_of_signal sig core) = sig.
Proof.
  intros H.
  pose proof (Z_range_forallb
    (fun c => negb (WIFEXITED (status_of_signal c core))
              && WIFSIGNALED (status_of_signal c core)
              && (WTERMSIG (status_of_signal c core) =? c)) 1 126
    ltac:(destruct core; vm_compute; reflexivity) sig ltac:(lia)) as Hc.
  apply andb_prop in Hc as [Hc H3]. apply andb_prop in Hc as [H1 H2].
  repeat split; [now apply negb_true_iff | exact H2 | lia].
Qed.

Lemma signaled_not_exited (wstatus : Z) :
  WIFSIGNALED wstatus = true -> WIFEXITED wstatus = false.
Proof.
  unfold WIFSIGNALED, WIFEXITED, WTERMSIG.
  destruct (Z.eqb_spec (Z.land wstatus 0x7f) 0) as [->|]; [|reflexivity].
  vm_compute. discriminate.
Qed.

(** The variables after a handler run that reaps the child. *)
Lemma sigchld_reaped (s : ServerState) (wstatus : Z) :
  0 < child_pid s ->
  exists s',
    server_sigchld (WaitReaped wstatus) (Some s) = Some s'
    /\ child_pid s' = -1
    /\ running s' = false
    /\ (WIFEXITED wstatus = true ->
        child_exit_code s' = WEXITSTATUS wstatus)
    /\ (WIFSIGNALED wstatus = true ->
        child_exit_code s' = 128 + WTERMSIG wstatus).
Proof.
  intros Hpid. unfold server_sigchld.
  destruct (Z.ltb_spec 0 (child_pid s)) as [_|]; [|lia].
  eexists. split; [reflexivity|].
  split; [reflexivity|]. split; [reflexivity|]. split.
  - intros ->. reflexivity.
  - intros H. rewrite (signaled_not_exited _ H), H. reflexivity.
Qed.

(** C7: when the SIGCHLD handler reaps the child, the stored exit code
    is the child's exit status if it exited normally and 128 plus the
    signal number if a signal killed it; the child-pid slot is then -1
    (reaped) and the running flag is cleared. *)
Theorem sigchld_records_exit_code (s : ServerState) (wstatus : Z) :
  0 < child_pid s ->
  exists s',
    server_sigchld (WaitReaped wstatus) (Some s) = Some s'
    /\ child_pid s' = -1
    /\ running s' = false
    /\ (WIFEXITED wstatus = true ->
        child_exit_code s' = WEXITSTATUS wstatus)
    /\ (WIFSIGNALED wstatus = true ->
        child_exit_code s' = 128 + WTERMSIG wstatus)
    /\ (forall code, 0 <= code < 256 -> wstatus = status_of_exit code ->
        child_exit_code s' = code)
    /\ (forall sig core, 1 <= sig <= 126 ->
        wstatus = status_of_signal sig core ->
        child_exit_code s' = 128 + sig).
Proof.
  intros Hpid.
  destruct (sigchld_reaped s wstatus Hpid) as (s' & Hs' & H1 & H2 & Hex & Hsg).
  exists s'. repeat (split; [assumption|]). split.
  - intros code Hc ->. destruct (exit_status_decodes code Hc) as [H3 H4].
    rewrite (Hex H3). exact H4.
  - intros sig core Hs ->.
    destruct (signal_status_decodes sig core Hs) as (H3 & H4 & H5).
    rewrite (Hsg H4), H5. reflexivity.
Qed.

(** A child killed by SIGSEGV (signal 11) with a core dump. *)
Lemma sigchld_records_exit_code_witness :
  exists s',
    server_sigchld (WaitReaped (status_of_signal 11 true))
                   (Some (init_server "s" "" (mkStartup 3 1234 4 0 (fun _ => 0))))
    = Some s'
    /\ child_pid s' = -1 /\ running s' = false
    /\ child_exit_code s' = 139.
Proof.
  destruct (sigchld_records_exit_code
              (init_server "s" "" (mkStartup 3 1234 4 0 (fun _ => 0)))
              (status_of_signal 11 true) ltac:(cbn; lia))
    as (s' & H1 & H2 & H3 & _ & _ & _ & H4).
  exists s'. repeat split; try assumption.
  apply (H4 11 true); [lia | reflexivity].
Defined.

End ReapFacts.

(** ** The client table *)

Section TableFacts.
Import Sys Server.

Lemma bind_run {S E A B} (m : prog S E A) (k : A -> prog S E B) (s : S) :
  (m ≫= k) s
  = let '(a, s1, e1) := m s in
    let '(b, s2, e2) := k a s1 in
    (b, s2, e1 ++ e2).
Proof. reflexivity. Qed.

Lemma server_remove_client_run (idx : Z) (s : ServerState) :
  server_remove_client idx s
  = (tt, removed idx s,
     [EClose (fd_at s idx);
      EWriteInfo (name s) (num_clients s - 1) (created s) (command s)]).
Proof. reflexivity. Qed.

Lemma broadcast_at_run (send_ok : Z -> bool) (ty : MsgType)
      (data : list byte) (i : Z) (s : ServerState) :
  broadcast_at send_ok ty data i s
  = if send_ok (fd_at s i)
    then (tt, s, [ESend (fd_at s i) ty data true])
    else (tt, removed i s,
          [ESend (fd_at s i) ty data false; EClose (fd_at s i);
           EWriteInfo (name s) (num_clients s - 1) (created s) (command s)]).
Proof.
  unfold broadcast_at. rewrite bind_run. cbn.
  destruct (send_ok (fd_at s i)); reflexivity.
Qed.

(** Swap-removal on the array: the first [n] slots before are the
    removed entry and the first [n - 1] slots after. *)
Lemma swap_remove_perm (l : list Z) (n i : nat) (d : Z) :
  (i < n)%nat -> (n <= length l)%nat ->
  take n l ≡ₚ nth i l d :: take (n - 1) (<[i := nth (n - 1) l d]> l).
Proof.
  intros Hi Hn.
  set (y := nth (n - 1) l d). set (x := nth i l d).
  assert (Hy : l !! (n - 1)%nat = Some y).
  { destruct (nth_lookup_or_length l (n - 1) d) as [H|H]; [exact H | lia]. }
  assert (Hx : l !! i = Some x).
  { destruct (nth_lookup_or_length l i d) as [H|H]; [exact H | lia]. }
  replace n with (S (n - 1)) at 1 by lia.
  rewrite (take_S_r l (n - 1) y Hy).
  destruct (decide (i = (n - 1)%nat)) as [->|Hne].
  - rewrite take_insert_ge by lia.
    assert (x = y) as -> by congruence.
    symmetry. apply Permutation_cons_append.
  - rewrite take_insert_lt by lia.
    set (B := take (n - 1) l).
    assert (HB : B !! i = Some x).
    { unfold B. rewrite lookup_take_lt by lia. exact Hx. }
    rewrite insert_take_drop by (unfold B; rewrite length_take; lia).
    rewrite <- (take_drop_middle B i x HB) at 1.
    rewrite <- app_assoc. cbn.
    rewrite <- !Permutation_middle. now rewrite app_nil_r.
Qed.

Lemma attached_removed (s : ServerState) (idx : Z) :
  attached (removed idx s)
  = take (Z.to_nat (num_clients s) - 1)
         (<[Z.to_nat idx := fd_at s (num_clients s - 1)]> (client_fds s)).
Proof.
  unfold attached, removed. cbn. f_equal. lia.
Qed.

Lemma removed_perm (s : ServerState) (idx : Z) :
  0 <= idx < num_clients s ->
  (Z.to_nat (num_clients s) <= length (client_fds s))%nat ->
  attached s ≡ₚ fd_at s idx :: attached (removed idx s).
Proof.
  intros Hidx Hlen. rewrite attached_removed. unfold attached, fd_at.
  replace (Z.to_nat (num_clients s - 1))
    with (Z.to_nat (num_clients s) - 1)%nat by lia.
  apply swap_remove_perm; lia.
Qed.

Lemma attached_lookup (s : ServerState) (i : Z) :
  0 <= i < num_clients s ->
  (Z.to_nat (num_clients s) <= length (client_fds s))%nat ->
  attached s !! Z.to_nat i = Some (fd_at s i).
Proof.
  intros Hi Hlen. unfold attached, fd_at.
  rewrite lookup_take_lt by lia.
  destruct (nth_lookup_or_length (client_fds s) (Z.to_nat i) 0) as [H|H];
    [exact H | lia].
Qed.

(** C10: [server_remove_client] closes the descriptor at [idx], writes
    the last attached descriptor over its slot and lowers the count by
    one.  The table then holds the descriptors it held before less the
    removed one (as a multiset); the last client sits in the freed
    slot, so that the order of the others is not kept: with distinct
    descriptors and at least two clients behind the removed one, the
    table differs from the old one with the entry deleted in place. *)
Theorem remove_client_swaps_last (s : ServerState) (idx : Z) :
  0 <= idx < num_clients s ->
  num_clients s <= Z.of_nat (length (client_fds s)) ->
  let r := server_remove_client idx s in
  let n := num_clients s in
  events_of r
  = [EClose (fd_at s idx);
     EWriteInfo (name s) (n - 1) (created s) (command s)]
  /\ num_clients (state_of r) = n - 1
  /\ attached s ≡ₚ fd_at s idx :: attached (state_of r)
  /\ attached (state_of r)
     = take (Z.to_nat (n - 1))
            (<[Z.to_nat idx := fd_at s (n - 1)]> (attached s))
  /\ (idx < n - 1 ->
      attached (state_of r) !! Z.to_nat idx = Some (fd_at s (n - 1)))
  /\ (idx < n - 2 -> NoDup (attached s) ->
      attached (state_of r) <> delete (Z.to_nat idx) (attached s)).
Proof.
  intros Hidx Hlen r n. unfold r. rewrite server_remove_client_run.
  cbn [events_of state_of fst snd].
  assert (Hlen' : (Z.to_nat (num_clients s) <= length (client_fds s))%nat)
    by lia.
  assert (Hshape : attached (removed idx s)
                   = take (Z.to_nat (n - 1))
                          (<[Z.to_nat idx := fd_at s (n - 1)]> (attached s))).
  { rewrite attached_removed. unfold attached. fold n.
    rewrite <- take_insert_lt by lia. rewrite take_take.
    f_equal. lia. }
  assert (Hslot : idx < n - 1 ->
                  attached (removed idx s) !! Z.to_nat idx
                  = Some (fd_at s (n - 1))).
  { intros Hlt. rewrite Hshape. rewrite lookup_take_lt by lia.
    apply list_lookup_insert_eq. unfold attached. rewrite length_take. lia. }
  split; [reflexivity|]. split; [reflexivity|].
  split; [now apply removed_perm|]. split; [exact Hshape|].
  split; [exact Hslot|].
  intros Hlt Hnodup Heq.
  specialize (Hslot ltac:(lia)). rewrite Heq in Hslot.
  rewrite list_lookup_delete_ge in Hslot by lia.
  pose proof (attached_lookup s (n - 1) ltac:(lia) Hlen') as Hlast.
  pose proof (NoDup_lookup _ _ _ _ Hnodup Hslot Hlast). lia.
Qed.

(** Removing the first of the clients 5, 6, 7 leaves 7, 6. *)
Lemma remove_client_swaps_last_witness :
  let s := mkServer "s" "bash" 3 1234 4 [5; 6; 7; 0] 3 0 0 true in
  attached (state_of (server_remove_client 0 s)) = [7; 6]
  /\ attached (state_of (server_remove_client 0 s))
     <> delete 0%nat (attached s).
Proof.
  intros s. split; [reflexivity|].
  apply (remove_client_swaps_last s 0); cbn; try lia.
  repeat constructor; cbn; rewrite ?list_elem_of_In; cbn; intuition lia.
Defined.

End TableFacts.

(** ** Fan-out *)

Section FanoutFacts.
Import Sys Server.

Lemma same_session_refl (s : ServerState) : same_session s s.
Proof. unfold same_session. tauto. Qed.

Lemma same_session_trans (s1 s2 s3 : ServerState) :
  same_session s1 s2 -> same_session s2 s3 -> same_session s1 s3.
Proof. unfold same_session. intuition congruence. Qed.

Lemma same_session_removed (idx : Z) (s : ServerState) :
  same_session s (removed idx s).
Proof. unfold same_session. cbn. tauto. Qed.

Lemma fd_at_lookup (s : ServerState) (i : nat) :
  (i < length (client_fds s))%nat ->
  client_fds s !! i = Some (fd_at s (Z.of_nat i)).
Proof.
  intros Hi. unfold fd_at. rewrite Nat2Z.id.
  destruct (nth_lookup_or_length (client_fds s) i 0) as [H|H];
    [exact H | lia].
Qed.

(** The loop of [server_broadcast], from index [k - 1] down: it sends
    to the slots below [k] from the last to the first, each once; the
    table is left with those of them whose send succeeded and with
    what it held from [k] on. *)
Lemma fanout_down (send_ok : Z -> bool) (ty : MsgType) (data : list byte) :
  forall (k : nat) (s : ServerState),
    (k <= Z.to_nat (num_clients s))%nat ->
    (Z.to_nat (num_clients s) <= length (client_fds s))%nat ->
    let r := down_from k (broadcast_at send_ok ty data) s in
    events_of r
    = fanout_events (name s) (created s) (command s) send_ok ty data
                    (num_clients s) (rev (take k (client_fds s)))
    /\ attached (state_of r)
       ≡ₚ List.filter send_ok (take k (client_fds s)) ++ drop k (attached s)
    /\ num_clients (state_of r) <= num_clients s
    /\ (0 <= num_clients s -> 0 <= num_clients (state_of r))
    /\ length (client_fds (state_of r)) = length (client_fds s)
    /\ same_session s (state_of r).
Proof.
  induction k as [|i IH]; intros s Hk Hlen r.
  - subst r. cbn. rewrite drop_0.
    refine (conj _ (conj _ (conj _ (conj _ (conj _ _)))));
      try reflexivity; try lia; try tauto.
    apply same_session_refl.
  - subst r. cbn [down_from]. rewrite bind_run, broadcast_at_run.
    pose proof (fd_at_lookup s i ltac:(lia)) as Hfd.
    set (fd := fd_at s (Z.of_nat i)) in *.
    assert (Htake : take (S i) (client_fds s) = take i (client_fds s) ++ [fd])
      by (now apply take_S_r).
    assert (Hdrop : drop i (attached s) = fd :: drop (S i) (attached s)).
    { apply drop_S. unfold attached. rewrite lookup_take_lt by lia.
      exact Hfd. }
    rewrite Htake, rev_unit, List.filter_app. cbn [List.filter fanout_events].
    destruct (send_ok fd) eqn:Hok.
    + pose proof (IH s ltac:(lia) Hlen) as IH'. cbv zeta in IH'.
      destruct (down_from i (broadcast_at send_ok ty data) s)
        as [[u s'] ev] eqn:E.
      cbn [events_of state_of fst snd app] in *.
      destruct IH' as (He & Hp & Hn & Hn0 & Hl & Hs).
      refine (conj _ (conj _ (conj _ (conj _ (conj _ _))))); try assumption.
      * now rewrite He.
      * now rewrite Hp, Hdrop, <- app_assoc.
    + pose proof (IH (removed (Z.of_nat i) s) ltac:(cbn; lia)
                     ltac:(cbn; rewrite length_insert; lia)) as IH'.
      cbv zeta in IH'.
      destruct (down_from i (broadcast_at send_ok ty data)
                          (removed (Z.of_nat i) s))
        as [[u s'] ev] eqn:E.
      cbn [events_of state_of fst snd app] in *.
      destruct IH' as (He & Hp & Hn & Hn0 & Hl & Hs).
      assert (Htk : take i (client_fds (removed (Z.of_nat i) s))
                    = take i (client_fds s))
        by (cbn; apply take_insert_ge; lia).
      rewrite Htk in He, Hp.
      assert (Hperm : drop i (attached (removed (Z.of_nat i) s))
                      ≡ₚ drop (S i) (attached s)).
      { pose proof (removed_perm s (Z.of_nat i) ltac:(lia) Hlen) as Hr.
        fold fd in Hr.
        rewrite <- (take_drop i (attached s)) in Hr at 1.
        rewrite <- (take_drop i (attached (removed (Z.of_nat i) s))) in Hr.
        assert (Heq : take i (attached (removed (Z.of_nat i) s))
                      = take i (attached s)).
        { unfold attached. rewrite !take_take.
          replace (i `min` Z.to_nat (num_clients (removed (Z.of_nat i) s)))%nat
            with i by (cbn; lia).
          replace (i `min` Z.to_nat (num_clients s))%nat with i by lia.
          exact Htk. }
        rewrite Heq, Hdrop in Hr.
        rewrite <- Permutation_middle in Hr.
        apply Permutation_cons_inv in Hr.
        apply Permutation_app_inv_l in Hr. now symmetry. }
      pose proof (same_session_trans _ _ _ (same_session_removed _ s) Hs).
      refine (conj _ (conj _ (conj _ (conj _ (conj _ _))))); try assumption.
      * rewrite He. reflexivity.
      * now rewrite Hp, Hperm, app_nil_r.
      * cbn in Hn. lia.
      * intros H0. apply Hn0. cbn. lia.
      * rewrite Hl. cbn. apply length_insert.
Qed.

Lemma server_broadcast_run (send_ok : Z -> bool) (ty : MsgType)
      (data : list byte) (s : ServerState) :
  server_broadcast send_ok ty data s
  = down_from (Z.to_nat (num_clients s)) (broadcast_at send_ok ty data) s.
Proof.
  unfold server_broadcast. rewrite bind_run. cbn.
  now destruct (down_from _ _ s) as [[u s'] ev].
Qed.

Lemma sent_to_fanout session crt cmd send_ok ty data (fds : list Z) :
  forall n,
    sent_to (fanout_events session crt cmd send_ok ty data n fds) = fds.
Proof.
  induction fds as [|fd fds IH]; intros n; [reflexivity|].
  cbn [fanout_events]. destruct (send_ok fd); cbn; now rewrite IH.
Qed.

Lemma closed_by_fanout session crt cmd send_ok ty data (fds : list Z) :
  forall n,
    closed_by (fanout_events session crt cmd send_ok ty data n fds)
    = List.filter (fun fd => negb (send_ok fd)) fds.
Proof.
  induction fds as [|fd fds IH]; intros n; [reflexivity|].
  cbn [fanout_events List.filter]. destruct (send_ok fd); cbn; now rewrite IH.
Qed.

Lemma server_broadcast_events (send_ok : Z -> bool) (ty : MsgType)
      (data : list byte) (s : ServerState) :
  0 <= num_clients s <= Z.of_nat (length (client_fds s)) ->
  events_of (server_broadcast send_ok ty data s)
  = fanout_events (name s) (created s) (command s) send_ok ty data
                  (num_clients s) (rev (attached s)).
Proof.
  intros Hn. rewrite server_broadcast_run.
  now destruct (fanout_down send_ok ty data (Z.to_nat (num_clients s)) s
                  ltac:(lia) ltac:(lia)) as (He & _).
Qed.

(** C6: one fan-out sends the frame to every attached client exactly
    once, from the last slot to the first; a client whose send fails
    is closed, dropped from the table and the info file rewritten with
    the lowered count, right after its send; the clients left in the
    table are those whose send succeeded, and the rest of the session
    state is as it was. *)
Theorem fanout_drops_failed_clients (send_ok : Z -> bool) (ty : MsgType)
        (data : list byte) (s : ServerState) :
  0 <= num_clients s <= Z.of_nat (length (client_fds s)) ->
  let r := server_broadcast send_ok ty data s in
  events_of r
  = fanout_events (name s) (created s) (command s) send_ok ty data
                  (num_clients s) (rev (attached s))
  /\ sent_to (events_of r) = rev (attached s)
  /\ closed_by (events_of r)
     = List.filter (fun fd => negb (send_ok fd)) (rev (attached s))
  /\ attached (state_of r) ≡ₚ List.filter send_ok (attached s)
  /\ num_clients (state_of r) = Z.of_nat (length (attached (state_of r)))
  /\ same_session s (state_of r).
Proof.
  intros Hn r. subst r. rewrite server_broadcast_run.
  destruct (fanout_down send_ok ty data (Z.to_nat (num_clients s)) s
              ltac:(lia) ltac:(lia)) as (He & Hp & Hle & Hge & Hl & Hs).
  fold (attached s) in He, Hp.
  assert (Hev : events_of
                  (down_from (Z.to_nat (num_clients s))
                             (broadcast_at send_ok ty data) s)
                = fanout_events (name s) (created s) (command s) send_ok
                                ty data (num_clients s) (rev (attached s)))
    by exact He.
  refine (conj Hev (conj _ (conj _ (conj _ (conj _ Hs))))).
  - rewrite Hev. apply sent_to_fanout.
  - rewrite Hev. apply closed_by_fanout.
  - rewrite Hp.
    rewrite (drop_ge (attached s))
      by (unfold attached; rewrite length_take; lia).
    now rewrite app_nil_r.
  - unfold attached. rewrite length_take. specialize (Hge ltac:(lia)). lia.
Qed.

(** Clients 5, 6, 7 attached and the send to 6 failing. *)
Lemma fanout_drops_failed_clients_witness :
  let s := mkServer "s" "bash" 3 1234 4 [5; 6; 7; 0] 3 0 0 true in
  let r := server_broadcast (fun fd => negb (fd =? 6)) MSG_DATA [104] s in
  sent_to (events_of r) = [7; 6; 5]
  /\ closed_by (events_of r) = [6]
  /\ attached (state_of r) = [5; 7].
Proof.
  intros s r.
  destruct (fanout_drops_failed_clients
              (fun fd => negb (fd =? 6)) MSG_DATA [104] s
              ltac:(cbn; lia)) as (_ & H1 & H2 & _).
  split; [exact H1|]. split; [exact H2 | reflexivity].
Defined.

End FanoutFacts.

(** ** The shutdown sequence *)

Section ShutdownFacts.
Import Sys Server.

(** C1: the shutdown sequence on a child that outlives SIGHUP and
    SIGTERM and is killed by a signal: the daemon sends SIGHUP, sleeps
    50 ms, polls, sends SIGTERM, sleeps 100 ms, polls, sends SIGKILL
    and waits; the wait status it then holds says "killed by signal
    [sig]", yet the stored exit code stays 0, where the SIGCHLD handler
    stores [128 + sig] for the same status.  Only a normal exit is
    taken into the stored exit code by this path. *)
Theorem shutdown_drops_signal_death (s : ServerState) (sd : shutdown_env)
        (sig : Z) (core : bool) :
  0 < child_pid s ->
  child_exit_code s = 0 ->
  1 <= sig <= 126 ->
  sd_wait1 sd = WaitNone ->
  sd_wait2 sd = WaitNone ->
  sd_wait3 sd = WaitReaped (status_of_signal sig core) ->
  let r := shutdown_child sd s in
  let pid := child_pid s in
  events_of r
  = [EKill pid SIGHUP; EUsleep 50000; EWaitpid pid true;
     EKill pid SIGTERM; EUsleep 100000; EWaitpid pid true;
     EKill pid SIGKILL; EWaitpid pid false]
  /\ child_exit_code (state_of r) = 0
  /\ exists s',
      server_sigchld (WaitReaped (status_of_signal sig core)) (Some s)
      = Some s'
      /\ child_exit_code s' = 128 + sig.
Proof.
  intros Hpid Hcode Hsig H1 H2 H3 r pid.
  destruct (signal_status_decodes sig core Hsig) as (Hex & Hsg & Hts).
  assert (Hrun : shutdown_child sd s
                 = (tt, s,
                    [EKill pid SIGHUP; EUsleep 50000; EWaitpid pid true;
                     EKill pid SIGTERM; EUsleep 100000; EWaitpid pid true;
                     EKill pid SIGKILL; EWaitpid pid false])).
  { unfold shutdown_child. rewrite bind_run. cbn [get]. fold pid.
    destruct (Z.ltb_spec 0 pid) as [_|]; [|unfold pid in *; lia].
    rewrite H1, H2, H3. cbn [stored].
    cbv [when mbind mret prog_bind prog_ret emit modify app].
    rewrite Hcode, Hex. reflexivity. }
  subst r. rewrite Hrun. cbn [events_of state_of fst snd].
  split; [reflexivity|]. split; [exact Hcode|].
  destruct (sigchld_reaped s (status_of_signal sig core) Hpid)
    as (s' & Hs' & _ & _ & _ & Hrec).
  exists s'. split; [exact Hs'|]. rewrite (Hrec Hsg), Hts. reflexivity.
Qed.

(** A child that ignores SIGHUP and SIGTERM and dies of SIGKILL. *)
Lemma shutdown_drops_signal_death_witness :
  let s := mkServer "s" "bash" 3 1234 4 [5; 0] 1 0 0 false in
  let sd := mkShutdown WaitNone WaitNone
                       (WaitReaped (status_of_signal SIGKILL false))
                       0 (fun _ => true) in
  child_exit_code (state_of (shutdown_child sd s)) = 0
  /\ value_of (shutdown sd s) = 0
  /\ sent_to (events_of (shutdown sd s)) = [5]
  /\ exists s',
      server_sigchld (WaitReaped (status_of_signal SIGKILL false)) (Some s)
      = Some s'
      /\ child_exit_code s' = 137.
Proof.
  intros s sd.
  destruct (shutdown_drops_signal_death s sd SIGKILL false
              ltac:(cbn; lia) eq_refl ltac:(unfold SIGKILL; lia)
              eq_refl eq_refl eq_refl)
    as (_ & H0 & s' & Hs' & Hc).
  split; [exact H0|]. split; [reflexivity|]. split; [reflexivity|].
  exists s'. split; [exact Hs' | exact Hc].
Defined.

End ShutdownFacts.

(** ** Loops *)

Section LoopFacts.
Context {S E T : Type} (cond : S -> bool) (iter : T -> prog S E ctl).

Lemma while_loop_done (ticks : list T) (s : S) :
  cond s = false -> while_loop cond iter ticks s = (true, s, []).
Proof. intros H. destruct ticks; cbn; now rewrite H. Qed.

(** Running the loop over [pre ++ post] is running it over [pre] and,
    if it has not been left by then, going on over [post]. *)
Lemma while_loop_app (pre post : list T) :
  forall s,
    while_loop cond iter (pre ++ post) s
    = let r := while_loop cond iter pre s in
      if value_of r then r
      else let r' := while_loop cond iter post (state_of r) in
           (value_of r', state_of r', events_of r ++ events_of r').
Proof.
  induction pre as [|t pre IH]; intros s.
  - cbn [app while_loop]. destruct (cond s) eqn:Hc; cbn.
    + now destruct (while_loop cond iter post s) as [[b s'] e].
    + now apply while_loop_done.
  - cbn [app while_loop]. destruct (cond s); cbn [negb]; [|reflexivity].
    destruct (iter t s) as [[c s1] e1]. destruct c; [|reflexivity].
    rewrite IH. cbv zeta.
    destruct (while_loop cond iter pre s1) as [[b s2] e2]. cbn.
    destruct b; [reflexivity|].
    destruct (while_loop cond iter post s2) as [[b' s3] e3]. cbn.
    now rewrite app_assoc.
Qed.

(** When the ticks ran out the loop condition still holds. *)
Lemma while_loop_running (ticks : list T) :
  forall s,
    value_of (while_loop cond iter ticks s) = false ->
    cond (state_of (while_loop cond iter ticks s)) = true.
Proof.
  induction ticks as [|t ticks IH]; intros s; cbn [while_loop].
  - destruct (cond s) eqn:Hc; cbn; congruence.
  - destruct (cond s) eqn:Hc; cbn [negb]; [|cbn; congruence].
    destruct (iter t s) as [[c s1] e1]. destruct c; [|cbn; congruence].
    specialize (IH s1).
    destruct (while_loop cond iter ticks s1) as [[b s2] e2]. exact IH.
Qed.

(** An invariant of the turns is an invariant of the loop. *)
Lemma while_loop_invariant (I : S -> Prop) :
  (forall t s, I s -> cond s = true -> I (state_of (iter t s))) ->
  forall ticks s, I s -> I (state_of (while_loop cond iter ticks s)).
Proof.
  intros Hstep ticks. induction ticks as [|t ticks IH]; intros s Hs.
  - cbn. now destruct (cond s).
  - cbn [while_loop]. destruct (cond s) eqn:Hc; cbn [negb]; [|exact Hs].
    pose proof (Hstep t s Hs Hc) as H1.
    destruct (iter t s) as [[c s1] e1]. cbn in H1.
    destruct c; [|exact H1].
    specialize (IH s1 H1).
    now destruct (while_loop cond iter ticks s1) as [[b s2] e2].
Qed.

(** What holds of the events of every turn holds of those of the loop. *)
Lemma while_loop_events (P : E -> Prop) :
  (forall t s, Forall P (events_of (iter t s))) ->
  forall ticks s, Forall P (events_of (while_loop cond iter ticks s)).
Proof.
  intros Hstep ticks. induction ticks as [|t ticks IH]; intros s.
  - cbn. destruct (cond s); constructor.
  - cbn [while_loop]. destruct (cond s); cbn [negb]; [|constructor].
    pose proof (Hstep t s) as H1.
    destruct (iter t s) as [[c s1] e1]. cbn in H1.
    destruct c; [|exact H1].
    specialize (IH s1).
    destruct (while_loop cond iter ticks s1) as [[b s2] e2]. cbn in *.
    apply Forall_app. now split.
Qed.

End LoopFacts.

(** ** The attach client *)

Section ClientFacts.
Import Sys Client.

Lemma has_detach_key_In (buf : list byte) :
  has_detach_key buf = true <-> In DETACH_KEY buf.
Proof.
  unfold has_detach_key. rewrite existsb_exists. split.
  - intros (b & Hin & Hb). apply Z.eqb_eq in Hb. now subst.
  - intros Hin. exists DETACH_KEY. split; [exact Hin | apply Z.eqb_refl].
Qed.

(** The scan in closed form: at the first detach key, one empty DETACH
    frame, the terminal restored, the notice; nothing otherwise. *)
Lemma scan_detach_run (name : string) (buf : list byte) (s : ClientState) :
  scan_detach name buf s
  = if has_detach_key buf then
      (true, set_termios_saved false (set_running false s),
       CSend MSG_DETACH []
       :: (if termios_saved s then [CTermRestore] else [])
       ++ [CStderr (detached_notice name)])
    else (false, s, []).
Proof.
  induction buf as [|b buf IH]; [reflexivity|].
  cbn [scan_detach has_detach_key existsb].
  destruct (b =? DETACH_KEY); [|exact IH].
  destruct s as [ec run saved gw]. destruct saved; reflexivity.
Qed.

(** A turn that reads a chunk with the detach key in it. *)
Lemma attach_iter_detach (name : string) (t : ctick) (buf : list byte)
      (s : ClientState) :
  running s = true ->
  k_poll t = PollReady -> k_stdin_in t = true -> k_read t = StdinRead buf ->
  In DETACH_KEY buf ->
  attach_iter name t s
  = (Continue, mkClient (exit_code s) false false false,
     winch_events t s
     ++ CSend MSG_DETACH []
     :: (if termios_saved s then [CTermRestore] else [])
     ++ [CStderr (detached_notice name)]).
Proof.
  intros Hrun Hpoll Hin Hread Hkey.
  apply has_detach_key_In in Hkey.
  assert (Hlen : (0 <? length buf)%nat = true)
    by (destruct buf; [discriminate | reflexivity]).
  destruct s as [ec run saved gw]. cbn in Hrun. subst run.
  unfold attach_iter, winch_events, take_winch, stdin_phase, hup_check.
  rewrite Hpoll, Hin, Hread, Hlen.
  destruct (k_winch t), gw, (k_winsize t) as [[cols rows]|], (k_sock t) as [pin [|]];
    run_prog; cbn; rewrite scan_detach_run, Hkey; destruct saved; reflexivity.
Qed.

(** *** The exit code stays 0 while the client runs *)

Lemma keeps_ret {A} (a : A) : keeps (mret a).
Proof. intros s H. now split. Qed.

Lemma keeps_get : keeps get.
Proof. intros s H. now split. Qed.

Lemma keeps_emit (e : cevent) : keeps (emit e).
Proof. intros s H. now split. Qed.

Lemma keeps_bind {A B} (m : CM A) (k : A -> CM B) :
  keeps m -> (forall a, keeps (k a)) -> keeps (m ≫= k).
Proof.
  intros Hm Hk s. rewrite bind_run.
  specialize (Hm s). destruct (m s) as [[a s1] e1].
  specialize (Hk a s1). destruct (k a s1) as [[b s2] e2].
  cbn in *. intros H. destruct (Hk H) as [-> H1]. now apply Hm.
Qed.

Lemma keeps_when (b : bool) (m : CM unit) : keeps m -> keeps (when b m).
Proof. destruct b; [trivial | intros _; apply keeps_ret]. Qed.

Lemma keeps_stop : keeps (modify (set_running false)).
Proof. intros s H. discriminate. Qed.

Lemma keeps_then_stop {A} (m : CM A) :
  keeps (m ≫= fun _ => modify (set_running false)).
Proof.
  intros s. rewrite bind_run. destruct (m s) as [[a s1] e1]. discriminate.
Qed.

Lemma keeps_got_winch (v : bool) : keeps (modify (set_got_winch v)).
Proof. intros s H. now split. Qed.

Lemma keeps_termios (v : bool) : keeps (modify (set_termios_saved v)).
Proof. intros s H. now split. Qed.

Lemma keeps_scan_detach (name : string) (buf : list byte) :
  keeps (scan_detach name buf).
Proof.
  intros s. rewrite scan_detach_run.
  destruct (has_detach_key buf); cbn; [discriminate | now split].
Qed.

Ltac keeps_tac :=
  repeat first
    [ apply keeps_ret | apply keeps_get | apply keeps_emit
    | apply keeps_stop | apply keeps_got_winch | apply keeps_termios
    | apply keeps_scan_detach | apply keeps_then_stop
    | apply keeps_when
    | apply keeps_bind; [|intros ?]
    | match goal with
      | |- keeps (if ?b then _ else _) => destruct b
      | |- keeps (match ?x with _ => _ end) => destruct x
      | |- keeps (let '(_, _) := ?x in _) => destruct x
      end ].

Lemma keeps_dispatch (f : Wire.frame) : keeps (dispatch f).
Proof. unfold dispatch. keeps_tac. Qed.

Lemma keeps_attach_iter (name : string) (t : ctick) :
  keeps (attach_iter name t).
Proof.
  unfold attach_iter, take_winch, send_window_size, stdin_phase, hup_check.
  keeps_tac; apply keeps_dispatch.
Qed.

Lemma attach_loop_code_0 (name : string) (ticks : list ctick)
      (s : ClientState) :
  exit_code s = 0 ->
  value_of (attach_loop name ticks s) = false ->
  exit_code (state_of (attach_loop name ticks s)) = 0
  /\ running (state_of (attach_loop name ticks s)) = true.
Proof.
  intros Hs Hv.
  pose proof (while_loop_running running (attach_iter name) ticks s Hv) as Hr.
  split; [|exact Hr].
  refine (while_loop_invariant running (attach_iter name)
            (fun s => running s = true -> exit_code s = 0) _ ticks s
            (fun _ => Hs) Hr).
  intros t s0 H0 Hrun Hrun'.
  destruct (keeps_attach_iter name t s0 Hrun') as [-> _]. now apply H0.
Qed.

(** [cmd_attach] past its checks: the set-up, the loop, the way out. *)
Lemma cmd_attach_run (env : attach_env) (name : string)
      (ticks : list ctick) (st : ClientState) :
  Names.valid_session_name name = true ->
  0 <= a_sock_fd env ->
  a_hello_ok env = true ->
  cmd_attach env name ticks st
  = let r := attach_loop name ticks (loop_entry env st) in
    if value_of r then
      (Some (exit_code (state_of r)),
       set_termios_saved false (state_of r),
       setup_events env ++ events_of r
       ++ (if termios_saved (state_of r) then [CTermRestore] else [])
       ++ [CClose])
    else (None, state_of r, setup_events env ++ events_of r).
Proof.
  intros Hname Hsock Hhello.
  unfold cmd_attach, loop_entry, setup_events, hello_payload, term_raw,
    term_restore.
  rewrite Hname, Hhello.
  destruct (Z.ltb_spec (a_sock_fd env) 0) as [|_]; [lia|].
  cbn [negb].
  destruct (a_winsize env) as [[cols rows]|], (a_isatty env),
    (a_tcgetattr_ok env); run_prog; cbn;
    destruct (attach_loop name ticks _) as [[[|] s'] ev]; cbn;
    try destruct (termios_saved s'); cbn;
    rewrite ?app_nil_r; reflexivity.
Qed.

Lemma loop_still_running (env : attach_env) (name : string)
      (ticks : list ctick) (st : ClientState) :
  Names.valid_session_name name = true ->
  0 <= a_sock_fd env ->
  a_hello_ok env = true ->
  value_of (cmd_attach env name ticks st) = None ->
  let r := attach_loop name ticks (loop_entry env st) in
  value_of r = false
  /\ exit_code (state_of r) = 0 /\ running (state_of r) = true
  /\ state_of (cmd_attach env name ticks st) = state_of r
  /\ events_of (cmd_attach env name ticks st)
     = setup_events env ++ events_of r.
Proof.
  intros Hname Hsock Hhello Hv r.
  rewrite (cmd_attach_run env name ticks st Hname Hsock Hhello) in *.
  fold r in Hv |- *. cbv zeta in Hv |- *.
  destruct (value_of r) eqn:Hr; [discriminate|].
  split; [reflexivity|].
  destruct (attach_loop_code_0 name ticks (loop_entry env st) eq_refl Hr)
    as [H0 H1].
  fold r in H0, H1. now repeat split.
Qed.

(** A valid session name holds no NUL, so [%s] prints it whole. *)
Lemma c_str_valid (name : string) :
  Names.valid_session_name name = true -> c_str name = name.
Proof.
  unfold Names.valid_session_name.
  destruct (_ || _); [discriminate|]. destruct (_ || _); [discriminate|].
  induction name as [|c s IH]; [reflexivity|].
  cbn [Names.name_chars_ok c_str].
  destruct (Names.name_char_ok c) eqn:Hc; [|discriminate].
  intros Hs. destruct (Ascii.eqb_spec c "000") as [->|_]; [discriminate|].
  now rewrite IH.
Qed.

(** The text of the notice, character by character: CR, LF,
    [[detached from '<name>']], CR, LF. *)
Lemma detached_notice_text (name : string) :
  Names.valid_session_name name = true ->
  detached_notice name
  = String "013"
      (String "010"
         (String.append "[detached from '"
            (String.append name
               (String.append "']"
                  (String "013" (String "010" EmptyString)))))).
Proof.
  intros Hname. unfold detached_notice, CRLF, LF.
  now rewrite (c_str_valid name Hname).
Qed.

(** C8: when a chunk read from stdin holds the detach key, the client
    sends no DATA frame for it, neither for the bytes before the key
    nor for those after: it sends one empty DETACH frame, restores the
    terminal, prints the detached notice on standard error (CR, LF,
    [[detached from '<name>']], CR, LF), leaves its loop, closes the
    socket and returns 0.  (A WINCH frame for a window change noticed
    in the same turn goes out before the chunk is read.) *)
Theorem detach_chunk_not_forwarded (env : attach_env) (name : string)
        (pre post : list ctick) (t : ctick) (buf : list byte)
        (st : ClientState) :
  Names.valid_session_name name = true ->
  0 <= a_sock_fd env ->
  a_hello_ok env = true ->
  value_of (cmd_attach env name pre st) = None ->
  k_poll t = PollReady ->
  k_stdin_in t = true ->
  k_read t = StdinRead buf ->
  In DETACH_KEY buf ->
  let r0 := cmd_attach env name pre st in
  let r := cmd_attach env name (pre ++ t :: post) st in
  let notice :=
      String "013"
        (String "010"
           (String.append "[detached from '"
              (String.append name
                 (String.append "']"
                    (String "013" (String "010" EmptyString)))))) in
  let tail := winch_events t (state_of r0)
              ++ CSend MSG_DETACH []
              :: (if termios_saved (state_of r0) then [CTermRestore] else [])
              ++ [CStderr notice; CClose] in
  value_of r = Some 0
  /\ events_of r = events_of r0 ++ tail
  /\ (forall payload, ~ In (CSend MSG_DATA payload) tail).
Proof.
  intros Hname Hsock Hhello Hv Hpoll Hin Hread Hkey r0 r notice tail.
  destruct (loop_still_running env name pre st Hname Hsock Hhello Hv)
    as (Hr1 & Hcode & Hrun & Hst & Hev).
  set (r1 := attach_loop name pre (loop_entry env st)) in *.
  fold r0 in Hst, Hev.
  assert (Hloop : attach_loop name (pre ++ t :: post) (loop_entry env st)
                  = (true, mkClient 0 false false false,
                     events_of r1
                     ++ winch_events t (state_of r1)
                     ++ CSend MSG_DETACH []
                     :: (if termios_saved (state_of r1)
                         then [CTermRestore] else [])
                     ++ [CStderr notice])).
  { unfold attach_loop. rewrite while_loop_app. cbv zeta.
    fold (attach_loop name pre (loop_entry env st)). fold r1. rewrite Hr1.
    cbn [while_loop]. rewrite Hrun. cbn [negb].
    rewrite (attach_iter_detach name t buf (state_of r1)
               Hrun Hpoll Hin Hread Hkey).
    rewrite while_loop_done by reflexivity.
    cbn [value_of state_of events_of fst snd]. rewrite Hcode.
    rewrite (detached_notice_text name Hname). fold notice.
    now rewrite app_nil_r. }
  subst r. rewrite (cmd_attach_run env _ _ st Hname Hsock Hhello).
  rewrite Hloop. cbn [value_of state_of events_of fst snd termios_saved
                      exit_code].
  split; [reflexivity|]. split.
  - rewrite Hev. subst tail. rewrite Hst.
    rewrite <- !app_assoc. cbn [app]. rewrite <- !app_assoc. reflexivity.
  - intros payload Hp. subst tail. unfold winch_events in Hp.
    destruct (k_winch t || got_winch (state_of r0))%bool,
      (k_winsize t) as [[c w]|], (termios_saved (state_of r0));
      cbn in Hp; intuition discriminate.
Qed.

(** The chunk "a", detach key, "b" read on a terminal in raw mode. *)
Lemma detach_chunk_not_forwarded_witness :
  let env := mkAttachEnv 3 (Some (80, 24)) true true true in
  let t := mkCtick false PollReady None true (StdinRead [97; 28; 98]) true
                   (mkRevents false false) None in
  let r := cmd_attach env "work" [t] client_init in
  value_of r = Some 0
  /\ events_of r
     = [CSend MSG_HELLO [0; 80; 0; 24]; CTermRaw; CSend MSG_DETACH [];
        CTermRestore;
        CStderr (String "013"
                   (String "010"
                      (String.append "[detached from 'work']"
                         (String "013" (String "010" EmptyString)))));
        CClose].
Proof.
  intros env t r.
  destruct (detach_chunk_not_forwarded env "work" [] [] t [97; 28; 98]
              client_init eq_refl ltac:(cbn; lia) eq_refl eq_refl
              eq_refl eq_refl eq_refl ltac:(cbn; tauto))
    as (Hv & He & _).
  split; [exact Hv | exact He].
Defined.




End ClientFacts.

(** ** The event loop of the daemon *)

Section DaemonFacts.
Import Sys Server.

Lemma state_of_bind {S E A B} (m : prog S E A) (k : A -> prog S E B) (s : S) :
  state_of ((m ≫= k) s) = state_of (k (value_of (m s)) (state_of (m s))).
Proof.
  rewrite bind_run. destruct (m s) as [[a s1] e1]. cbn.
  now destruct (k a s1) as [[b s2] e2].
Qed.

Lemma events_of_bind {S E A B} (m : prog S E A) (k : A -> prog S E B) (s : S) :
  events_of ((m ≫= k) s)
  = events_of (m s) ++ events_of (k (value_of (m s)) (state_of (m s))).
Proof.
  rewrite bind_run. destruct (m s) as [[a s1] e1]. cbn.
  now destruct (k a s1) as [[b s2] e2].
Qed.

(** *** What a program emits *)

Lemma emits_ret {A} P (a : A) : emits P (mret a).
Proof. intros s. constructor. Qed.

Lemma emits_get P : emits P get.
Proof. intros s. constructor. Qed.

Lemma emits_modify P f : emits P (modify f).
Proof. intros s. constructor. Qed.

Lemma emits_emit (P : event -> Prop) e : P e -> emits P (emit e).
Proof. intros H s. now repeat constructor. Qed.

Lemma emits_bind {A B} P (m : M A) (k : A -> M B) :
  emits P m -> (forall a, emits P (k a)) -> emits P (m ≫= k).
Proof.
  intros Hm Hk s. rewrite events_of_bind. apply Forall_app.
  split; [apply Hm | apply Hk].
Qed.

Lemma emits_when P (b : bool) (m : M unit) : emits P m -> emits P (when b m).
Proof. destruct b; [trivial | intros _; apply emits_ret]. Qed.

Lemma emits_down_from P (body : Z -> M unit) :
  (forall i, emits P (body i)) -> forall k, emits P (down_from k body).
Proof.
  intros Hb. induction k as [|i IH]; cbn [down_from].
  - apply emits_ret.
  - apply emits_bind; [apply Hb | intros _; exact IH].
Qed.

Ltac emits_tac :=
  repeat first
    [ apply emits_ret | apply emits_get | apply emits_modify
    | apply emits_emit; first [exact I | reflexivity]
    | apply emits_when
    | apply emits_down_from; intros ?
    | apply emits_bind; [|intros ?]
    | match goal with
      | |- emits _ (if ?b then _ else _) => destruct b
      | |- emits _ (match ?x with _ => _ end) => destruct x
      end ].

Lemma emits_remove P idx :
  P (EClose 0) -> (forall fd, P (EClose fd)) ->
  (forall n c k u, P (EWriteInfo n c k u)) ->
  emits P (server_remove_client idx).
Proof.
  intros _ Hc Hw s. rewrite server_remove_client_run. cbn.
  repeat constructor; [apply Hc | apply Hw].
Qed.

Lemma emits_broadcast (P : event -> Prop) send_ok ty data :
  (forall fd ok, P (ESend fd ty data ok)) ->
  (forall fd, P (EClose fd)) ->
  (forall n c k u, P (EWriteInfo n c k u)) ->
  emits P (server_broadcast send_ok ty data).
Proof.
  intros Hs Hc Hw. unfold server_broadcast.
  apply emits_bind; [apply emits_get | intros s0].
  apply emits_down_from. intros i s. rewrite broadcast_at_run.
  destruct (send_ok _); cbn; repeat constructor;
    first [apply Hs | apply Hc | apply Hw].
Qed.

Lemma loop_iter_data_only (t : tick) : emits data_only (loop_iter t).
Proof.
  unfold loop_iter, deliver, accept_phase, pty_phase, client_phase, client_at.
  emits_tac.
Qed.

(** *** The client table under the phases of a turn *)

Lemma handle_table (sg : signal) (s : ServerState) :
  client_fds (handle sg s) = client_fds s
  /\ num_clients (handle sg s) = num_clients s.
Proof.
  unfold handle, server_sigchld, server_sigterm.
  destruct sg as [w|]; [|now split].
  destruct (0 <? child_pid s); [|now split].
  destruct w as [|ws|]; try (now split).
  destruct (WIFEXITED ws); [now split|].
  destruct (WIFSIGNALED ws); now split.
Qed.

Lemma deliver_table (sgs : list signal) : keeps_table (deliver sgs).
Proof.
  intros s. unfold deliver, modify. cbn. revert s.
  induction sgs as [|sg sgs IH]; intros s; cbn; [now split|].
  destruct (IH (handle sg s)) as [-> ->]. apply handle_table.
Qed.

Lemma table_above_ext P (k : nat) (s s' : ServerState) :
  client_fds s' = client_fds s -> num_clients s' = num_clients s ->
  table_above P k s -> table_above P k s'.
Proof.
  unfold table_above, table_ok, attached. intros -> ->. trivial.
Qed.

Lemma table_above_weaken P (k k' : nat) (s : ServerState) :
  (k' <= k)%nat -> table_above P k s -> table_above P k' s.
Proof.
  unfold table_above. intros Hk (H1 & H2 & H3). repeat split; try apply H1.
  - lia.
  - exact H3.
Qed.

Section Removal.
(** A property of the table that survives the removal of an entry. *)
Variable P : list Z -> Prop.
Hypothesis P_removal : forall l x l', l ≡ₚ x :: l' -> P l -> P l'.

Lemma table_above_removed (i : nat) (s : ServerState) :
  table_above P (S i) s -> table_above P i (removed (Z.of_nat i) s).
Proof.
  unfold table_above, table_ok, MAX_CLIENTS.
  intros ((Hn & Hlen) & Hk & HP).
  split; [|split].
  - cbn. rewrite length_insert. split; [lia | exact Hlen].
  - cbn. lia.
  - apply (P_removal (attached s) (fd_at s (Z.of_nat i))); [|exact HP].
    apply removed_perm; lia.
Qed.

(** A loop from index [k - 1] down whose body at [i] leaves the
    variables alone or removes client [i]. *)
Lemma down_from_table (body : Z -> M unit) :
  (forall i s, state_of (body i s) = s
               \/ state_of (body i s) = removed i s) ->
  forall k s,
    table_above P k s ->
    table_above P 0 (state_of (down_from k body s))
    /\ num_clients (state_of (down_from k body s)) <= num_clients s.
Proof.
  intros Hbody. induction k as [|i IH]; intros s Hs.
  - cbn. split; [exact Hs | lia].
  - cbn [down_from]. rewrite state_of_bind.
    destruct (Hbody (Z.of_nat i) s) as [-> | ->].
    + destruct (IH s (table_above_weaken P (S i) i s ltac:(lia) Hs)).
      now split.
    + destruct (IH _ (table_above_removed i s Hs)) as [H1 H2].
      split; [exact H1 | cbn in H2; lia].
Qed.

End Removal.

Lemma broadcast_at_table send_ok ty data (i : Z) (s : ServerState) :
  state_of (broadcast_at send_ok ty data i s) = s
  \/ state_of (broadcast_at send_ok ty data i s) = removed i s.
Proof.
  rewrite broadcast_at_run. destruct (send_ok _); cbn; auto.
Qed.

Lemma client_at_table (t : tick) (i : Z) (s : ServerState) :
  state_of (client_at t i s) = s
  \/ state_of (client_at t i s) = removed i s.
Proof.
  unfold client_at.
  destruct (t_client t i) as [[|] [|]]; cbn [pollin pollhup_err orb when];
    try (right; reflexivity); try (left; reflexivity);
    rewrite state_of_bind; cbn [get value_of state_of fst snd];
    (destruct (t_recv t (fd_at s i)) as [f|]; [|right; reflexivity]);
    destruct (Wire.f_type f =? MSG_DATA);
    [destruct (0 <? Wire.f_len f); left; reflexivity| |
     destruct (0 <? Wire.f_len f); left; reflexivity| ];
    (destruct (Wire.f_type f =? MSG_WINCH);
     [destruct (Wire.f_len f =? 4); left; reflexivity|]);
    (destruct (Wire.f_type f =? MSG_DETACH);
     [right; reflexivity | left; reflexivity]).
Qed.

(** The accept part of a turn in closed form. *)
Lemma accept_phase_run (t : tick) (s : ServerState) :
  accept_phase t s
  = let cfd := t_accept t in
    if t_listen_in t && (0 <=? cfd) then
      if MAX_CLIENTS <=? num_clients s then (tt, s, [EClose cfd])
      else
        match t_hello t with
        | Some f =>
          if (Wire.f_type f =? MSG_HELLO) && (Wire.f_len f =? 4) then
            (tt, admitted cfd s,
             [ESetRecvTimeout cfd 2;
              EWinsize (be16 (Wire.f_data f) 0) (be16 (Wire.f_data f) 2);
              ESetRecvTimeout cfd CLIENT_RECV_TIMEOUT;
              EWriteInfo (name s) (num_clients s + 1) (created s)
                         (command s)])
          else (tt, s, [ESetRecvTimeout cfd 2; EClose cfd])
        | None => (tt, s, [ESetRecvTimeout cfd 2; EClose cfd])
        end
    else (tt, s, []).
Proof.
  unfold accept_phase. cbv zeta.
  destruct (t_listen_in t); [|reflexivity].
  destruct (0 <=? t_accept t); [|reflexivity].
  cbn [andb when]. rewrite bind_run. cbn [get].
  destruct (MAX_CLIENTS <=? num_clients s); [reflexivity|].
  destruct (t_hello t) as [f|]; [|reflexivity].
  destruct ((Wire.f_type f =? MSG_HELLO) && (Wire.f_len f =? 4));
    reflexivity.
Qed.

Lemma accept_phase_state (t : tick) (s : ServerState) :
  state_of (accept_phase t s)
  = if t_listen_in t && (0 <=? t_accept t)
       && negb (MAX_CLIENTS <=? num_clients s) && hello_valid t
    then admitted (t_accept t) s else s.
Proof.
  rewrite accept_phase_run. cbv zeta. unfold hello_valid.
  destruct (t_listen_in t && (0 <=? t_accept t)); [|reflexivity].
  destruct (MAX_CLIENTS <=? num_clients s); [reflexivity|].
  destruct (t_hello t) as [f|]; [|reflexivity].
  destruct ((Wire.f_type f =? MSG_HELLO) && (Wire.f_len f =? 4));
    reflexivity.
Qed.

Lemma attached_admitted (cfd : Z) (s : ServerState) :
  table_ok s -> num_clients s < MAX_CLIENTS ->
  attached (admitted cfd s) = attached s ++ [cfd].
Proof.
  unfold table_ok, MAX_CLIENTS, attached, admitted. intros [Hn Hlen] Hlt.
  cbn. replace (Z.to_nat (num_clients s + 1))
    with (S (Z.to_nat (num_clients s))) by lia.
  rewrite (take_S_r _ _ cfd) by (apply list_lookup_insert_eq; lia).
  now rewrite take_insert_ge by lia.
Qed.

Lemma table_above_admitted P (cfd : Z) (s : ServerState) :
  table_above P 0 s -> num_clients s < MAX_CLIENTS ->
  P (attached s ++ [cfd]) ->
  table_above P 0 (admitted cfd s).
Proof.
  intros (Hok & _ & HP) Hlt Hadm. split; [|split].
  - destruct Hok as [Hn Hlen]. unfold table_ok. cbn.
    rewrite length_insert. split; [lia | exact Hlen].
  - lia.
  - now rewrite attached_admitted.
Qed.

Section TurnInvariant.
Variable P : list Z -> Prop.
Hypothesis P_removal : forall l x l', l ≡ₚ x :: l' -> P l -> P l'.

Lemma accept_phase_table (t : tick) (s : ServerState) :
  table_above P 0 s ->
  (t_listen_in t = true -> P (attached s ++ [t_accept t])) ->
  table_above P 0 (state_of (accept_phase t s)).
Proof.
  intros Hs Hadm. rewrite accept_phase_state.
  destruct (t_listen_in t); [|exact Hs]. cbn [andb].
  destruct (0 <=? t_accept t); [|exact Hs]. cbn [andb].
  destruct (Z.leb_spec MAX_CLIENTS (num_clients s)); [exact Hs|].
  cbn [negb andb]. destruct (hello_valid t); [|exact Hs].
  apply table_above_admitted; auto.
Qed.

Lemma server_broadcast_table send_ok ty data (s : ServerState) :
  table_above P 0 s ->
  table_above P 0 (state_of (server_broadcast send_ok ty data s))
  /\ num_clients (state_of (server_broadcast send_ok ty data s))
     <= num_clients s.
Proof.
  intros Hs. rewrite server_broadcast_run.
  apply (down_from_table P P_removal).
  - apply broadcast_at_table.
  - destruct Hs as (H1 & _ & H3). split; [exact H1 | split; [lia | exact H3]].
Qed.

Lemma pty_phase_table (t : tick) (s : ServerState) :
  table_above P 0 s ->
  table_above P 0 (state_of (pty_phase t s))
  /\ num_clients (state_of (pty_phase t s)) <= num_clients s.
Proof.
  intros Hs. unfold pty_phase. rewrite state_of_bind.
  set (s1 := state_of (when (pollin (t_pty t)) _ s)).
  assert (H1 : table_above P 0 s1 /\ num_clients s1 <= num_clients s).
  { subst s1. destruct (pollin (t_pty t)); [|split; [exact Hs | cbn; lia]].
    cbn [when]. destruct (t_pty_read t) as [buf|retry].
    - destruct (0 <? length buf)%nat.
      + now apply server_broadcast_table.
      + split; [exact Hs | cbn; lia].
    - destruct retry; split; first [exact Hs | cbn; lia]. }
  destruct H1 as [H1 H2].
  destruct (pollhup_err (t_pty t)); cbn [when]; (split; [exact H1 | exact H2]).
Qed.

Lemma client_phase_table (t : tick) (s : ServerState) :
  table_above P 0 s ->
  table_above P 0 (state_of (client_phase t s))
  /\ num_clients (state_of (client_phase t s)) <= num_clients s.
Proof.
  intros Hs. unfold client_phase. rewrite state_of_bind.
  cbn [get value_of state_of fst snd].
  apply (down_from_table P P_removal).
  - apply client_at_table.
  - destruct Hs as (H1 & _ & H3). split; [exact H1 | split; [lia | exact H3]].
Qed.

Lemma loop_iter_table (t : tick) (s : ServerState) :
  table_above P 0 s ->
  (t_poll t = PollReady -> t_listen_in t = true ->
   P (attached s ++ [t_accept t])) ->
  table_above P 0 (state_of (loop_iter t s)).
Proof.
  intros Hs Hadm. unfold loop_iter. rewrite state_of_bind.
  destruct (deliver_table (t_sig_poll t) s) as [Hf Hn].
  set (s1 := state_of (deliver (t_sig_poll t) s)) in *.
  assert (H1 : table_above P 0 s1) by now apply (table_above_ext P 0 s).
  assert (Hatt : attached s1 = attached s)
    by (unfold attached; now rewrite Hf, Hn).
  destruct (t_poll t); [|exact H1|exact H1].
  rewrite !state_of_bind.
  set (s2 := state_of (accept_phase t s1)).
  assert (H2 : table_above P 0 s2).
  { apply accept_phase_table; [exact H1|]. rewrite Hatt. now apply Hadm. }
  destruct (pty_phase_table t s2 H2) as [H3 _].
  destruct (client_phase_table t _ H3) as [H4 _].
  set (s4 := state_of (client_phase t _)) in *.
  destruct (deliver_table (t_sig_body t) s4) as [Hf' Hn'].
  cbn [mret prog_ret state_of fst snd].
  now apply (table_above_ext P 0 s4).
Qed.

End TurnInvariant.

(** *** The shutdown and the client table *)

Lemma close_all_no_send (fds : list Z) : emits no_send (close_all fds).
Proof. induction fds; cbn [close_all]; emits_tac. exact IHfds. Qed.

Lemma shutdown_child_no_send (sd : shutdown_env) :
  emits no_send (shutdown_child sd).
Proof. unfold shutdown_child. emits_tac. Qed.

Lemma shutdown_child_table (sd : shutdown_env) : keeps_table (shutdown_child sd).
Proof.
  intros s. unfold shutdown_child. rewrite state_of_bind.
  cbn [get value_of state_of fst snd].
  destruct (0 <? child_pid s); [|now split].
  destruct (sd_wait1 sd), (sd_wait2 sd); run_prog; cbn;
    match goal with
    | |- context [if ?b then _ else _] => destruct b
    end; now split.
Qed.

(** *** The cap on the attached clients *)

Lemma any_table_removal :
  forall (l : list Z) (x : Z) (l' : list Z),
    l ≡ₚ x :: l' -> (fun _ : list Z => True) l -> (fun _ : list Z => True) l'.
Proof. trivial. Qed.

Lemma init_server_table (session cmd : string) (su : startup) :
  table_ok (init_server session cmd su)
  /\ attached (init_server session cmd su) = [].
Proof.
  unfold table_ok, attached, init_server, MAX_CLIENTS. cbn [num_clients client_fds].
  rewrite length_map, length_seq. split; [split; [lia | reflexivity]|].
  reflexivity.
Qed.

Lemma event_loop_table_ok (ticks : list tick) (s : ServerState) :
  table_ok s -> table_ok (state_of (event_loop ticks s)).
Proof.
  intros Hs.
  refine (while_loop_invariant running loop_iter table_ok _ ticks s Hs).
  intros t s0 H0 _.
  apply (loop_iter_table (fun _ => True) any_table_removal t s0);
    [|trivial].
  split; [exact H0 | split; [lia | exact I]].
Qed.

Lemma close_all_state (fds : list Z) (s : ServerState) :
  state_of (close_all fds s) = s.
Proof.
  induction fds as [|fd fds IH]; [reflexivity|].
  cbn [close_all]. now rewrite state_of_bind.
Qed.

Lemma shutdown_table_ok (sd : shutdown_env) (s : ServerState) :
  table_ok s -> table_ok (state_of (shutdown sd s)).
Proof.
  intros Hs. unfold shutdown. rewrite !state_of_bind.
  cbn [get emit value_of state_of fst snd]. rewrite close_all_state.
  destruct (shutdown_child_table sd s) as [Hf Hn].
  set (s1 := state_of (shutdown_child sd s)) in *.
  assert (H1 : table_above (fun _ => True) 0 s1).
  { apply (table_above_ext _ 0 s); [exact Hf | exact Hn|].
    split; [exact Hs | split; [lia | exact I]]. }
  now destruct (server_broadcast_table _ any_table_removal
                  (sd_send_ok sd) MSG_EXIT [child_exit_code s1 mod 256] s1 H1)
    as [(? & _) _].
Qed.

(** C4: the daemon never has more than [MAX_CLIENTS = 16] clients
    attached: the count is within 0..16 at every turn of the loop and
    after the shutdown, for whatever the outside does; within a turn
    only the accept raises
    it, by one and only from below 16, and the fan-out and the client
    input only lower it; an accept with 16 attached closes the new
    descriptor and changes nothing; and a client is counted, and the
    info file rewritten, only if its first frame had type HELLO and a
    4-byte payload. *)
Theorem attached_clients_capped (session cmd : string) (su : startup)
        (ticks : list tick) :
  table_ok (state_of (event_loop ticks (init_server session cmd su)))
  /\ (forall sd, table_ok (state_of (run_server session cmd su ticks sd)))
  /\ (forall s t,
        table_ok s ->
        let s1 := state_of (accept_phase t s) in
        let s2 := state_of (pty_phase t s1) in
        let s3 := state_of (client_phase t s2) in
        (num_clients s <= num_clients s1 <= MAX_CLIENTS)
        /\ (0 <= num_clients s2 <= num_clients s1)
        /\ (0 <= num_clients s3 <= num_clients s2)
        /\ table_ok s3)
  /\ (forall s t,
        t_listen_in t = true -> 0 <= t_accept t ->
        MAX_CLIENTS <= num_clients s ->
        accept_phase t s = (tt, s, [EClose (t_accept t)]))
  /\ (forall s t,
        table_ok s ->
        let r := accept_phase t s in
        (num_clients (state_of r) <> num_clients s
         \/ exists n c k u, In (EWriteInfo n c k u) (events_of r)) ->
        (exists f, t_hello t = Some f /\ Wire.f_type f = MSG_HELLO
                   /\ Wire.f_len f = 4)
        /\ t_listen_in t = true /\ 0 <= t_accept t
        /\ num_clients s < MAX_CLIENTS
        /\ num_clients (state_of r) = num_clients s + 1
        /\ attached (state_of r) = attached s ++ [t_accept t]
        /\ In (EWriteInfo (name s) (num_clients s + 1) (created s)
                          (command s)) (events_of r)).
Proof.
  split; [|split; [|split; [|split]]].
  - apply event_loop_table_ok, init_server_table.
  - intros sd. unfold run_server.
    pose proof (event_loop_table_ok ticks _
                  (proj1 (init_server_table session cmd su))) as H1.
    destruct (event_loop ticks (init_server session cmd su))
      as [[exited s1] e1].
    cbn [state_of fst snd] in H1. destruct exited; [|exact H1].
    pose proof (shutdown_table_ok sd s1 H1) as H2.
    now destruct (shutdown sd s1) as [[rc s2] e2].
  - intros s t Hs s1 s2 s3.
    assert (H0 : table_above (fun _ => True) 0 s)
      by (split; [exact Hs | split; [lia | exact I]]).
    pose proof (accept_phase_table (fun _ => True) t s H0 (fun _ => I)) as H1.
    fold s1 in H1.
    destruct (pty_phase_table _ any_table_removal t s1 H1) as [H2 Hle2].
    fold s2 in H2, Hle2.
    destruct (client_phase_table _ any_table_removal t s2 H2) as [H3 Hle3].
    fold s3 in H3, Hle3.
    destruct H1 as ([? ?] & _), H2 as ([? ?] & _), H3 as (Hok3 & _).
    pose proof Hok3 as [? ?].
    assert (num_clients s <= num_clients s1).
    { subst s1. rewrite accept_phase_state.
      destruct (_ && _ && _ && _); cbn; lia. }
    repeat split; try lia; assumption.
  - intros s t Hl Hacc Hfull. rewrite accept_phase_run. cbv zeta.
    rewrite Hl. destruct (Z.leb_spec 0 (t_accept t)); [|lia]. cbn [andb].
    destruct (Z.leb_spec MAX_CLIENTS (num_clients s)); [reflexivity | lia].
  - intros s t Hs r Hadm. subst r. rewrite accept_phase_run in *.
    cbv zeta in *.
    destruct (t_listen_in t);
      [|cbn in Hadm; destruct Hadm as [?|(? & ? & ? & ? & [])]; congruence].
    destruct (Z.leb_spec 0 (t_accept t));
      [|cbn in Hadm; destruct Hadm as [?|(? & ? & ? & ? & [])]; congruence].
    cbn [andb] in *.
    destruct (Z.leb_spec MAX_CLIENTS (num_clients s)).
    { cbn in Hadm. destruct Hadm as [?|(? & ? & ? & ? & [?|[]])];
        congruence. }
    destruct (t_hello t) as [f|].
    2:{ cbn in Hadm. destruct Hadm as [?|(? & ? & ? & ? & [?|[?|[]]])];
        congruence. }
    destruct (Z.eqb_spec (Wire.f_type f) MSG_HELLO) as [Hty|]; cbn [andb] in *.
    2:{ cbn in Hadm. destruct Hadm as [?|(? & ? & ? & ? & [?|[?|[]]])];
        congruence. }
    destruct (Z.eqb_spec (Wire.f_len f) 4) as [Hlen|].
    2:{ cbn in Hadm. destruct Hadm as [?|(? & ? & ? & ? & [?|[?|[]]])];
        congruence. }
    cbn [state_of events_of fst snd].
    split; [now exists f|]. repeat split; try assumption; try lia.
    + now apply attached_admitted.
    + cbn. tauto.
Qed.

(** Sixteen clients attached and a seventeenth connecting. *)
Lemma attached_clients_capped_witness :
  let s := mkServer "s" "bash" 3 1234 4
                    (map Z.of_nat (seq 5 16)) 16 0 0 true in
  let t := mkTick [] PollReady true 21
                  (Some (Wire.Frame MSG_HELLO [0; 80; 0; 24] 4))
                  (mkRevents false false) (PtyRead []) (fun _ => true)
                  (fun _ => mkRevents false false) (fun _ => None) [] in
  accept_phase t s = (tt, s, [EClose 21]).
Proof.
  intros s t.
  apply (attached_clients_capped "s" "" (mkStartup 3 1234 4 0 (fun _ => 0)) []);
    [reflexivity | cbn; lia | cbn; unfold MAX_CLIENTS; lia].
Defined.

(** *** EXIT is the last frame *)

Lemma nodup_removal :
  forall (l : list Z) (x : Z) (l' : list Z),
    l ≡ₚ x :: l' -> NoDup l -> NoDup l'.
Proof.
  intros l x l' Hp Hl. rewrite Hp in Hl. now apply NoDup_cons in Hl as [_ ?].
Qed.

(** With accepts that return fresh descriptors, no descriptor is in
    the client table twice. *)
Lemma event_loop_nodup (ticks : list tick) :
  forall s,
    accepts_fresh ticks s ->
    table_above NoDup 0 s ->
    table_above NoDup 0 (state_of (event_loop ticks s)).
Proof.
  unfold event_loop.
  induction ticks as [|t ticks IH]; intros s Hfresh Hs.
  - cbn. now destruct (running s).
  - cbn [while_loop]. destruct (running s) eqn:Hrun; cbn [negb]; [|exact Hs].
    cbn [accepts_fresh] in Hfresh. destruct (Hfresh Hrun) as [Hacc Hnext].
    assert (H1 : table_above NoDup 0 (state_of (loop_iter t s))).
    { apply (loop_iter_table NoDup nodup_removal); [exact Hs|].
      intros Hp Hl. destruct Hs as (_ & _ & Hnd).
      apply NoDup_app. split; [exact Hnd|]. split; [|apply NoDup_singleton].
      intros x Hx Hx'. apply list_elem_of_singleton in Hx'. subst x.
      apply (Hacc Hp Hl). now apply list_elem_of_In. }
    destruct (loop_iter t s) as [[c s1] e1] eqn:E.
    cbn [value_of state_of fst snd] in *.
    destruct c; [|exact H1].
    specialize (IH s1 (Hnext eq_refl) H1).
    now destruct (while_loop running loop_iter ticks s1) as [[b s2] e2].
Qed.

Lemma no_send_data_only (l : list event) :
  Forall no_send l -> Forall data_only l.
Proof.
  intros Hl. eapply Forall_impl; [exact Hl|].
  intros [] H; cbn in *; tauto.
Qed.

(** The events of the shutdown: no frame, then the EXIT fan-out over
    the clients attached, then no frame. *)
Lemma shutdown_shape (sd : shutdown_env) (s : ServerState) :
  table_ok s ->
  exists pre post b n,
    events_of (shutdown sd s)
    = pre ++ fanout_events (name s) (created s) (command s) (sd_send_ok sd)
                           MSG_EXIT [b] n (rev (attached s)) ++ post
    /\ Forall no_send pre /\ Forall no_send post.
Proof.
  intros Hok. unfold shutdown.
  rewrite events_of_bind.
  pose proof (shutdown_child_no_send sd s) as Hpre.
  destruct (shutdown_child_table sd s) as [Hf Hn].
  assert (Hs : name (state_of (shutdown_child sd s)) = name s
               /\ created (state_of (shutdown_child sd s)) = created s
               /\ command (state_of (shutdown_child sd s)) = command s).
  { unfold shutdown_child. rewrite state_of_bind.
    cbn [get value_of state_of fst snd].
    destruct (0 <? child_pid s); [|now repeat split].
    destruct (sd_wait1 sd), (sd_wait2 sd); run_prog; cbn;
      match goal with
      | |- context [if ?b then _ else _] => destruct b
      end; now repeat split. }
  destruct Hs as (Hname & Hcrt & Hcmd).
  set (s1 := state_of (shutdown_child sd s)) in *.
  assert (Hatt : attached s1 = attached s)
    by (unfold attached; now rewrite Hf, Hn).
  rewrite events_of_bind. cbn [get events_of value_of state_of fst snd app].
  rewrite events_of_bind.
  rewrite server_broadcast_events
    by (destruct Hok as [? Hl]; rewrite Hf, Hn, Hl; unfold MAX_CLIENTS in *; lia).
  rewrite Hname, Hcrt, Hcmd, Hatt.
  eexists _, _, _, _. split; [reflexivity|]. split; [exact Hpre|].
  cbn [value_of].
  assert (He : emits no_send
                 (s' ← get;
                  close_all (attached s');;
                  emit (EClose (listen_fd s'));;
                  emit (EClose (pty_master s'));;
                  emit (ECleanupSessionFiles (name s'));;
                  mret (child_exit_code s')))
    by (emits_tac; apply close_all_no_send).
  apply He.
Qed.

Lemma sent_to_app (l1 l2 : list event) :
  sent_to (l1 ++ l2) = sent_to l1 ++ sent_to l2.
Proof. apply flat_map_app. Qed.

Lemma sent_to_no_send (l : list event) : Forall no_send l -> sent_to l = [].
Proof.
  induction 1 as [|e l He Hl IH]; [reflexivity|].
  destruct e; cbn in *; tauto.
Qed.

Lemma fanout_exit_only session crt cmd send_ok (b : byte) (fds : list Z) :
  forall n,
    Forall exit_only
           (fanout_events session crt cmd send_ok MSG_EXIT [b] n fds).
Proof.
  induction fds as [|x fds IH]; intros n; cbn [fanout_events];
    [constructor|].
  destruct (send_ok x); repeat constructor; apply IH.
Qed.

Lemma no_send_exit_only (l : list event) :
  Forall no_send l -> Forall exit_only l.
Proof.
  intros Hl. eapply Forall_impl; [exact Hl|].
  intros [] H; cbn in *; tauto.
Qed.

Lemma sent_to_In (l : list event) fd ty p o :
  In (ESend fd ty p o) l -> In fd (sent_to l).
Proof.
  intros H. unfold sent_to. apply in_flat_map.
  exists (ESend fd ty p o). split; [exact H | now left].
Qed.

(** An event that is not in the first part of a trace is in the
    second. *)
Lemma split_in_second {A} (P : A -> Prop) (before after pre post : list A)
      (e : A) :
  Forall P before -> ~ P e ->
  before ++ after = pre ++ e :: post ->
  exists pre2, after = pre2 ++ e :: post.
Proof.
  intros Hb He. revert pre.
  induction Hb as [|x before Hx Hb IH]; intros pre Heq.
  - now exists pre.
  - destruct pre as [|y pre]; cbn in Heq.
    + injection Heq as -> _. contradiction.
    + injection Heq as _ Heq. now apply (IH pre).
Qed.

(** The trace of the daemon: a part whose only frames are DATA frames,
    then (once the loop is left) a part whose only frames are one
    one-byte EXIT frame to each client attached by then. *)
Lemma run_server_shape (session cmd : string) (su : startup)
      (ticks : list tick) (sd : shutdown_env) :
  let r := run_server session cmd su ticks sd in
  let s1 := state_of (event_loop ticks (init_server session cmd su)) in
  exists before after,
    events_of r = before ++ after
    /\ Forall data_only before
    /\ Forall exit_only after
    /\ match value_of r with
       | Some _ => sent_to after = rev (attached s1)
       | None => after = []
       end.
Proof.
  intros r s1.
  set (s0 := init_server session cmd su) in *.
  pose proof (event_loop_table_ok ticks s0
                (proj1 (init_server_table session cmd su))) as Hok1.
  pose proof (while_loop_events running loop_iter data_only
                loop_iter_data_only ticks s0) as Hloop.
  fold (event_loop ticks s0) in Hloop. fold s1 in Hok1.
  assert (He0 : Forall data_only
                  [EWritePid session;
                   EWriteInfo session 0 (created s0) (command s0)])
    by (repeat constructor).
  subst r s1. unfold run_server. fold s0.
  destruct (event_loop ticks s0) as [[exited s1] e1] eqn:Eloop.
  cbn [state_of events_of fst snd] in Hok1, Hloop |- *.
  exists ([EWritePid session;
           EWriteInfo session 0 (created s0) (command s0)] ++ e1).
  destruct exited.
  - destruct (shutdown_shape sd s1 Hok1)
      as (pre2 & post2 & b & n & Hshape & Hpre2 & Hpost2).
    destruct (shutdown sd s1) as [[rc s2] e2] eqn:Esd.
    cbn [events_of value_of fst snd] in *.
    exists e2. split; [now rewrite <- app_assoc|].
    split; [apply Forall_app; now split|].
    rewrite Hshape. split.
    + apply Forall_app. split; [now apply no_send_exit_only|].
      apply Forall_app. split; [apply fanout_exit_only|].
      now apply no_send_exit_only.
    + rewrite !sent_to_app, sent_to_fanout.
      rewrite (sent_to_no_send pre2 Hpre2), (sent_to_no_send post2 Hpost2).
      now rewrite app_nil_r.
  - cbn [events_of value_of fst snd]. exists [].
    split; [now rewrite app_nil_r|].
    split; [apply Forall_app; now split|]. now split.
Qed.

(** C2: in the trace of the daemon, for whatever the outside does, an
    EXIT frame has a one-byte payload and no DATA frame follows it, to
    any client; and no frame at all follows it to the same client, as
    the descriptors of the attached clients are distinct (the kernel
    never returns from accept a descriptor that is open).  The trace is
    a part whose only frames are DATA frames, followed once the loop is
    left by a part whose only frames are one EXIT frame to each client
    then attached. *)
Theorem exit_frame_is_last (session cmd : string) (su : startup)
        (ticks : list tick) (sd : shutdown_env) :
  let r := run_server session cmd su ticks sd in
  let s0 := init_server session cmd su in
  (forall pre post fd payload ok,
      events_of r = pre ++ ESend fd MSG_EXIT payload ok :: post ->
      length payload = 1%nat
      /\ (forall fd' ty p o, In (ESend fd' ty p o) post -> ty = MSG_EXIT)
      /\ (accepts_fresh ticks s0 ->
          forall ty p o, ~ In (ESend fd ty p o) post))
  /\ (forall rc,
        value_of r = Some rc ->
        exists before after,
          events_of r = before ++ after
          /\ Forall data_only before
          /\ Forall exit_only after
          /\ sent_to after = rev (attached (state_of (event_loop ticks s0)))).
Proof.
  intros r s0.
  destruct (run_server_shape session cmd su ticks sd)
    as (before & after & Hev & Hbefore & Hafter & Hsent).
  fold r s0 in Hev, Hsent. split.
  - intros pre post fd payload ok Htr. rewrite Hev in Htr.
    assert (Hnot : ~ data_only (ESend fd MSG_EXIT payload ok))
      by (unfold data_only, MSG_EXIT, MSG_DATA; lia).
    destruct (split_in_second data_only before after pre post _ Hbefore
                Hnot Htr) as (pre2 & Hafter2).
    rewrite Hafter2 in Hafter. apply Forall_app in Hafter as [_ Hafter].
    apply Forall_cons in Hafter as [[_ Hlen] Hpost].
    split; [exact Hlen|]. split.
    + intros fd' ty p o Hin. rewrite Forall_forall in Hpost.
      apply list_elem_of_In in Hin. now destruct (Hpost _ Hin).
    + intros Hfresh ty p o Hin.
      assert (Hnd : List.NoDup (sent_to after)).
      { destruct (value_of r).
        - rewrite Hsent. apply List.NoDup_rev, NoDup_ListNoDup.
          destruct (init_server_table session cmd su) as [Hok0 Hatt0].
          fold s0 in Hok0, Hatt0.
          assert (H0 : table_above NoDup 0 s0).
          { split; [exact Hok0 | split; [lia|]]. rewrite Hatt0. constructor. }
          now destruct (event_loop_nodup ticks s0 Hfresh H0) as (_ & _ & ?).
        - rewrite Hsent. constructor. }
      rewrite Hafter2, sent_to_app in Hnd. cbn in Hnd.
      apply List.NoDup_remove_2 in Hnd. apply Hnd.
      apply in_or_app. right. now apply (sent_to_In post fd ty p o).
  - intros rc Hrc. rewrite Hrc in Hsent. now exists before, after.
Qed.

(** Two clients attach, the shell prints "hi", the daemon is told to
    terminate and the child exits with status 0 on SIGHUP. *)
Lemma exit_frame_is_last_witness :
  let hello := Some (Wire.Frame MSG_HELLO [0; 80; 0; 24] 4) in
  let quiet := mkRevents false false in
  let join fd := mkTick [] PollReady true fd hello quiet (PtyRead [])
                        (fun _ => true) (fun _ => quiet) (fun _ => None) [] in
  let print := mkTick [] PollReady false (-1) None (mkRevents true false)
                      (PtyRead [104; 105]) (fun _ => true) (fun _ => quiet)
                      (fun _ => None) [SigTerm] in
  let sd := mkShutdown (WaitReaped (status_of_exit 0)) WaitNone WaitNone 0
                       (fun _ => true) in
  let r := run_server "s" "" (mkStartup 3 1234 4 0 (fun _ => 0))
                      [join 5; join 6; print] sd in
  value_of r = Some 0
  /\ sent_to (events_of r) = [6; 5; 6; 5]
  /\ forall ty p o,
      ~ In (ESend 6 ty p o)
           [ESend 5 MSG_EXIT [0] true; EClose 5; EClose 6; EClose 4; EClose 3;
            ECleanupSessionFiles "s"].
Proof.
  intros hello quiet join print sd r.
  split; [reflexivity|]. split; [reflexivity|].
  assert (Hfresh : accepts_fresh [join 5; join 6; print]
                     (init_server "s" "" (mkStartup 3 1234 4 0 (fun _ => 0)))).
  { cbn. intros _. split; [intros _ _ []|]. intros _ _.
    split; [intros _ _ [H|[]]; discriminate|]. intros _ _.
    split; [intros _ H; discriminate|]. trivial. }
  destruct (exit_frame_is_last "s" "" (mkStartup 3 1234 4 0 (fun _ => 0))
              [join 5; join 6; print] sd) as [Hlast _].
  destruct (Hlast
              [EWritePid "s"; EWriteInfo "s" 0 0 "bash";
               ESetRecvTimeout 5 2; EWinsize 80 24; ESetRecvTimeout 5 30;
               EWriteInfo "s" 1 0 "bash";
               ESetRecvTimeout 6 2; EWinsize 80 24; ESetRecvTimeout 6 30;
               EWriteInfo "s" 2 0 "bash";
               ESend 6 MSG_DATA [104; 105] true;
               ESend 5 MSG_DATA [104; 105] true;
               EKill 1234 SIGHUP; EUsleep 50000; EWaitpid 1234 true]
              [ESend 5 MSG_EXIT [0] true; EClose 5; EClose 6; EClose 4;
               EClose 3; ECleanupSessionFiles "s"]
              6 [0] true eq_refl) as (_ & _ & Hnone).
  exact (Hnone Hfresh).
Defined.

End DaemonFacts.

(** ** More on the byte streams and the codec *)

Section StreamFacts.
Import Wire Stream.

Lemma read_all_some (chan : channel) :
  forall (len : nat) (bs : list byte) (c : channel),
    read_all chan len = Some (bs, c) ->
    length bs = len /\ chan_bytes chan = bs ++ chan_bytes c.
Proof.
  induction chan as [|ev chan IH]; intros len bs c Hread.
  - destruct len; cbn in Hread; [|discriminate].
    injection Hread as <- <-. now split.
  - destruct len as [|n].
    { cbn in Hread. injection Hread as <- <-. now split. }
    destruct ev as [chunk| |].
    + destruct (decide (chunk = [])) as [->|Hne]; [discriminate|].
      rewrite read_all_chunk in Hread by (assumption || lia).
      destruct (Nat.leb_spec (length chunk) (S n)) as [Hle|Hgt].
      * destruct (read_all chan (S n - length chunk)) as [[r c']|] eqn:E;
          [|discriminate].
        injection Hread as <- <-. destruct (IH _ _ _ E) as [Hl Hb].
        split; [rewrite length_app; lia|].
        cbn [chan_bytes]. now rewrite Hb, app_assoc.
      * injection Hread as <- <-. split; [rewrite length_take; lia|].
        cbn [chan_bytes]. now rewrite app_assoc, take_drop.
    + cbn [read_all] in Hread. destruct (IH _ _ _ Hread) as [Hl Hb].
      split; [exact Hl | exact Hb].
    + discriminate.
Qed.

(** X1: a [read_all] that succeeds returns exactly [len] bytes, they
    are the next bytes of the stream, and the rest of the stream is
    left in the channel: nothing is lost, repeated or reordered. *)
Theorem read_all_exact (chan : channel) (len : nat) (bs : list byte)
        (c : channel) :
  read_all chan len = Some (bs, c) ->
  length bs = len /\ chan_bytes chan = bs ++ chan_bytes c.
Proof. apply read_all_some. Qed.

Lemma read_all_exact_witness :
  length [1; 0; 0] = 3%nat
  /\ chan_bytes [RdChunk [1; 0]; RdEINTR; RdChunk [0; 0; 3]]
     = [1; 0; 0] ++ chan_bytes [RdChunk [0; 3]].
Proof.
  apply (read_all_exact [RdChunk [1; 0]; RdEINTR; RdChunk [0; 0; 3]] 3).
  reflexivity.
Defined.

(** What reaches the descriptor under [write_all] is a prefix of the
    buffer, and all of it exactly when [write_all] returns true. *)
Lemma write_all_prefix (script : list write_result) :
  forall (buf w : list byte) (ok : bool) (s : list write_result),
    write_all script buf = (ok, w, s) ->
    exists rest, buf = w ++ rest /\ (ok = true <-> rest = []).
Proof.
  induction script as [|r script IH]; intros buf w ok s Hw.
  - destruct buf as [|b buf]; cbn in Hw; injection Hw as <- <- <-.
    + exists []. now split.
    + exists (b :: buf). split; [reflexivity|]. split; discriminate.
  - destruct buf as [|b buf].
    { cbn in Hw. injection Hw as <- <- <-. exists []. now split. }
    destruct r as [n| |pr|]; cbn [write_all] in Hw.
    + destruct (write_all script (drop (Nat.min n (length (b :: buf))) (b :: buf)))
        as [[ok' w'] s'] eqn:E.
      injection Hw as <- <- <-.
      destruct (IH _ _ _ _ E) as (rest & Hrest & Hok).
      exists rest. split; [|exact Hok].
      rewrite <- app_assoc, <- Hrest. now rewrite take_drop.
    + eapply IH; exact Hw.
    + destruct (pr <=? 0); [|eapply IH; exact Hw].
      injection Hw as <- <- <-. exists (b :: buf).
      split; [reflexivity|]. split; discriminate.
    + injection Hw as <- <- <-. exists (b :: buf).
      split; [reflexivity|]. split; discriminate.
Qed.

(** X2: whatever the writes do, the bytes [send_msg] puts on the
    descriptor are a prefix of the frame (header, then the first [len]
    bytes of the buffer), and [send_msg] returns true exactly when the
    whole frame was written. *)
Theorem send_msg_writes_prefix (script s : list write_result)
        (ty : MsgType) (data w : list byte) (len : Z) (ok : bool) :
  0 <= len ->
  send_msg script ty data len = (ok, w, s) ->
  exists rest,
    frame_header ty len ++ take (Z.to_nat len) data = w ++ rest
    /\ (ok = true <-> rest = []).
Proof.
  intros Hlen. unfold send_msg.
  destruct (write_all script (frame_header ty len)) as [[ok1 w1] s1] eqn:E1.
  destruct (write_all_prefix _ _ _ _ _ E1) as (r1 & Hr1 & Hok1).
  destruct ok1; cbn [negb].
  - assert (r1 = []) as -> by now apply Hok1.
    rewrite app_nil_r in Hr1. subst w1.
    destruct (Z.ltb_spec 0 len) as [Hpos|Hzero].
    + destruct (write_all s1 (take (Z.to_nat len) data))
        as [[ok2 w2] s2] eqn:E2.
      destruct (write_all_prefix _ _ _ _ _ E2) as (r2 & Hr2 & Hok2).
      destruct ok2; cbn [negb]; intros [= <- <- <-];
        exists r2; (split; [now rewrite Hr2, app_assoc | exact Hok2]).
    + intros [= <- <- <-]. exists [].
      replace (Z.to_nat len) with 0%nat by lia. now rewrite take_0.
  - intros [= <- <- <-]. exists (r1 ++ take (Z.to_nat len) data).
    split; [now rewrite Hr1, app_assoc|].
    split; [discriminate|]. intros H. apply app_eq_nil in H as [-> _].
    now apply Hok1.
Qed.

(** The header written, the payload cut after one of its two bytes. *)
Lemma send_msg_writes_prefix_witness :
  exists rest,
    frame_header MSG_DATA 2 ++ take (Z.to_nat 2) [104; 105]
    = [1; 0; 0; 0; 2; 104] ++ rest
    /\ (false = true <-> rest = []).
Proof.
  apply (send_msg_writes_prefix [WrBytes 5; WrBytes 1; WrError] []
           MSG_DATA [104; 105] _ 2 false); [lia | reflexivity].
Defined.

Lemma header_reencodes (hdr : list byte) :
  length hdr = 5%nat -> Forall is_byte hdr ->
  0 <= header_len hdr
  /\ frame_header (nth 0 hdr 0) (header_len hdr) = hdr.
Proof.
  intros Hlen Hb.
  destruct hdr as [|h0 [|h1 [|h2 [|h3 [|h4 [|? ?]]]]]]; try discriminate.
  repeat match goal with
         | H : Forall _ (_ :: _) |- _ => apply Forall_cons in H as [? H]
         end.
  unfold is_byte in *. unfold header_len, frame_header. cbn [nth].
  assert (Hhigh : forall h i, 0 <= h < 256 -> 8 <= i -> Z.testbit h i = false).
  { intros h i Hh Hi. rewrite <- (Z.mod_small h (2 ^ 8)) by lia.
    apply Z.mod_pow2_bits_high. lia. }
  split.
  - repeat (apply Z.lor_nonneg; split); try lia; apply Z.shiftl_nonneg; lia.
  - rewrite Z.mod_small by lia. f_equal.
    change 0xFF with (Z.ones 8).
    repeat f_equal; Z.bitblast;
      repeat match goal with
             | |- context [Z.testbit ?h ?i] =>
               first [ rewrite (Hhigh h i) by lia
                     | rewrite (Z.testbit_neg_r h i) by lia ]
             end;
      repeat match goal with
             | |- context [Z.testbit ?h ?i] => destruct (Z.testbit h i)
             end; reflexivity.
Qed.

(** What [recv_msg] returns and what it consumed. *)
Lemma recv_msg_some (m : bool) (chan c : channel) (f : frame) :
  Forall is_byte (chan_bytes chan) ->
  recv_msg m chan = Some (f, c) ->
  frame_ok f /\ chan_bytes chan = encode_frame f ++ chan_bytes c.
Proof.
  intros Hbytes. unfold recv_msg.
  destruct (read_all chan 5) as [[hdr chan1]|] eqn:E1; [|discriminate].
  destruct (read_all_some _ _ _ _ E1) as [Hl1 Hb1].
  rewrite Hb1 in Hbytes. apply Forall_app in Hbytes as [Hhdr Hrest].
  destruct (header_reencodes hdr Hl1 Hhdr) as [Hrange Hre].
  assert (Hty : is_byte (nth 0 hdr 0)).
  { destruct hdr as [|h0 ?]; [discriminate|].
    now apply Forall_cons in Hhdr as [? _]. }
  destruct (Z.eqb_spec (header_len hdr) 0) as [Hz|Hnz].
  - intros [= <- <-]. unfold frame_ok, encode_frame.
    cbn [f_type f_data f_len length].
    rewrite Hre, app_nil_r.
    split; [split; [exact Hty | split; lia] | exact Hb1].
  - destruct (Z.ltb_spec (1024 * 1024) (header_len hdr)); [discriminate|].
    destruct (negb m); [discriminate|].
    destruct (read_all chan1 (Z.to_nat (header_len hdr)))
      as [[data chan2]|] eqn:E2; [|discriminate].
    destruct (read_all_some _ _ _ _ E2) as [Hl2 Hb2].
    intros [= <- <-]. unfold frame_ok, encode_frame.
    cbn [f_type f_data f_len].
    rewrite Hre, Hb1, Hb2, <- app_assoc.
    split; [split; [exact Hty | split; lia] | reflexivity].
Qed.

(** X3: a frame that [recv_msg] returns, from a stream of bytes, has a
    type that is a byte and a payload of the length it declares, at
    most 1 MiB; and the bytes taken off the stream are exactly the
    encoding of that frame, the rest being left in the channel. *)
Theorem recv_msg_reencodes (m : bool) (chan c : channel) (f : frame) :
  Forall is_byte (chan_bytes chan) ->
  recv_msg m chan = Some (f, c) ->
  frame_ok f /\ chan_bytes chan = encode_frame f ++ chan_bytes c.
Proof. apply recv_msg_some. Qed.

Lemma recv_msg_reencodes_witness :
  frame_ok (Frame MSG_WINCH [0; 120; 0; 40] 4)
  /\ chan_bytes [RdChunk [2; 0; 0]; RdChunk [0; 4; 0; 120; 0; 40; 3; 0]]
     = encode_frame (Frame MSG_WINCH [0; 120; 0; 40] 4)
       ++ chan_bytes [RdChunk [3; 0]].
Proof.
  apply (recv_msg_reencodes true
           [RdChunk [2; 0; 0]; RdChunk [0; 4; 0; 120; 0; 40; 3; 0]]).
  - cbn. repeat constructor; unfold is_byte; lia.
  - reflexivity.
Defined.

(** One frame read back from a clean channel that starts with its
    encoding. *)
Lemma recv_msg_frame (f : frame) (chan : channel) (rest : list byte) :
  frame_ok f -> chan_clean chan = true ->
  chan_bytes chan = encode_frame f ++ rest ->
  exists c, recv_msg true chan = Some (f, c)
            /\ chan_clean c = true /\ chan_bytes c = rest.
Proof.
  intros (Hty & Hlen & Hmax) Hclean Hbytes.
  destruct f as [ty data len]. cbn [f_type f_data f_len] in *.
  unfold encode_frame in Hbytes. cbn [f_type f_data f_len] in Hbytes.
  rewrite <- app_assoc in Hbytes.
  destruct (read_all_clean chan (frame_header ty len) (data ++ rest)
              Hclean Hbytes) as (chan1 & Hread & Hclean1 & Hbytes1).
  assert (Hdec : header_len (frame_header ty len) = len)
    by (apply header_len_frame_header; lia).
  unfold recv_msg. change (length (frame_header ty len)) with 5%nat in Hread.
  rewrite Hread, Hdec.
  replace (nth 0 (frame_header ty len) 0) with ty
    by (cbn; now rewrite Z.mod_small).
  destruct (Z.eqb_spec len 0) as [Hz|Hnz].
  - assert (data = []) as -> by (destruct data; [reflexivity | cbn in Hlen; lia]).
    exists chan1. now rewrite Hz in *.
  - destruct (Z.ltb_spec (1024 * 1024) len); [lia|]. cbn [negb].
    destruct (read_all_clean chan1 data rest Hclean1 Hbytes1)
      as (chan2 & Hread2 & Hclean2 & Hbytes2).
    rewrite Hlen, Nat2Z.id, Hread2. now exists chan2.
Qed.

(** X4: frames sent one after the other by [send_msg] calls that all
    succeed are returned by as many [recv_msg] calls, one frame per
    call, in the order sent and with their payloads, however the
    stream is cut into writes and reads; the bytes that follow them
    stay in the channel. *)
Theorem frames_stay_in_step (fs : list frame) :
  forall (script : list write_result) (w : list byte) (chan : channel)
         (rest : list byte),
    Forall frame_ok fs ->
    sent fs script w ->
    chan_clean chan = true ->
    chan_bytes chan = w ++ rest ->
    received fs chan rest.
Proof.
  induction fs as [|f fs IH]; intros script w chan rest Hok Hsent Hclean Hb.
  - cbn in *. now subst w.
  - apply Forall_cons in Hok as [Hf Hok].
    destruct Hsent as (w1 & s1 & w2 & Hsend & Hsent & ->).
    destruct Hf as (Hty & Hlen & Hmax). pose proof Hsend as Hw1.
    rewrite Hlen in Hw1. apply send_msg_ok in Hw1.
    rewrite <- Hlen in Hw1. fold (encode_frame f) in Hw1. subst w1.
    rewrite <- app_assoc in Hb.
    destruct (recv_msg_frame f chan (w2 ++ rest)
                (conj Hty (conj Hlen Hmax)) Hclean Hb)
      as (c & Hrecv & Hclean' & Hb').
    exists c. split; [exact Hrecv|]. now apply (IH s1 w2).
Qed.

(** A HELLO and a DATA frame, written and read in odd pieces. *)
Lemma frames_stay_in_step_witness :
  received [Frame MSG_HELLO [0; 80; 0; 24] 4; Frame MSG_DATA [104] 1]
           [RdChunk [5; 0; 0]; RdChunk [0; 4; 0; 80; 0; 24; 1; 0];
            RdEINTR; RdChunk [0; 0; 1; 104; 3]]
           [3].
Proof.
  apply (frames_stay_in_step
           [Frame MSG_HELLO [0; 80; 0; 24] 4; Frame MSG_DATA [104] 1]
           [WrBytes 2; WrBytes 3; WrEINTR; WrBytes 4; WrBytes 5; WrBytes 1]
           [5; 0; 0; 0; 4; 0; 80; 0; 24; 1; 0; 0; 0; 1; 104]).
  - repeat constructor; cbn; unfold is_byte, MSG_HELLO, MSG_DATA; lia.
  - cbn. eexists _, _, _. split; [reflexivity|]. split; [|reflexivity].
    eexists _, _, _. split; [reflexivity|]. split; reflexivity.
  - reflexivity.
  - reflexivity.
Defined.

End StreamFacts.

(** * The client and the daemon, end to end *)

Section LinkFacts.
Import Sys Wire Server Client Link.

Lemma be16_pair (x : Z) :
  0 <= x < 65536 ->
  Z.lor (Z.shiftl (Z.land (Z.shiftr x 8) 0xFF) 8) (Z.land x 0xFF) mod 65536
  = x.
Proof.
  intros Hx.
  assert (E : Z.lor (Z.shiftl (Z.land (Z.shiftr x 8) 0xFF) 8) (Z.land x 0xFF)
              = x).
  { assert (Hhigh : forall i, 16 <= i -> Z.testbit x i = false).
    { intros i Hi. rewrite <- (Z.mod_small x (2 ^ 16)) by lia.
      apply Z.mod_pow2_bits_high. lia. }
    change 0xFF with (Z.ones 8).
    Z.bitblast;
      repeat match goal with
             | |- context [Z.testbit ?h ?i] =>
               first [ rewrite (Hhigh i) by lia
                     | rewrite (Z.testbit_neg_r h i) by lia ]
             end;
      repeat match goal with
             | |- context [Z.testbit ?h ?i] => destruct (Z.testbit h i)
             end; reflexivity. }
  rewrite E. apply Z.mod_small. lia.
Qed.

Lemma be16_winsize (cols rows : Z) :
  0 <= cols < 65536 -> 0 <= rows < 65536 ->
  be16 (winsize_payload cols rows) 0 = cols
  /\ be16 (winsize_payload cols rows) 2 = rows.
Proof.
  intros Hc Hr. unfold be16, winsize_payload. cbn [nth Nat.add].
  now rewrite !be16_pair.
Qed.




(** X6: the handshake, from [cmd_attach] to the client table.  The
    first thing [cmd_attach] does on its socket is to send a HELLO
    frame; when its bytes are what the daemon reads from the accepted
    descriptor [cfd], and the table has room, the daemon admits [cfd]
    as the last attached client, sets the PTY's window to the size the
    client announced, raises the receive timeout from 2 to 30 seconds
    and rewrites the info file with the new count. *)
Theorem hello_handshake (env : attach_env) (session : string)
        (ticks : list ctick) (st : ClientState)
        (script script' : list write_result) (w rest : list byte)
        (chan : channel) (t : tick) (s : ServerState) :
  Names.valid_session_name session = true ->
  0 <= a_sock_fd env ->
  winsize_ok (announced env) ->
  send_msg script MSG_HELLO (hello_payload env) 4 = (true, w, script') ->
  chan_clean chan = true ->
  chan_bytes chan = w ++ rest ->
  t_hello t = option_map fst (recv_msg true chan) ->
  t_listen_in t = true ->
  0 <= t_accept t ->
  table_ok s ->
  num_clients s < MAX_CLIENTS ->
  head (events_of (cmd_attach env session ticks st))
  = Some (CSend MSG_HELLO (hello_payload env))
  /\ accept_phase t s
     = (tt, admitted (t_accept t) s,
        [ESetRecvTimeout (t_accept t) 2;
         EWinsize (fst (announced env)) (snd (announced env));
         ESetRecvTimeout (t_accept t) CLIENT_RECV_TIMEOUT;
         EWriteInfo (name s) (num_clients s + 1) (created s) (command s)])
  /\ attached (admitted (t_accept t) s) = attached s ++ [t_accept t].
Proof.
  intros Hname Hsock Hws Hsend Hclean Hbytes Hhello Hlisten Hacc Htab Hroom.
  assert (Hp : hello_payload env
               = winsize_payload (fst (announced env)) (snd (announced env))).
  { unfold hello_payload, announced.
    now destruct (a_winsize env) as [[c r]|]. }
  assert (Hlen : Z.of_nat (length (hello_payload env)) = 4).
  { rewrite Hp. reflexivity. }
  split; [|split].
  - unfold cmd_attach. rewrite Hname.
    destruct (Z.ltb_spec (a_sock_fd env) 0) as [|_]; [lia|].
    cbn [negb]. unfold hello_payload.
    destruct (a_winsize env) as [[c r]|]; rewrite events_of_bind; reflexivity.
  - rewrite <- Hlen in Hsend. apply send_msg_ok in Hsend. rewrite Hlen in Hsend.
    destruct (recv_msg_frame (Frame MSG_HELLO (hello_payload env) 4)
                chan rest) as (c & Hrecv & _ & _).
    + split; [|split]; cbn [f_type f_data f_len].
      * unfold is_byte, MSG_HELLO. lia.
      * now rewrite Hlen.
      * lia.
    + exact Hclean.
    + rewrite Hbytes, Hsend. reflexivity.
    + rewrite Hrecv in Hhello. cbn in Hhello.
      rewrite accept_phase_run. cbv zeta. rewrite Hlisten, Hhello.
      destruct (Z.leb_spec 0 (t_accept t)) as [_|]; [|lia].
      destruct (Z.leb_spec MAX_CLIENTS (num_clients s)) as [|_]; [lia|].
      cbn [andb f_type f_len f_data]. rewrite Hp.
      destruct Hws as [Hc Hr].
      destruct (be16_winsize _ _ Hc Hr) as [-> ->]. reflexivity.
  - apply attached_admitted; [exact Htab | exact Hroom].
Qed.

Lemma hello_handshake_witness :
  let env := mkAttachEnv 3 (Some (120, 40)) true true true in
  let s := init_server "work" "" (mkStartup 4 100 5 0 (fun _ => 0)) in
  let t := mkTick [] PollReady true 7
                  (Some (Frame MSG_HELLO [0; 120; 0; 40] 4))
                  (mkRevents false false) (PtyRead []) (fun _ => true)
                  (fun _ => mkRevents false false) (fun _ => None) [] in
  head (events_of (cmd_attach env "work" [] client_init))
  = Some (CSend MSG_HELLO (hello_payload env))
  /\ accept_phase t s
     = (tt, admitted 7 s,
        [ESetRecvTimeout 7 2; EWinsize 120 40;
         ESetRecvTimeout 7 CLIENT_RECV_TIMEOUT;
         EWriteInfo "work" 1 0 "bash"])
  /\ attached (admitted 7 s) = [7].
Proof.
  intros env s t.
  apply (hello_handshake env "work" [] client_init
           [WrBytes 5; WrBytes 4] [] [5; 0; 0; 0; 4; 0; 120; 0; 40] []
           [RdChunk [5; 0; 0; 0; 4; 0; 120]; RdChunk [0; 40]] t s).
  - reflexivity.
  - cbn. lia.
  - split; cbn; lia.
  - reflexivity.
  - reflexivity.
  - reflexivity.
  - reflexivity.
  - reflexivity.
  - cbn. lia.
  - split; [cbn; unfold MAX_CLIENTS; lia | reflexivity].
  - cbn. unfold MAX_CLIENTS. lia.
Defined.

End LinkFacts.
(** * Programs and the relations they respect *)

Section RespectFacts.
Context {S E : Type} (Q : S -> list E -> S -> Prop).
Hypothesis Q_refl : forall s, Q s [] s.
Hypothesis Q_trans :
  forall s1 e1 s2 e2 s3, Q s1 e1 s2 -> Q s2 e2 s3 -> Q s1 (e1 ++ e2) s3.

Lemma respects_ret {A} (a : A) : respects Q (mret a).
Proof. intros s. apply Q_refl. Qed.

Lemma respects_get : respects Q get.
Proof. intros s. apply Q_refl. Qed.

Lemma respects_bind {A B} (m : prog S E A) (k : A -> prog S E B) :
  respects Q m -> (forall a, respects Q (k a)) -> respects Q (m ≫= k).
Proof.
  intros Hm Hk s. rewrite bind_run.
  pose proof (Hm s) as H1. destruct (m s) as [[a s1] e1].
  pose proof (Hk a s1) as H2. destruct (k a s1) as [[b s2] e2].
  cbn in *. eapply Q_trans; eassumption.
Qed.

Lemma respects_when (b : bool) (m : prog S E unit) :
  respects Q m -> respects Q (when b m).
Proof. destruct b; [trivial | intros _; apply respects_ret]. Qed.

Lemma respects_down_from (body : Z -> prog S E unit) :
  (forall i, respects Q (body i)) -> forall k, respects Q (down_from k body).
Proof.
  intros Hb. induction k as [|i IH]; cbn [down_from].
  - apply respects_ret.
  - apply respects_bind; [apply Hb | intros _; exact IH].
Qed.

Lemma respects_while {T} (cond : S -> bool) (iter : T -> prog S E ctl) :
  (forall t, respects Q (iter t)) ->
  forall ticks, respects Q (while_loop cond iter ticks).
Proof.
  intros Hstep ticks. induction ticks as [|t ticks IH]; intros s.
  - cbn. destruct (cond s); apply Q_refl.
  - cbn [while_loop]. destruct (cond s); cbn [negb]; [|apply Q_refl].
    pose proof (Hstep t s) as H1.
    destruct (iter t s) as [[c s1] e1]. cbn in H1.
    destruct c; [|exact H1].
    specialize (IH s1).
    destruct (while_loop cond iter ticks s1) as [[b s2] e2]. cbn in *.
    eapply Q_trans; eassumption.
Qed.

End RespectFacts.

(** * The daemon: signals, exit code, clients *)

Section SessionFacts.
Import Sys Server Daemon.

Lemma wexitstatus_range (w : Z) : 0 <= WEXITSTATUS w <= 255.
Proof.
  unfold WEXITSTATUS.
  assert (E : Z.shiftr (Z.land w 0xff00) 8 = Z.land (Z.shiftr w 8) (Z.ones 8)).
  { change 0xff00 with (Z.shiftl (Z.ones 8) 8).
    rewrite Z.shiftr_land, Z.shiftr_shiftl_l by lia. reflexivity. }
  rewrite E, Z.land_ones by lia.
  change (2 ^ 8) with 256.
  pose proof (Z.mod_pos_bound (Z.shiftr w 8) 256 ltac:(lia)). lia.
Qed.

Lemma wtermsig_range (w : Z) : 0 <= WTERMSIG w <= 127.
Proof.
  unfold WTERMSIG. change (Z.land w 0x7f) with (Z.land w (Z.ones 7)).
  rewrite Z.land_ones by lia.
  change (2 ^ 7) with 128.
  pose proof (Z.mod_pos_bound w 128 ltac:(lia)). lia.
Qed.

(** What one handler does to the variables. *)
Lemma handle_confined (sg : signal) (s : ServerState) :
  same_tables s (handle sg s)
  /\ (running (handle sg s) = true -> handle sg s = s)
  /\ (child_pid s <= 0 ->
      child_pid (handle sg s) = child_pid s
      /\ child_exit_code (handle sg s) = child_exit_code s)
  /\ (child_pid (handle sg s) = child_pid s \/ child_pid (handle sg s) = -1)
  /\ (0 <= child_exit_code s <= 255 ->
      0 <= child_exit_code (handle sg s) <= 255).
Proof.
  unfold handle, server_sigchld, server_sigterm, same_tables.
  destruct sg as [w|].
  - destruct (Z.ltb_spec 0 (child_pid s)) as [Hpos|Hneg].
    + destruct w as [|ws|]; cbn.
      * repeat split; intros; cbn in *; try congruence; try lia; auto.
      * pose proof (wexitstatus_range ws). pose proof (wtermsig_range ws).
        destruct (WIFEXITED ws); [|destruct (WIFSIGNALED ws)]; cbn;
          repeat split; intros; cbn in *; try congruence; try lia; auto.
      * repeat split; intros; cbn in *; try congruence; try lia; auto.
    + repeat split; intros; cbn in *; try congruence; try lia; auto.
  - cbn. repeat split; intros; cbn in *; try congruence; try lia; auto.
Qed.

Lemma deliver_state (sgs : list signal) (s : ServerState) :
  deliver sgs s = (tt, fold_left (fun acc sg => handle sg acc) sgs s, []).
Proof. reflexivity. Qed.

(** X7: the signal handlers are confined.  Whatever signals are
    handled, and in whatever order, they change nothing but
    [child_pid], [child_exit_code] and [running]; they never set
    [running] again (if the daemon still runs afterwards, no variable
    has changed); once the child is reaped ([child_pid <= 0]) neither
    its pid nor the recorded exit code changes; and they emit nothing. *)
Theorem handlers_confined (sgs : list signal) (s : ServerState) :
  let s' := state_of (deliver sgs s) in
  events_of (deliver sgs s) = []
  /\ same_tables s s'
  /\ (running s' = true -> s' = s)
  /\ (child_pid s <= 0 ->
      child_pid s' = child_pid s /\ child_exit_code s' = child_exit_code s).
Proof.
  rewrite deliver_state. cbn [state_of events_of fst snd].
  split; [reflexivity|]. revert s.
  induction sgs as [|sg sgs IH]; intros s; cbn [fold_left].
  - unfold same_tables. repeat split; trivial.
  - destruct (handle_confined sg s) as (Ht & Hr & Hc & _ & _).
    destruct (IH (handle sg s)) as (Ht' & Hr' & Hc').
    split; [|split].
    + unfold same_tables in *. intuition congruence.
    + intros Hrun. pose proof (Hr' Hrun) as E. rewrite E in Hrun |- *.
      now apply Hr.
    + intros Hpid. destruct (Hc Hpid) as [E1 E2].
      destruct (Hc' ltac:(lia)) as [E3 E4]. split; congruence.
Qed.

Lemma value_of_bind {S E A B} (m : prog S E A) (k : A -> prog S E B) (s : S) :
  value_of ((m ≫= k) s) = value_of (k (value_of (m s)) (state_of (m s))).
Proof.
  rewrite bind_run. destruct (m s) as [[a s1] e1]. cbn.
  now destruct (k a s1) as [[b s2] e2].
Qed.

Lemma same_session_admitted (cfd : Z) (s : ServerState) :
  same_session s (admitted cfd s).
Proof. unfold same_session. cbn. tauto. Qed.

Lemma accept_phase_session (t : tick) (s : ServerState) :
  same_session s (state_of (accept_phase t s)).
Proof.
  rewrite accept_phase_state.
  destruct (_ && _); [apply same_session_admitted | apply same_session_refl].
Qed.

(** A loop whose body leaves the variables alone or removes a client
    changes nothing but the client table. *)
Lemma down_from_session (body : Z -> M unit) :
  (forall i s, state_of (body i s) = s
               \/ state_of (body i s) = removed i s) ->
  forall k s, same_session s (state_of (down_from k body s)).
Proof.
  intros Hbody. induction k as [|i IH]; intros s.
  - apply same_session_refl.
  - cbn [down_from]. rewrite state_of_bind.
    destruct (Hbody (Z.of_nat i) s) as [-> | ->]; [apply IH|].
    eapply same_session_trans; [apply same_session_removed | apply IH].
Qed.

Lemma server_broadcast_session send_ok ty data (s : ServerState) :
  same_session s (state_of (server_broadcast send_ok ty data s)).
Proof.
  rewrite server_broadcast_run. apply down_from_session.
  apply broadcast_at_table.
Qed.

Lemma client_phase_session (t : tick) (s : ServerState) :
  same_session s (state_of (client_phase t s)).
Proof.
  unfold client_phase. rewrite state_of_bind.
  cbn [get value_of state_of fst snd].
  apply down_from_session, client_at_table.
Qed.

Lemma pty_phase_alive (t : tick) (s : ServerState) :
  pty_alive t = true -> same_session s (state_of (pty_phase t s)).
Proof.
  unfold pty_alive, pty_phase. intros H.
  apply andb_true_iff in H as [Hhup Hin].
  apply negb_true_iff in Hhup. rewrite Hhup, state_of_bind.
  cbn [when mret prog_ret state_of fst snd].
  destruct (pollin (t_pty t)); [|apply same_session_refl].
  cbn [negb orb when] in *.
  destruct (t_pty_read t) as [buf|retry]; rewrite Hin.
  - apply server_broadcast_session.
  - apply same_session_refl.
Qed.

(** At most [running] and the client table change in the PTY part. *)
Lemma pty_phase_child (t : tick) (s : ServerState) :
  same_child s (state_of (pty_phase t s)).
Proof.
  unfold pty_phase. rewrite state_of_bind.
  set (s1 := state_of (when (pollin (t_pty t)) _ s)).
  assert (H1 : same_child s s1).
  { subst s1. destruct (pollin (t_pty t)); [|now split].
    cbn [when]. destruct (t_pty_read t) as [buf|retry].
    - destruct (0 <? length buf)%nat; [|now split].
      destruct (server_broadcast_session (t_send_ok t) MSG_DATA buf s)
        as (_ & _ & _ & Hp & _ & _ & Hc & _). now split.
    - destruct retry; now split. }
  destruct (pollhup_err (t_pty t)); exact H1.
Qed.

(** X9: nothing a client does can stop the session or touch the
    child's bookkeeping.  In a turn in which no signal is handled,
    poll does not fail and the PTY is neither closed nor in error, the
    daemon goes on to the next turn with [running], the child's pid,
    the exit code and the descriptors as they were, whatever the
    clients send or fail to receive and whoever connects: only the
    client table can have changed. *)
Theorem clients_cannot_stop_session (t : tick) (s : ServerState) :
  t_sig_poll t = [] -> t_sig_body t = [] ->
  t_poll t <> PollError ->
  pty_alive t = true ->
  same_session s (state_of (loop_iter t s))
  /\ value_of (loop_iter t s) = Continue.
Proof.
  intros Hs1 Hs2 Hpoll Hpty. unfold loop_iter.
  rewrite Hs1, Hs2, state_of_bind, value_of_bind.
  cbn [deliver modify fold_left value_of state_of fst snd].
  destruct (t_poll t); [|split; [apply same_session_refl | reflexivity]
                        |congruence].
  rewrite !state_of_bind, !value_of_bind.
  cbn [mret prog_ret modify fold_left value_of state_of fst snd].
  split; [|reflexivity].
  eapply same_session_trans; [apply accept_phase_session|].
  eapply same_session_trans; [apply (pty_phase_alive t _ Hpty)|].
  apply client_phase_session.
Qed.

Lemma clients_cannot_stop_session_witness :
  let t := mkTick [] PollReady true 9 None (mkRevents true false)
                  (PtyRead [104; 105]) (fun _ => false)
                  (fun _ => mkRevents true true) (fun _ => None) [] in
  let s := mkServer "work" "bash" 4 100 5 [7; 8; 0] 2 0 0 true in
  same_session s (state_of (loop_iter t s))
  /\ value_of (loop_iter t s) = Continue.
Proof.
  intros t s.
  apply (clients_cannot_stop_session t s);
    [reflexivity | reflexivity | discriminate | reflexivity].
Defined.

(** *** The exit code *)

Lemma deliver_code_ok (sgs : list signal) (s : ServerState) :
  exit_code_ok s -> exit_code_ok (state_of (deliver sgs s)).
Proof.
  rewrite deliver_state. cbn [state_of fst snd]. revert s.
  induction sgs as [|sg sgs IH]; intros s Hs; [exact Hs|].
  cbn [fold_left]. apply IH.
  destruct (handle_confined sg s) as (_ & _ & _ & _ & H). exact (H Hs).
Qed.

Lemma session_child (s s' : ServerState) : same_session s s' -> same_child s s'.
Proof. intros (_ & _ & _ & Hp & _ & _ & Hc & _). now split. Qed.

Lemma loop_iter_code_ok (t : tick) (s : ServerState) :
  exit_code_ok s -> exit_code_ok (state_of (loop_iter t s)).
Proof.
  intros Hs. unfold loop_iter. rewrite state_of_bind.
  pose proof (deliver_code_ok (t_sig_poll t) s Hs) as H1.
  set (s1 := state_of (deliver (t_sig_poll t) s)) in *.
  destruct (t_poll t); [|exact H1|exact H1].
  rewrite !state_of_bind. cbn [mret prog_ret state_of fst snd].
  apply deliver_code_ok.
  destruct (session_child _ _ (accept_phase_session t s1)) as [_ E1].
  destruct (pty_phase_child t (state_of (accept_phase t s1))) as [_ E2].
  destruct (session_child _ _
              (client_phase_session t
                 (state_of (pty_phase t (state_of (accept_phase t s1))))))
    as [_ E3].
  unfold exit_code_ok in *. rewrite E3, E2, E1. exact H1.
Qed.

Lemma shutdown_child_code_ok (sd : shutdown_env) (s : ServerState) :
  exit_code_ok s -> exit_code_ok (state_of (shutdown_child sd s)).
Proof.
  intros Hs. unfold shutdown_child. rewrite state_of_bind.
  cbn [get value_of state_of fst snd].
  destruct (0 <? child_pid s); [|exact Hs].
  unfold exit_code_ok.
  destruct (sd_wait1 sd), (sd_wait2 sd); run_prog; cbn;
    match goal with
    | |- context [if ?b then _ else _] => destruct b
    end; cbn; first [exact Hs | apply wexitstatus_range].
Qed.

Lemma exit_with_no_send (rc : Z) (l : list event) :
  Forall no_send l -> Forall (exit_with rc) l.
Proof.
  intros Hl. eapply Forall_impl; [exact Hl|].
  intros [] H; cbn in *; tauto.
Qed.

(** The value of the shutdown is the byte of its EXIT frames. *)
Lemma shutdown_exit_byte (sd : shutdown_env) (s : ServerState) :
  exit_code_ok s ->
  0 <= value_of (shutdown sd s) <= 255
  /\ Forall (exit_with (value_of (shutdown sd s))) (events_of (shutdown sd s)).
Proof.
  intros Hs. unfold shutdown.
  pose proof (shutdown_child_code_ok sd s Hs) as H1.
  pose proof (shutdown_child_no_send sd s) as Hpre.
  repeat (rewrite ?value_of_bind, ?events_of_bind, ?state_of_bind;
          cbn [get emit mret prog_ret value_of state_of events_of fst snd]).
  set (s1 := state_of (shutdown_child sd s)) in *.
  set (ec := child_exit_code s1 mod 256).
  assert (Hec : ec = child_exit_code s1)
    by (apply Z.mod_small; unfold exit_code_ok in H1; lia).
  destruct (session_child _ _
              (server_broadcast_session (sd_send_ok sd) MSG_EXIT [ec] s1))
    as [_ Hc].
  set (s2 := state_of (server_broadcast (sd_send_ok sd) MSG_EXIT [ec] s1)) in *.
  rewrite Hc. split; [exact H1|].
  repeat (apply Forall_app; split);
    first [ now apply exit_with_no_send
          | apply exit_with_no_send, close_all_no_send
          | apply (emits_broadcast (exit_with (child_exit_code s1)));
            [ intros fd ok; cbn; now rewrite Hec
            | intros; exact I | intros; exact I ]
          | repeat constructor ].
Qed.

Lemma fanout_sends_each session crt cmd send_ok ty data (fds : list Z)
      (fd : Z) :
  In fd fds ->
  forall n,
    exists ok,
      In (ESend fd ty data ok)
         (fanout_events session crt cmd send_ok ty data n fds).
Proof.
  induction fds as [|x fds IH]; intros Hin n; [destruct Hin|].
  cbn [fanout_events]. destruct Hin as [->|Hin].
  - destruct (send_ok fd); eexists; left; reflexivity.
  - destruct (send_ok x).
    + destruct (IH Hin n) as [ok Hok]. exists ok. now right.
    + destruct (IH Hin (n - 1)) as [ok Hok]. exists ok.
      right. right. now right.
Qed.

(** X8: the status [run_server] returns is a byte, and it is the byte
    every EXIT frame of the run carries: whatever happens, a client
    that is sent an EXIT frame is sent, as its one-byte payload, the
    very value the daemon process exits with (0 to 255, so that the
    cut to [uint8_t] loses nothing); and every client attached when
    the loop is left is sent such a frame. *)
Theorem exit_byte_is_return_value (session cmd : string) (su : startup)
        (ticks : list tick) (sd : shutdown_env) (rc : Z) :
  value_of (run_server session cmd su ticks sd) = Some rc ->
  0 <= rc <= 255
  /\ (forall fd p ok,
         In (ESend fd MSG_EXIT p ok)
            (events_of (run_server session cmd su ticks sd)) ->
         p = [rc])
  /\ (forall fd,
         In fd (attached (state_of (event_loop ticks
                                      (init_server session cmd su)))) ->
         exists ok,
           In (ESend fd MSG_EXIT [rc] ok)
              (events_of (run_server session cmd su ticks sd))).
Proof.
  unfold run_server.
  set (s0 := init_server session cmd su).
  assert (H0 : exit_code_ok s0) by (unfold exit_code_ok; cbn; lia).
  pose proof (while_loop_invariant running loop_iter exit_code_ok
                (fun t s H _ => loop_iter_code_ok t s H) ticks s0 H0) as H1.
  pose proof (while_loop_events running loop_iter data_only
                loop_iter_data_only ticks s0) as Hloop.
  pose proof (event_loop_table_ok ticks s0
                (proj1 (init_server_table session cmd su))) as Hok.
  fold (event_loop ticks s0) in H1, Hloop.
  destruct (event_loop ticks s0) as [[exited s1] e1].
  cbn [state_of events_of fst snd] in H1, Hloop, Hok |- *.
  destruct exited; [|discriminate].
  destruct (shutdown_exit_byte sd s1 H1) as [Hrc Hev].
  destruct (shutdown_shape sd s1 Hok)
    as (pre & post & b & n & Hshape & _ & _).
  destruct (shutdown sd s1) as [[rc' s2] e2].
  cbn [value_of events_of fst snd] in *.
  intros [= <-]. split; [exact Hrc|]. split.
  - intros fd p ok Hin.
    apply in_app_or in Hin as [Hin|Hin].
    { destruct Hin as [Hin|[Hin|[]]]; discriminate. }
    apply in_app_or in Hin as [Hin|Hin].
    + apply (proj1 (List.Forall_forall _ _) Hloop) in Hin. cbn in Hin.
      discriminate.
    + apply (proj1 (List.Forall_forall _ _) Hev) in Hin. cbn in Hin.
      apply Hin.
  - intros fd Hfd.
    destruct (fanout_sends_each (name s1) (created s1) (command s1)
                (sd_send_ok sd) MSG_EXIT [b] (rev (attached s1)) fd
                (proj1 (in_rev _ _) Hfd) n) as [ok Hin].
    assert (Hin2 : In (ESend fd MSG_EXIT [b] ok) e2).
    { rewrite Hshape. apply in_or_app. right. apply in_or_app. now left. }
    pose proof (proj1 (List.Forall_forall _ _) Hev _ Hin2) as [_ Hb].
    exists ok. apply in_or_app. right. apply in_or_app. right.
    now rewrite <- Hb.
Qed.

(** A client attaches in the first turn; in the second the child is
    reaped with exit status 3. *)
Lemma exit_byte_is_return_value_witness :
  let ticks :=
      [mkTick [] PollReady true 7
              (Some (Wire.Frame MSG_HELLO [0; 80; 0; 24] 4))
              (mkRevents false false) (PtyRead []) (fun _ => true)
              (fun _ => mkRevents false false) (fun _ => None) [];
       mkTick [SigChld (WaitReaped (status_of_exit 3))] PollEINTR
              false 0 None (mkRevents false false) (PtyRead [])
              (fun _ => true) (fun _ => mkRevents false false)
              (fun _ => None) []] in
  let r := run_server "work" "" (mkStartup 4 100 5 0 (fun _ => 0)) ticks
             (mkShutdown WaitNone WaitNone WaitNone 0 (fun _ => true)) in
  (0 <= 3 <= 255
   /\ (forall fd p ok, In (ESend fd MSG_EXIT p ok) (events_of r) -> p = [3])
   /\ (forall fd,
          In fd (attached (state_of (event_loop ticks
                                       (init_server "work" ""
                                          (mkStartup 4 100 5 0
                                                     (fun _ => 0)))))) ->
          exists ok, In (ESend fd MSG_EXIT [3] ok) (events_of r)))
  /\ sent_to (events_of r) = [7]
  /\ In (ESend 7 MSG_EXIT [3] true) (events_of r).
Proof.
  intros ticks r. split; [|split].
  - apply (exit_byte_is_return_value "work" "" _ ticks _ 3). reflexivity.
  - reflexivity.
  - subst r ticks. cbn. repeat (first [left; reflexivity | right]).
Defined.

(** *** The info file *)

Lemma info_synced_refl (s : ServerState) : info_synced s [] s.
Proof. unfold info_synced. repeat split; trivial. Qed.

Lemma info_for_ext (s s' : ServerState) (e : event) :
  name s' = name s -> command s' = command s -> created s' = created s ->
  info_for s' e -> info_for s e.
Proof. intros Hn Hc Hk. destruct e; cbn; trivial. now rewrite Hn, Hc, Hk. Qed.

Lemma info_synced_trans (s1 : ServerState) (e1 : list event)
      (s2 : ServerState) (e2 : list event) (s3 : ServerState) :
  info_synced s1 e1 s2 -> info_synced s2 e2 s3 ->
  info_synced s1 (e1 ++ e2) s3.
Proof.
  intros (Hn & Hc & Hk & Hf & Hi) (Hn' & Hc' & Hk' & Hf' & Hi').
  unfold info_synced. repeat split; try congruence.
  - apply Forall_app. split; [exact Hf|].
    eapply Forall_impl; [exact Hf'|]. intros e. now apply info_for_ext.
  - now rewrite fold_left_app, Hi.
Qed.

Lemma info_emit (e : event) : no_info e -> respects info_synced (emit e).
Proof.
  intros He s. unfold info_synced. cbn.
  repeat split; trivial; [|now destruct e].
  repeat constructor. now destruct e.
Qed.

Lemma info_modify (f : ServerState -> ServerState) :
  (forall s, name (f s) = name s /\ command (f s) = command s
             /\ created (f s) = created s
             /\ num_clients (f s) = num_clients s) ->
  respects info_synced (modify f).
Proof.
  intros Hf s. destruct (Hf s) as (Hn & Hc & Hk & Hm).
  unfold info_synced. cbn. rewrite Hm. repeat split; trivial.
Qed.

Lemma info_remove (idx : Z) : respects info_synced (server_remove_client idx).
Proof.
  intros s. rewrite server_remove_client_run. unfold info_synced. cbn.
  repeat split; trivial. repeat constructor.
Qed.

Ltac info_tac :=
  repeat first
    [ apply (respects_ret info_synced info_synced_refl)
    | apply (respects_get info_synced info_synced_refl)
    | apply info_remove
    | apply info_emit; exact I
    | apply info_modify; intros ?; cbn; tauto
    | apply (respects_when info_synced info_synced_refl)
    | apply (respects_down_from info_synced info_synced_refl
                                info_synced_trans); intros ?
    | apply (respects_bind info_synced info_synced_trans); [|intros ?]
    | match goal with
      | |- respects _ (if ?b then _ else _) => destruct b
      | |- respects _ (match ?x with _ => _ end) => destruct x
      end ].

Lemma info_deliver (sgs : list signal) : respects info_synced (deliver sgs).
Proof.
  intros s.
  pose proof (handlers_confined sgs s) as H. cbv zeta in H.
  destruct H as (He & (Hn & Hc & _ & _ & _ & Hm & Hk) & _).
  unfold info_synced. rewrite He, Hm. cbn. repeat split; trivial.
Qed.

Lemma info_accept (t : tick) : respects info_synced (accept_phase t).
Proof.
  intros s. rewrite accept_phase_run. cbv zeta. unfold info_synced.
  destruct (t_listen_in t && (0 <=? t_accept t));
    [|cbn; repeat split; trivial].
  destruct (MAX_CLIENTS <=? num_clients s);
    [cbn; repeat split; trivial; repeat constructor|].
  destruct (t_hello t) as [f|];
    [|cbn; repeat split; trivial; repeat constructor].
  destruct ((Wire.f_type f =? MSG_HELLO) && (Wire.f_len f =? 4));
    cbn; repeat split; trivial; repeat constructor.
Qed.

Lemma info_broadcast send_ok ty data :
  respects info_synced (server_broadcast send_ok ty data).
Proof. unfold server_broadcast, broadcast_at. info_tac. Qed.

Lemma info_pty (t : tick) : respects info_synced (pty_phase t).
Proof. unfold pty_phase. info_tac. Qed.

Lemma info_client (t : tick) : respects info_synced (client_phase t).
Proof. unfold client_phase, client_at. info_tac. Qed.

Lemma info_loop_iter (t : tick) : respects info_synced (loop_iter t).
Proof.
  unfold loop_iter.
  apply (respects_bind info_synced info_synced_trans);
    [apply info_deliver | intros _].
  destruct (t_poll t);
    [|apply (respects_ret info_synced info_synced_refl)..].
  apply (respects_bind info_synced info_synced_trans);
    [apply info_accept | intros _].
  apply (respects_bind info_synced info_synced_trans);
    [apply info_pty | intros _].
  apply (respects_bind info_synced info_synced_trans);
    [apply info_client | intros _].
  apply (respects_bind info_synced info_synced_trans);
    [apply info_deliver | intros _].
  apply (respects_ret info_synced info_synced_refl).
Qed.

Lemma info_close_all (fds : list Z) : respects info_synced (close_all fds).
Proof. induction fds; cbn [close_all]; info_tac. exact IHfds. Qed.

Lemma info_shutdown (sd : shutdown_env) : respects info_synced (shutdown sd).
Proof.
  unfold shutdown.
  apply (respects_bind info_synced info_synced_trans);
    [unfold shutdown_child; info_tac | intros _].
  apply (respects_bind info_synced info_synced_trans);
    [apply respects_get, info_synced_refl | intros s1].
  apply (respects_bind info_synced info_synced_trans);
    [apply info_broadcast | intros _].
  apply (respects_bind info_synced info_synced_trans);
    [apply respects_get, info_synced_refl | intros s2].
  apply (respects_bind info_synced info_synced_trans);
    [apply info_close_all | intros _].
  info_tac.
Qed.

(** X10: the info file tracks the client table.  At the end of a run
    of the daemon, and at any point between two turns of its loop, the
    client count of the last [write_info_file] is the number of clients
    attached (every admission and every removal rewrites the file, and
    nothing else changes the count); and every info file written is
    written with the session's name, command and creation time. *)
Theorem info_file_tracks_clients (session cmd : string) (su : startup)
        (ticks : list tick) (sd : shutdown_env) :
  let r := run_server session cmd su ticks sd in
  info_count (events_of r) = Some (num_clients (state_of r))
  /\ Forall (info_for (init_server session cmd su)) (events_of r).
Proof.
  unfold run_server. set (s0 := init_server session cmd su).
  pose proof (respects_while info_synced info_synced_refl info_synced_trans
                running loop_iter info_loop_iter ticks s0) as H1.
  fold (event_loop ticks s0) in H1.
  destruct (event_loop ticks s0) as [[exited s1] e1].
  cbn [state_of events_of fst snd] in H1.
  assert (H0 : info_synced s0 ([EWritePid session;
                                EWriteInfo session 0 (created s0) (command s0)]
                               ++ e1) s1
               /\ info_count ([EWritePid session;
                               EWriteInfo session 0 (created s0) (command s0)]
                              ++ e1) = Some (num_clients s1)).
  { destruct H1 as (Hn & Hc & Hk & Hf & Hi).
    split.
    - unfold info_synced. repeat split; trivial.
      apply Forall_app. split; [|exact Hf]. repeat constructor.
    - unfold info_count. rewrite fold_left_app. exact Hi. }
  destruct H0 as [H0 Hcount].
  destruct exited.
  - pose proof (info_shutdown sd s1) as H2.
    destruct (shutdown sd s1) as [[rc s2] e2].
    cbn [state_of events_of fst snd] in *.
    pose proof (info_synced_trans _ _ _ _ _ H0 H2) as (_ & _ & _ & Hf & _).
    rewrite <- app_assoc in Hf. split; [|exact Hf].
    destruct H2 as (_ & _ & _ & _ & Hi2).
    unfold info_count in *. rewrite app_assoc, fold_left_app, Hcount.
    exact Hi2.
  - cbn [state_of events_of fst snd].
    split; [exact Hcount | apply H0].
Qed.
(** *** Descriptors *)

Lemma closed_by_app (l1 l2 : list event) :
  closed_by (l1 ++ l2) = closed_by l1 ++ closed_by l2.
Proof. apply flat_map_app. Qed.

Lemma closes_ok_refl (s : ServerState) : closes_ok [] s [] s.
Proof.
  intros Hs. repeat split; trivial; try apply Hs.
  cbn. now rewrite app_nil_r.
Qed.

Lemma closes_ok_trans (x1 x2 : list Z) (s1 : ServerState) (e1 : list event)
      (s2 : ServerState) (e2 : list event) (s3 : ServerState) :
  closes_ok x1 s1 e1 s2 -> closes_ok x2 s2 e2 s3 ->
  closes_ok (x1 ++ x2) s1 (e1 ++ e2) s3.
Proof.
  intros H1 H2 Hs.
  destruct (H1 Hs) as (Ht & Hl & Hp & Hn & Hperm).
  destruct (H2 Ht) as (Ht' & Hl' & Hp' & Hn' & Hperm').
  split; [exact Ht'|]. repeat split; try congruence.
  rewrite closed_by_app, <- app_assoc, Hperm', app_assoc, Hperm.
  now rewrite <- app_assoc.
Qed.

Lemma closes_ok_trans0 (s1 : ServerState) (e1 : list event)
      (s2 : ServerState) (e2 : list event) (s3 : ServerState) :
  closes_ok [] s1 e1 s2 -> closes_ok [] s2 e2 s3 ->
  closes_ok [] s1 (e1 ++ e2) s3.
Proof. apply (closes_ok_trans [] []). Qed.

Lemma closes_ok_then (x : list Z) (s1 : ServerState) (e1 : list event)
      (s2 : ServerState) (e2 : list event) (s3 : ServerState) :
  closes_ok x s1 e1 s2 -> closes_ok [] s2 e2 s3 ->
  closes_ok x s1 (e1 ++ e2) s3.
Proof.
  intros H1 H2. rewrite <- (app_nil_r x).
  exact (closes_ok_trans x [] _ _ _ _ _ H1 H2).
Qed.

Lemma closes_ok_same (s s' : ServerState) (e : list event) :
  same_tables s s' -> Forall no_close e -> closes_ok [] s e s'.
Proof.
  intros (Hn & _ & Hp & Hl & Hf & Hm & _) He Hs.
  assert (Hc : closed_by e = []).
  { induction He as [|x l Hx _ IH]; [reflexivity|].
    destruct x; cbn in *; tauto. }
  unfold table_ok, attached in *. rewrite Hf, Hm, Hc, app_nil_r.
  repeat split; trivial; apply Hs.
Qed.

(** [client_at] in closed form: it writes to the PTY, sets the window
    size, removes the client, or does nothing. *)
Lemma client_at_run (t : tick) (i : Z) (s : ServerState) :
  client_at t i s = (tt, s, [])
  \/ (exists d, client_at t i s = (tt, s, [EPtyWrite d]))
  \/ (exists c r, client_at t i s = (tt, s, [EWinsize c r]))
  \/ client_at t i s = server_remove_client i s.
Proof.
  unfold client_at.
  destruct (t_client t i) as [[|] [|]]; cbn [pollin pollhup_err orb when];
    try (right; right; right; reflexivity); try (left; reflexivity);
    rewrite bind_run; cbn [get];
    (destruct (t_recv t (fd_at s i)) as [f|];
     [|right; right; right; rewrite server_remove_client_run; reflexivity]);
    (destruct (Wire.f_type f =? MSG_DATA);
     [destruct (0 <? Wire.f_len f);
      [right; left; eexists; reflexivity | left; reflexivity]|]);
    (destruct (Wire.f_type f =? MSG_WINCH);
     [destruct (Wire.f_len f =? 4);
      [right; right; left; eexists _, _; reflexivity | left; reflexivity]|]);
    (destruct (Wire.f_type f =? MSG_DETACH);
     [right; right; right; rewrite server_remove_client_run; reflexivity
     | left; reflexivity]).
Qed.

(** A loop from index [k - 1] down whose body at [i] closes nothing
    and leaves the variables alone, or closes client [i] and removes
    it. *)
Lemma down_from_closes (body : Z -> M unit) :
  (forall i s,
      (state_of (body i s) = s /\ closed_by (events_of (body i s)) = [])
      \/ (state_of (body i s) = removed i s
          /\ closed_by (events_of (body i s)) = [fd_at s i])) ->
  forall k s,
    (k <= Z.to_nat (num_clients s))%nat ->
    closes_ok [] s (events_of (down_from k body s))
              (state_of (down_from k body s)).
Proof.
  intros Hbody. induction k as [|i IH]; intros s Hk.
  - apply closes_ok_refl.
  - cbn [down_from]. rewrite state_of_bind, events_of_bind.
    apply (closes_ok_trans0 s _ (state_of (body (Z.of_nat i) s))).
    + intros Hs. destruct (Hbody (Z.of_nat i) s) as [[-> ->] | [-> ->]].
      * now apply closes_ok_refl.
      * unfold table_ok, MAX_CLIENTS in *. destruct Hs as [Hn Hlen].
        split; [|repeat split; trivial].
        -- split; cbn; [lia | now rewrite length_insert].
        -- rewrite app_nil_r. cbn [app]. symmetry.
           apply removed_perm; lia.
    + destruct (Hbody (Z.of_nat i) s) as [[-> _] | [-> _]];
        apply IH; cbn; lia.
Qed.

Lemma closes_broadcast send_ok ty data (s : ServerState) :
  closes_ok [] s (events_of (server_broadcast send_ok ty data s))
            (state_of (server_broadcast send_ok ty data s)).
Proof.
  rewrite server_broadcast_run. apply down_from_closes; [|lia].
  intros i s0. rewrite broadcast_at_run.
  destruct (send_ok _); [left | right]; now split.
Qed.

Lemma closes_client (t : tick) (s : ServerState) :
  closes_ok [] s (events_of (client_phase t s)) (state_of (client_phase t s)).
Proof.
  unfold client_phase. rewrite state_of_bind, events_of_bind.
  cbn [get value_of state_of events_of fst snd app].
  apply down_from_closes; [|lia].
  intros i s0.
  destruct (client_at_run t i s0) as [-> | [[d ->] | [(c & r & ->) | ->]]];
    [left | left | left | right]; now split.
Qed.

Lemma closes_deliver (sgs : list signal) (s : ServerState) :
  closes_ok [] s (events_of (deliver sgs s)) (state_of (deliver sgs s)).
Proof.
  pose proof (handlers_confined sgs s) as H. cbv zeta in H.
  destruct H as (He & Ht & _). rewrite He.
  apply closes_ok_same; [exact Ht | constructor].
Qed.

Lemma set_running_tables (s : ServerState) :
  same_tables s (set_running false s).
Proof. unfold same_tables. cbn. tauto. Qed.

Lemma closes_pty (t : tick) (s : ServerState) :
  closes_ok [] s (events_of (pty_phase t s)) (state_of (pty_phase t s)).
Proof.
  unfold pty_phase. rewrite state_of_bind, events_of_bind.
  match goal with
  | |- closes_ok _ _ (events_of ?a ++ _) _ =>
    apply (closes_ok_trans0 s _ (state_of a))
  end.
  - destruct (pollin (t_pty t)); [|apply closes_ok_refl]. cbn [when].
    destruct (t_pty_read t) as [buf|retry].
    + destruct (0 <? length buf)%nat; [apply closes_broadcast|].
      apply closes_ok_same; [apply set_running_tables | constructor].
    + destruct retry; [apply closes_ok_refl|].
      apply closes_ok_same; [apply set_running_tables | constructor].
  - destruct (pollhup_err (t_pty t)); [|apply closes_ok_refl].
    apply closes_ok_same; [apply set_running_tables | constructor].
Qed.

Lemma closes_accept (t : tick) (s : ServerState) :
  closes_ok (if t_listen_in t && (0 <=? t_accept t) then [t_accept t] else [])
            s (events_of (accept_phase t s)) (state_of (accept_phase t s)).
Proof.
  rewrite accept_phase_run. cbv zeta.
  destruct (t_listen_in t && (0 <=? t_accept t)); [|apply closes_ok_refl].
  assert (Hrej : forall ev,
             closed_by ev = [t_accept t] ->
             closes_ok [t_accept t] s ev s).
  { intros ev Hev Hs. rewrite Hev. repeat split; trivial; try apply Hs.
    cbn. apply Permutation_cons_append. }
  destruct (Z.leb_spec MAX_CLIENTS (num_clients s)) as [|Hroom];
    [now apply Hrej|].
  destruct (t_hello t) as [f|]; [|now apply Hrej].
  destruct ((Wire.f_type f =? MSG_HELLO) && (Wire.f_len f =? 4));
    [|now apply Hrej].
  intros Hs. cbn [state_of events_of fst snd closed_by flat_map app].
  rewrite (attached_admitted _ _ Hs Hroom).
  split; [|repeat split; trivial].
  unfold table_ok, MAX_CLIENTS in *. destruct Hs as [Hn Hlen].
  split; cbn; [lia | now rewrite length_insert].
Qed.

Lemma closes_loop_iter (t : tick) (s : ServerState) :
  closes_ok (accepted_at t) s (events_of (loop_iter t s))
            (state_of (loop_iter t s)).
Proof.
  unfold loop_iter, accepted_at. rewrite state_of_bind, events_of_bind.
  apply (closes_ok_trans [] _ _ _ _ _ _ (closes_deliver (t_sig_poll t) s)).
  destruct (t_poll t); [|apply closes_ok_refl..].
  rewrite state_of_bind, events_of_bind.
  apply (closes_ok_then _ _ _ _ _ _ (closes_accept t _)).
  rewrite state_of_bind, events_of_bind.
  apply (closes_ok_trans0 _ _ _ _ _ (closes_pty t _)).
  rewrite state_of_bind, events_of_bind.
  apply (closes_ok_trans0 _ _ _ _ _ (closes_client t _)).
  rewrite state_of_bind, events_of_bind.
  apply (closes_ok_trans0 _ _ _ _ _ (closes_deliver (t_sig_body t) _)).
  apply closes_ok_refl.
Qed.

Lemma closes_event_loop (ticks : list tick) :
  forall s,
    closes_ok (accepted ticks s) s (events_of (event_loop ticks s))
              (state_of (event_loop ticks s)).
Proof.
  unfold event_loop.
  induction ticks as [|t ticks IH]; intros s.
  - cbn. destruct (running s); apply closes_ok_refl.
  - cbn [while_loop accepted].
    destruct (running s); cbn [negb]; [|apply closes_ok_refl].
    pose proof (closes_loop_iter t s) as H1.
    destruct (loop_iter t s) as [[c s1] e1].
    cbn [value_of state_of events_of fst snd] in *.
    destruct c.
    + specialize (IH s1).
      destruct (while_loop running loop_iter ticks s1) as [[b s2] e2].
      cbn [state_of events_of fst snd] in *.
      eapply closes_ok_trans; eassumption.
    + now rewrite app_nil_r.
Qed.

Lemma closed_by_close_all (fds : list Z) (s : ServerState) :
  closed_by (events_of (close_all fds s)) = fds.
Proof.
  revert s. induction fds as [|fd fds IH]; intros s; [reflexivity|].
  cbn [close_all]. rewrite events_of_bind, closed_by_app, IH. reflexivity.
Qed.

Lemma closed_by_no_close (l : list event) :
  Forall no_close l -> closed_by l = [].
Proof.
  induction 1 as [|x l Hx _ IH]; [reflexivity|].
  destruct x; cbn in *; tauto.
Qed.

Lemma shutdown_child_tables (sd : shutdown_env) (s : ServerState) :
  same_tables s (state_of (shutdown_child sd s))
  /\ Forall no_close (events_of (shutdown_child sd s)).
Proof.
  unfold shutdown_child, same_tables. rewrite state_of_bind, events_of_bind.
  cbn [get value_of state_of events_of fst snd app].
  destruct (0 <? child_pid s); [|cbn; repeat split; trivial].
  destruct (sd_wait1 sd), (sd_wait2 sd); run_prog; cbn;
    match goal with
    | |- context [if ?b then _ else _] => destruct b
    end; cbn; repeat split; trivial; repeat constructor.
Qed.

(** What the shutdown closes, and what it ends with. *)
Lemma shutdown_closes (sd : shutdown_env) (s : ServerState) :
  table_ok s ->
  closed_by (events_of (shutdown sd s))
  ≡ₚ attached s ++ [listen_fd s; pty_master s]
  /\ last (events_of (shutdown sd s)) = Some (ECleanupSessionFiles (name s)).
Proof.
  intros Hs. unfold shutdown.
  destruct (shutdown_child_tables sd s) as [Ht Hnc].
  pose proof (closes_ok_same _ _ _ Ht Hnc Hs) as (Ht1 & Hl1 & Hp1 & Hn1 & Hq1).
  rewrite (closed_by_no_close _ Hnc), app_nil_r in Hq1. cbn [app] in Hq1.
  repeat (rewrite ?events_of_bind, ?state_of_bind;
          cbn [get emit mret prog_ret value_of state_of events_of fst snd]).
  set (s1 := state_of (shutdown_child sd s)) in *.
  pose proof (closes_broadcast (sd_send_ok sd) MSG_EXIT
                [child_exit_code s1 mod 256] s1 Ht1)
    as (Ht2 & Hl2 & Hp2 & Hn2 & Hq2).
  set (s2 := state_of (server_broadcast _ _ _ s1)) in *.
  rewrite app_nil_r in Hq2. split.
  - rewrite !closed_by_app, closed_by_close_all,
      (closed_by_no_close _ Hnc).
    cbn [closed_by flat_map app]. rewrite Hl2, Hp2, Hl1, Hp1.
    rewrite app_assoc, Hq2, Hq1. reflexivity.
  - cbn [app]. rewrite !app_assoc.
    change [EClose (listen_fd s2); EClose (pty_master s2);
            ECleanupSessionFiles (name s2)]
      with ([EClose (listen_fd s2); EClose (pty_master s2)]
              ++ [ECleanupSessionFiles (name s2)]).
    rewrite app_assoc, last_snoc. now rewrite Hn2, Hn1.
Qed.

(** X11: no descriptor leaks and none is closed twice.  Over a run of
    the daemon (from its socket bound on) that returns, the
    descriptors it closed are, each exactly once, the descriptors
    [accept] returned along the loop, the listening socket and the
    PTY, and the last thing it does is to remove the session's files.
    While it still runs, every descriptor [accept] returned has been
    closed once or is attached. *)
Theorem descriptors_closed_once (session cmd : string) (su : startup)
        (ticks : list tick) (sd : shutdown_env) :
  let r := run_server session cmd su ticks sd in
  let s0 := init_server session cmd su in
  match value_of r with
  | Some _ =>
    closed_by (events_of r)
    ≡ₚ accepted ticks s0 ++ [su_listen_fd su; su_pty_master su]
    /\ last (events_of r) = Some (ECleanupSessionFiles session)
  | None =>
    closed_by (events_of r) ++ attached (state_of r) ≡ₚ accepted ticks s0
  end.
Proof.
  intros r s0. subst r. unfold run_server. fold s0.
  destruct (init_server_table session cmd su) as [Hok Hatt]. fold s0 in Hok, Hatt.
  pose proof (closes_event_loop ticks s0 Hok) as (Ht1 & Hl1 & Hp1 & Hn1 & Hq1).
  rewrite Hatt in Hq1. cbn [app] in Hq1.
  destruct (event_loop ticks s0) as [[exited s1] e1].
  cbn [state_of events_of fst snd] in *.
  destruct exited.
  - destruct (shutdown_closes sd s1 Ht1) as [Hq2 Hlast].
    destruct (shutdown sd s1) as [[rc s2] e2].
    cbn [value_of state_of events_of fst snd] in *.
    split.
    + rewrite !closed_by_app. cbn [closed_by flat_map app].
      rewrite Hq2, Hl1, Hp1, app_assoc, Hq1. reflexivity.
    + rewrite app_assoc.
      destruct e2 as [|x e2] using rev_ind; [discriminate|].
      rewrite app_assoc, last_snoc. rewrite last_snoc in Hlast.
      now rewrite Hlast, Hn1.
  - cbn [value_of state_of events_of fst snd].
    rewrite closed_by_app. exact Hq1.
Qed.
(** *** Signals to the child *)

Ltac emits_auto :=
  repeat first
    [ apply emits_ret | apply emits_get | apply emits_modify
    | apply emits_emit; exact I
    | apply emits_when
    | apply emits_down_from; intros ?
    | apply emits_bind; [|intros ?]
    | match goal with
      | |- emits _ (if ?b then _ else _) => destruct b
      | |- emits _ (match ?x with _ => _ end) => destruct x
      end ].

Lemma loop_iter_no_kill (t : tick) : emits no_kill (loop_iter t).
Proof.
  unfold loop_iter, deliver, accept_phase, pty_phase, server_broadcast,
    broadcast_at, client_phase, client_at, server_remove_client.
  emits_auto.
Qed.

Lemma kills_no_kill (l : list event) : Forall no_kill l -> kills l = [].
Proof.
  induction 1 as [|x l Hx _ IH]; [reflexivity|].
  destruct x; cbn in *; tauto.
Qed.

Lemma deliver_child_pid (sgs : list signal) (s : ServerState) :
  child_pid (state_of (deliver sgs s)) = child_pid s
  \/ child_pid (state_of (deliver sgs s)) = -1.
Proof.
  rewrite deliver_state. cbn [state_of fst snd]. revert s.
  induction sgs as [|sg sgs IH]; intros s; [now left|].
  cbn [fold_left].
  destruct (handle_confined sg s) as (_ & _ & _ & [E|E] & _),
    (IH (handle sg s)) as [E'|E']; rewrite E'; auto.
Qed.

End SessionFacts.

(** * The attach client: terminal and relay *)

Section RelayFacts.
Import Sys Wire Client Relay.

(** What every turn's events satisfy, for the turn's tick, the events
    of the loop satisfy for some tick of the run. *)
Lemma while_loop_events_in {S E T} (cond : S -> bool)
      (iter : T -> prog S E ctl) (P : T -> E -> Prop) :
  (forall t s, Forall (P t) (events_of (iter t s))) ->
  forall ticks s,
    Forall (fun e => exists t, In t ticks /\ P t e)
           (events_of (while_loop cond iter ticks s)).
Proof.
  intros Hstep ticks. induction ticks as [|t ticks IH]; intros s.
  - cbn. destruct (cond s); constructor.
  - cbn [while_loop]. destruct (cond s); cbn [negb]; [|constructor].
    pose proof (Hstep t s) as H1.
    assert (H1' : Forall (fun e => exists t', In t' (t :: ticks) /\ P t' e)
                         (events_of (iter t s))).
    { eapply Forall_impl; [exact H1|]. intros e He. exists t.
      split; [now left | exact He]. }
    destruct (iter t s) as [[c s1] e1]. cbn in H1'.
    destruct c; [|exact H1'].
    specialize (IH s1).
    destruct (while_loop cond iter ticks s1) as [[b s2] e2]. cbn in *.
    apply Forall_app. split; [exact H1'|].
    eapply Forall_impl; [exact IH|]. intros e (t' & Hin & He).
    exists t'. split; [now right | exact He].
Qed.

(** *** The terminal *)

Lemma term_step_none (evs : list cevent) : fold_left term_step evs None = None.
Proof. induction evs as [|e evs IH]; [reflexivity | exact IH]. Qed.

Lemma term_after_app (raw : bool) (e1 e2 : list cevent) :
  term_after raw (e1 ++ e2)
  = match term_after raw e1 with
    | Some r => term_after r e2
    | None => None
    end.
Proof.
  unfold term_after. rewrite fold_left_app.
  destruct (fold_left term_step e1 (Some raw)); [reflexivity|].
  apply term_step_none.
Qed.

Lemma term_tracked_refl (s : ClientState) : term_tracked s [] s.
Proof. reflexivity. Qed.

Lemma term_tracked_trans (s1 : ClientState) (e1 : list cevent)
      (s2 : ClientState) (e2 : list cevent) (s3 : ClientState) :
  term_tracked s1 e1 s2 -> term_tracked s2 e2 s3 ->
  term_tracked s1 (e1 ++ e2) s3.
Proof.
  unfold term_tracked. intros H1 H2. now rewrite term_after_app, H1.
Qed.

Lemma term_emit (e : cevent) :
  e <> CTermRaw -> e <> CTermRestore -> respects term_tracked (emit e).
Proof.
  intros H1 H2 s. unfold term_tracked, term_after. cbn.
  destruct (termios_saved s), e; congruence.
Qed.

Lemma term_modify (f : ClientState -> ClientState) :
  (forall s, termios_saved (f s) = termios_saved s) ->
  respects term_tracked (modify f).
Proof. intros Hf s. unfold term_tracked. cbn. now rewrite Hf. Qed.

Lemma term_term_restore : respects term_tracked term_restore.
Proof.
  intros s. unfold term_tracked, term_restore. run_prog. cbn.
  destruct s as [ec run [|] gw]; reflexivity.
Qed.

Lemma term_scan_detach (name : string) (buf : list byte) :
  respects term_tracked (scan_detach name buf).
Proof.
  intros s. rewrite scan_detach_run. unfold term_tracked.
  destruct (has_detach_key buf); [|reflexivity].
  destruct s as [ec run [|] gw]; reflexivity.
Qed.

Ltac term_tac :=
  repeat first
    [ apply (respects_ret term_tracked term_tracked_refl)
    | apply (respects_get term_tracked term_tracked_refl)
    | apply term_scan_detach
    | apply term_term_restore
    | apply term_emit; discriminate
    | apply term_modify; intros ?; reflexivity
    | apply (respects_when term_tracked term_tracked_refl)
    | apply (respects_bind term_tracked term_tracked_trans); [|intros ?]
    | match goal with
      | |- respects _ (if ?b then _ else _) => destruct b
      | |- respects _ (match ?x with _ => _ end) => destruct x
      | |- respects _ (let '(_, _) := ?x in _) => destruct x
      end ].

Lemma term_attach_iter (name : string) (t : ctick) :
  respects term_tracked (attach_iter name t).
Proof.
  unfold attach_iter, take_winch, send_window_size, stdin_phase, dispatch,
    hup_check.
  term_tac.
Qed.

(** X13: the terminal is left as it was found.  [cmd_attach], entered
    with no settings saved, never sets raw mode on a terminal it has
    already made raw and restores the settings only while in raw
    mode; [termios_saved] tells at every point whether the terminal is
    raw; and on every path on which [cmd_attach] returns, the error
    paths and the detach included, the terminal is not raw and nothing
    is left to restore. *)
Theorem terminal_restored_on_return (env : attach_env) (name : string)
        (ticks : list ctick) (st : ClientState) :
  termios_saved st = false ->
  let r := cmd_attach env name ticks st in
  term_after false (events_of r) = Some (termios_saved (state_of r))
  /\ (value_of r <> None -> termios_saved (state_of r) = false).
Proof.
  intros Hst r. subst r.
  destruct (Names.valid_session_name name) eqn:Hname.
  2:{ unfold cmd_attach. rewrite Hname.
      destruct st as [ec run saved gw]. cbn in *. subst saved. now split. }
  destruct (Z.ltb_spec (a_sock_fd env) 0) as [Hneg|Hsock].
  { unfold cmd_attach. rewrite Hname.
    destruct (Z.ltb_spec (a_sock_fd env) 0) as [_|]; [|lia].
    destruct st as [ec run saved gw]. cbn in *. subst saved. now split. }
  destruct (a_hello_ok env) eqn:Hhello.
  2:{ unfold cmd_attach. rewrite Hname, Hhello.
      destruct (Z.ltb_spec (a_sock_fd env) 0) as [|_]; [lia|].
      destruct st as [ec run saved gw]. cbn in Hst. subst saved.
      destruct (a_winsize env) as [[c w]|]; cbn; now split. }
  rewrite (cmd_attach_run env name ticks st Hname Hsock Hhello). cbv zeta.
  pose proof (respects_while term_tracked term_tracked_refl
                term_tracked_trans running (attach_iter name)
                (term_attach_iter name) ticks (loop_entry env st)) as Hloop.
  fold (attach_loop name ticks) in Hloop. unfold term_tracked in Hloop.
  assert (Hsetup : term_after false (setup_events env)
                   = Some (termios_saved (loop_entry env st))).
  { unfold setup_events, loop_entry.
    destruct (a_isatty env && a_tcgetattr_ok env); cbn; [reflexivity|].
    now rewrite Hst. }
  destruct (attach_loop name ticks (loop_entry env st)) as [[exited s1] e1].
  cbn [value_of state_of events_of fst snd] in *.
  destruct exited; cbn [value_of state_of events_of fst snd].
  - rewrite term_after_app, Hsetup. cbv beta iota.
    rewrite term_after_app, Hloop. split; [|reflexivity].
    destruct (termios_saved s1); reflexivity.
  - rewrite term_after_app, Hsetup. cbv beta iota. rewrite Hloop.
    split; [reflexivity | congruence].
Qed.

Lemma terminal_restored_on_return_witness :
  let r := cmd_attach (mkAttachEnv 3 (Some (80, 24)) true true true) "work"
             [mkCtick false PollReady None true (StdinRead [97; 28]) true
                      (mkRevents false false) None]
             client_init in
  term_after false (events_of r) = Some (termios_saved (state_of r))
  /\ (value_of r <> None -> termios_saved (state_of r) = false).
Proof.
  apply (terminal_restored_on_return _ "work" _ client_init). reflexivity.
Defined.

(** *** The relay *)

Lemma relay_scan_detach (t : ctick) (name : string) (buf : list byte)
      (s : ClientState) :
  Forall (relay_at t) (events_of (scan_detach name buf s)).
Proof.
  rewrite scan_detach_run. destruct (has_detach_key buf); [|constructor].
  cbn. constructor; [cbn; right; left; now split|].
  destruct (termios_saved s); repeat constructor.
Qed.

Lemma relay_take_winch (t : ctick) (s : ClientState) :
  Forall (relay_at t) (events_of (take_winch t s)).
Proof.
  unfold take_winch, send_window_size. rewrite events_of_bind.
  cbn [get value_of state_of events_of fst snd app].
  destruct (got_winch s); [|constructor]. cbn [when].
  rewrite events_of_bind. cbn [modify events_of snd app].
  destruct (k_winsize t) as [[c r]|]; [|constructor].
  repeat constructor.
Qed.

Lemma relay_stdin_phase (name : string) (t : ctick) (s : ClientState) :
  Forall (relay_at t) (events_of (stdin_phase name t s)).
Proof.
  unfold stdin_phase.
  destruct (k_stdin_in t) eqn:Hin; [|constructor]. cbn [when].
  destruct (k_read t) as [buf|] eqn:Hread; [|constructor].
  destruct (0 <? length buf)%nat eqn:Hlen; [|constructor].
  rewrite events_of_bind. apply Forall_app.
  split; [apply relay_scan_detach|].
  rewrite scan_detach_run.
  destruct (has_detach_key buf) eqn:Hkey;
    cbn [value_of state_of fst snd]; rewrite events_of_bind;
    cbn [get value_of state_of events_of fst snd app negb andb when];
    [constructor|].
  destruct (running s); [|constructor]. cbn [when].
  rewrite events_of_bind. cbn [emit events_of value_of state_of fst snd].
  apply Forall_app. split.
  - constructor; [|constructor]. cbn. right. right.
    repeat split; trivial. intros ->. discriminate.
  - destruct (k_send_ok t); constructor.
Qed.

Lemma relay_dispatch (t : ctick) (f : frame) (s : ClientState) :
  k_recv t = Some f ->
  Forall (relay_at t) (events_of (dispatch f s)).
Proof.
  intros Hrecv. unfold dispatch.
  destruct (f_type f =? MSG_DATA) eqn:Hty.
  - destruct (Z.ltb_spec 0 (f_len f)) as [Hlen|]; [|constructor].
    constructor; [|constructor]. cbn. exists f. apply Z.eqb_eq in Hty.
    now repeat split.
  - destruct (f_type f =? MSG_EXIT); [|constructor].
    rewrite events_of_bind.
    destruct (1 <=? f_len f); constructor.
Qed.

Lemma relay_hup_check (t : ctick) (s : ClientState) :
  Forall (relay_at t) (events_of (hup_check t s)).
Proof. unfold hup_check. destruct (pollhup_err (k_sock t)); constructor. Qed.

Lemma relay_attach_iter (name : string) (t : ctick) (s : ClientState) :
  Forall (relay_at t) (events_of (attach_iter name t s)).
Proof.
  unfold attach_iter. rewrite events_of_bind.
  apply Forall_app. split; [destruct (k_winch t); constructor|].
  destruct (k_poll t).
  - rewrite events_of_bind. apply Forall_app.
    split; [apply relay_take_winch|].
    rewrite events_of_bind. apply Forall_app.
    split; [apply relay_stdin_phase|].
    rewrite events_of_bind. cbn [get value_of state_of events_of fst snd app].
    match goal with
    | |- context [if ?b then _ else _] => destruct b
    end.
    + destruct (k_recv t) as [f|] eqn:Hrecv.
      * rewrite events_of_bind. apply Forall_app.
        split; [now apply relay_dispatch|].
        rewrite events_of_bind. apply Forall_app.
        split; [apply relay_hup_check | constructor].
      * rewrite events_of_bind. constructor.
    + rewrite events_of_bind. apply Forall_app.
      split; [apply relay_hup_check | constructor].
  - rewrite events_of_bind. apply Forall_app.
    split; [apply relay_take_winch | constructor].
  - constructor.
Qed.

(** X14: the client relays and adds nothing.  Every DATA frame
    [cmd_attach] sends carries a chunk that some turn read from
    standard input, whole, not empty and without the detach key; all
    it writes to standard output is the payload of a non-empty DATA
    frame that some turn received; and besides DATA frames it sends
    only its HELLO, WINCH frames and empty DETACH frames. *)
Theorem client_relays_faithfully (env : attach_env) (name : string)
        (ticks : list ctick) (st : ClientState) :
  Forall (relayed ticks) (events_of (cmd_attach env name ticks st)).
Proof.
  assert (Hloop : forall s,
             Forall (relayed ticks) (events_of (attach_loop name ticks s))).
  { intros s.
    pose proof (while_loop_events_in running (attach_iter name) relay_at
                  (relay_attach_iter name) ticks s) as H.
    eapply Forall_impl; [exact H|].
    intros e (t & Hin & He). destruct e; cbn; trivial.
    - right. now exists t.
    - now exists t. }
  destruct (Names.valid_session_name name) eqn:Hname.
  2:{ unfold cmd_attach. rewrite Hname. repeat constructor. }
  destruct (Z.ltb_spec (a_sock_fd env) 0) as [Hneg|Hsock].
  { unfold cmd_attach. rewrite Hname.
    destruct (Z.ltb_spec (a_sock_fd env) 0) as [_|]; [|lia].
    repeat constructor. }
  destruct (a_hello_ok env) eqn:Hhello.
  2:{ unfold cmd_attach. rewrite Hname, Hhello.
      destruct (Z.ltb_spec (a_sock_fd env) 0) as [|_]; [lia|].
      destruct (a_winsize env) as [[c w]|]; cbn;
        repeat constructor; now left. }
  rewrite (cmd_attach_run env name ticks st Hname Hsock Hhello). cbv zeta.
  specialize (Hloop (loop_entry env st)).
  destruct (attach_loop name ticks (loop_entry env st)) as [[exited s1] e1].
  cbn [value_of state_of events_of fst snd] in *.
  assert (Hsetup : Forall (relayed ticks) (setup_events env)).
  { unfold setup_events. constructor; [now left|].
    destruct (a_isatty env && a_tcgetattr_ok env); repeat constructor. }
  destruct exited; cbn [events_of snd];
    repeat (apply Forall_app; split); trivial.
  - destruct (termios_saved s1); repeat constructor.
  - repeat constructor.
Qed.

End RelayFacts.
(** * The commands [kill], [create] and [open] *)

Section CommandFacts.
Import Sys Commands Effects.

















End CommandFacts.

(** * Paths, JSON strings, directory entries, arguments *)

Section RegistryFacts.
Import Registry.

(** *** JSON strings *)

Lemma append_two (a b : ascii) (s : string) :
  String.append (String a (String b EmptyString)) s = String a (String b s).
Proof. reflexivity. Qed.

Lemma append_one (a : ascii) (s : string) :
  String.append (String a EmptyString) s = String a s.
Proof. reflexivity. Qed.

Lemma json_escape_char_cases (c : ascii) :
  (escaped c = true /\ exists d, escape_char c = String BACKSLASH (String d EmptyString)
                                 /\ unescape_char d = c
                                 /\ (Ascii.eqb d QUOTE || Ascii.eqb d BACKSLASH
                                     || Ascii.eqb d "n" || Ascii.eqb d "r"
                                     || Ascii.eqb d "t") = true)
  \/ (escaped c = false /\ escape_char c = String c EmptyString).
Proof.
  unfold escaped, escape_char.
  destruct (Ascii.eqb_spec c QUOTE) as [->|H1];
    [left; split; [reflexivity|]; eexists; repeat split|].
  destruct (Ascii.eqb_spec c BACKSLASH) as [->|H2];
    [left; split; [reflexivity|]; eexists; repeat split|].
  destruct (Ascii.eqb_spec c NL) as [->|H3];
    [left; split; [reflexivity|]; eexists; repeat split|].
  destruct (Ascii.eqb_spec c CR) as [->|H4];
    [left; split; [reflexivity|]; eexists; repeat split|].
  destruct (Ascii.eqb_spec c TAB) as [->|H5];
    [left; split; [reflexivity|]; eexists; repeat split|].
  right. now split.
Qed.

Lemma json_unescape_escape (s : string) : json_unescape (json_escape s) = s.
Proof.
  induction s as [|c s IH]; [reflexivity|].
  cbn [json_escape].
  destruct (json_escape_char_cases c) as [(_ & d & -> & Hd & _) | (Hc & ->)].
  - rewrite append_two. cbn [json_unescape]. rewrite Ascii.eqb_refl.
    now rewrite Hd, IH.
  - rewrite append_one. cbn [json_unescape].
    assert (Hb : Ascii.eqb c BACKSLASH = false).
    { unfold escaped in Hc. apply orb_false_iff in Hc as [Hc _].
      apply orb_false_iff in Hc as [Hc _].
      apply orb_false_iff in Hc as [Hc _].
      now apply orb_false_iff in Hc as [_ Hc]. }
    now rewrite Hb, IH.
Qed.

Lemma json_escape_body_ok (s : string) : json_body_ok (json_escape s) = true.
Proof.
  induction s as [|c s IH]; [reflexivity|].
  cbn [json_escape].
  destruct (json_escape_char_cases c) as [(_ & d & -> & _ & Hd) | (Hc & ->)].
  - rewrite append_two. cbn [json_body_ok]. rewrite Ascii.eqb_refl.
    now rewrite Hd, IH.
  - rewrite append_one. cbn [json_body_ok]. unfold escaped in Hc.
    destruct (Ascii.eqb c QUOTE), (Ascii.eqb c BACKSLASH), (Ascii.eqb c NL),
      (Ascii.eqb c CR), (Ascii.eqb c TAB); try discriminate.
    exact IH.
Qed.

Lemma json_escape_length (s : string) :
  (String.length s <= String.length (json_escape s) <= 2 * String.length s)%nat.
Proof.
  induction s as [|c s IH]; [cbn; lia|].
  cbn [json_escape].
  destruct (json_escape_char_cases c) as [(_ & d & -> & _) | (_ & ->)];
    rewrite ?append_two, ?append_one; cbn [String.length]; lia.
Qed.

Lemma json_escape_plain (s : string) :
  json_escape s = s <-> Names.string_forall (fun c => escaped c = false) s.
Proof.
  induction s as [|c s IH]; [now split|].
  cbn [json_escape Names.string_forall].
  destruct (json_escape_char_cases c) as [(Hc & d & -> & _) | (Hc & ->)];
    rewrite ?append_two, ?append_one.
  - split; [|intros [Hf _]; congruence]. intros H.
    pose proof (json_escape_length s) as Hl.
    apply (f_equal String.length) in H. cbn [String.length] in H. lia.
  - rewrite <- IH. split; [intros [= ->]; now split | now intros [_ ->]].
Qed.


Lemma name_char_plain (c : ascii) :
  Names.name_char_ok c = true -> escaped c = false.
Proof.
  destruct c as [[] [] [] [] [] [] [] []]; vm_compute; congruence.
Qed.

Lemma valid_name_plain (name : string) :
  Names.valid_session_name name = true -> json_escape name = name.
Proof.
  unfold Names.valid_session_name.
  destruct (_ || _); [discriminate|]. destruct (_ || _); [discriminate|].
  intros H. apply json_escape_plain.
  induction name as [|c s IH]; [exact I|].
  cbn [Names.name_chars_ok Names.string_forall] in *.
  destruct (Names.name_char_ok c) eqn:Hc; [|discriminate].
  split; [now apply name_char_plain | now apply IH].
Qed.

(** X18: [json_escape] can be undone and its result is safe between
    quotes.  Unescaping the five escapes gives the text back, so that
    different texts have different escapes; in the result every
    backslash starts one of the five escapes and no quote, line feed,
    carriage return or tab stands outside one; the result is the text
    itself exactly when the text has none of the five characters (any
    other control character is passed through as it is), as is the
    case of every valid session name, and is at most twice as long. *)
Theorem json_escape_reversible (s : string) :
  json_unescape (json_escape s) = s
  /\ (forall s', json_escape s = json_escape s' -> s = s')
  /\ json_body_ok (json_escape s) = true
  /\ (json_escape s = s
      <-> Names.string_forall (fun c => escaped c = false) s)
  /\ (Names.valid_session_name s = true -> json_escape s = s)
  /\ (String.length s <= String.length (json_escape s)
      <= 2 * String.length s)%nat.
Proof.
  split; [apply json_unescape_escape|].
  split.
  { intros s' H. rewrite <- (json_unescape_escape s), H.
    apply json_unescape_escape. }
  split; [apply json_escape_body_ok|].
  split; [apply json_escape_plain|].
  split; [apply valid_name_plain | apply json_escape_length].
Qed.

(** *** Paths *)

Lemma string_length_app (s1 s2 : string) :
  String.length (String.append s1 s2)
  = (String.length s1 + String.length s2)%nat.
Proof.
  induction s1 as [|c s1 IH]; [reflexivity|].
  change (String.append (String c s1) s2) with (String c (String.append s1 s2)).
  cbn [String.length]. now rewrite IH.
Qed.

Lemma substring_all (s : string) :
  forall n, (String.length s <= n)%nat -> substring 0 n s = s.
Proof.
  induction s as [|c s IH]; intros n Hn.
  - now destruct n.
  - destruct n as [|n]; cbn [String.length] in Hn; [lia|].
    cbn [substring]. rewrite IH by lia. reflexivity.
Qed.

Lemma pretty_N_go_length (k : nat) :
  forall (x : N) (s : string),
    (x < 10 ^ N.of_nat k)%N ->
    (String.length (pretty_N_go x s) <= String.length s + k)%nat.
Proof.
  induction k as [|k IH]; intros x s Hx.
  - assert (x = 0%N) as -> by (cbn in Hx; lia).
    rewrite pretty_N_go_0. lia.
  - destruct (N.eq_dec x 0%N) as [->|Hne].
    { rewrite pretty_N_go_0. lia. }
    rewrite pretty_N_go_step by lia.
    etransitivity; [apply IH|cbn [String.length]; lia].
    apply N.Div0.div_lt_upper_bound.
    rewrite Nat2N.inj_succ, N.pow_succ_r' in Hx. exact Hx.
Qed.

(** [%u] of a 32-bit value prints at most ten digits. *)
Lemma pretty_uid_length (uid : Z) :
  0 <= uid < 2 ^ 32 -> (String.length (pretty uid) <= 10)%nat.
Proof.
  intros Hu. destruct uid as [|p|p]; [cbn; lia| |lia].
  unfold pretty, pretty_Z, pretty, pretty_positive, pretty, pretty_N.
  destruct (decide (N.pos p = 0%N)); [discriminate|].
  apply (pretty_N_go_length 10 (N.pos p) EmptyString).
  change (10 ^ N.of_nat 10)%N with 10000000000%N. lia.
Qed.

(** X19: the paths of a session fit.  For a 32-bit uid the 128-byte
    buffer of [socket_dir] is never too short (nothing is cut), and
    for a valid session name the socket path is at most 93 characters
    long, so that [socket_path_fits] holds on every platform whose
    [sun_path] has at least 104 bytes: the checks of
    [create_listen_socket] and [connect_to_session] cannot fail on a
    name that passed [valid_session_name]. *)
Theorem session_paths_fit (uid : Z) (name : string) (sun_path_size : nat) :
  0 <= uid < 2 ^ 32 ->
  Names.valid_session_name name = true ->
  (104 <= sun_path_size)%nat ->
  socket_dir uid = String.append "/tmp/ghostly-" (pretty uid)
  /\ (String.length (socket_path uid name) <= 93)%nat
  /\ socket_path_fits sun_path_size (socket_path uid name) = true
  /\ (String.length (info_path uid name) <= 93)%nat.
Proof.
  intros Hu Hname Hsize.
  pose proof (pretty_uid_length uid Hu) as Hp.
  assert (Hdir : socket_dir uid = String.append "/tmp/ghostly-" (pretty uid)).
  { unfold socket_dir. apply substring_all.
    rewrite string_length_app. cbn [String.length]. lia. }
  assert (Hlen : (String.length name <= 64)%nat).
  { unfold Names.valid_session_name, MAX_NAME_LEN in Hname.
    destruct (Z.ltb_spec 64 (Z.of_nat (String.length name))); [|lia].
    rewrite orb_true_r in Hname. discriminate. }
  assert (Hsock : (String.length (socket_path uid name) <= 93)%nat).
  { unfold socket_path. rewrite Hdir, !string_length_app.
    cbn [String.length]. lia. }
  split; [exact Hdir|]. split; [exact Hsock|]. split.
  - unfold socket_path_fits. apply Nat.ltb_lt. lia.
  - unfold info_path. rewrite Hdir, !string_length_app.
    cbn [String.length]. lia.
Qed.

Lemma session_paths_fit_witness :
  socket_dir 1000 = String.append "/tmp/ghostly-" (pretty 1000)
  /\ (String.length (socket_path 1000 "work") <= 93)%nat
  /\ socket_path_fits 104 (socket_path 1000 "work") = true
  /\ (String.length (info_path 1000 "work") <= 93)%nat.
Proof.
  apply (session_paths_fit 1000 "work" 104); [lia | reflexivity | lia].
Defined.

(** *** Directory entries *)

Lemma string_app_nil_r (s : string) : String.append s EmptyString = s.
Proof.
  induction s as [|c s IH]; [reflexivity|].
  change (String.append (String c s) EmptyString)
    with (String c (String.append s EmptyString)).
  now rewrite IH.
Qed.

Lemma string_app_assoc (s1 s2 s3 : string) :
  String.append (String.append s1 s2) s3
  = String.append s1 (String.append s2 s3).
Proof.
  induction s1 as [|c s1 IH]; [reflexivity|].
  change (String.append (String.append (String c s1) s2) s3)
    with (String c (String.append (String.append s1 s2) s3)).
  now rewrite IH.
Qed.

Lemma string_length_0 (s : string) : String.length s = 0%nat -> s = EmptyString.
Proof. now destruct s. Qed.

Lemma substring_app (a b : string) :
  substring 0 (String.length a) (String.append a b) = a.
Proof.
  induction a as [|c a IH]; [now destruct b|].
  change (String.append (String c a) b) with (String c (String.append a b)).
  cbn [String.length substring]. now rewrite IH.
Qed.

Lemma prefix_app (n b : string) : String.prefix n (String.append n b) = true.
Proof.
  induction n as [|c n IH]; [now destruct b|].
  change (String.append (String c n) b) with (String c (String.append n b)).
  cbn [String.prefix]. now destruct (Ascii.ascii_dec c c).
Qed.

Lemma prefix_split (n h : string) :
  String.prefix n h = true -> exists b, h = String.append n b.
Proof.
  revert n. induction h as [|c h IH]; intros n Hp.
  - destruct n; [now exists EmptyString | discriminate].
  - destruct n as [|d n]; [now exists (String c h)|].
    cbn [String.prefix] in Hp.
    destruct (Ascii.ascii_dec d c) as [->|]; [|discriminate].
    destruct (IH n Hp) as [b ->]. now exists b.
Qed.

(** Where [rfind] finds the needle, the needle is. *)
Lemma rfind_found (needle hay : string) :
  forall i, rfind needle hay = Some i ->
            exists a b, hay = String.append a (String.append needle b)
                        /\ String.length a = i.
Proof.
  induction hay as [|c hay IH]; intros i Hr.
  - cbn in Hr. destruct (String.eqb_spec needle EmptyString) as [->|];
      [|discriminate].
    injection Hr as <-. now exists EmptyString, EmptyString.
  - cbn [rfind] in Hr. destruct (rfind needle hay) as [j|].
    + injection Hr as <-. destruct (IH j eq_refl) as (a & b & -> & <-).
      now exists (String c a), b.
    + destruct (String.prefix needle (String c hay)) eqn:Hp; [|discriminate].
      injection Hr as <-. destruct (prefix_split _ _ Hp) as [b ->].
      now exists EmptyString, b.
Qed.

(** [rfind] finds an occurrence at least as far as any given one. *)
Lemma rfind_last (needle b : string) (a : string) :
  exists i, rfind needle (String.append a (String.append needle b)) = Some i
            /\ (String.length a <= i)%nat.
Proof.
  induction a as [|c a (i & Hi & Hle)].
  - change (String.append EmptyString (String.append needle b))
      with (String.append needle b).
    destruct (String.append needle b) as [|c h] eqn:E.
    + destruct needle; [|discriminate]. exists 0%nat. now split.
    + cbn [rfind]. destruct (rfind needle h) as [j|].
      * exists (S j). split; [reflexivity | cbn; lia].
      * rewrite <- E, prefix_app. exists 0%nat. now split.
  - change (String.append (String c a) (String.append needle b))
      with (String c (String.append a (String.append needle b))).
    cbn [rfind]. rewrite Hi. exists (S i). split; [reflexivity | cbn; lia].
Qed.

Lemma entry_name_suffix (fname name : string) :
  entry_name fname = Some name <-> fname = String.append name ".sock".
Proof.
  unfold entry_name. split.
  - destruct (rfind ".sock" fname) as [pos|] eqn:Hr; [|discriminate].
    destruct (Nat.eqb_spec (pos + 5) (String.length fname)) as [Hlen|];
      [|discriminate].
    intros [= <-].
    destruct (rfind_found _ _ _ Hr) as (a & b & -> & <-).
    rewrite !string_length_app in Hlen. cbn [String.length] in Hlen.
    assert (b = EmptyString) as -> by (apply string_length_0; lia).
    now rewrite substring_app.
  - intros ->.
    destruct (rfind_last ".sock" EmptyString name) as (i & Hi & Hle).
    change (String.append ".sock" EmptyString) with ".sock"%string in Hi.
    rewrite Hi.
    destruct (rfind_found _ _ _ Hi) as (a & b & Heq & Hlen).
    apply (f_equal String.length) in Heq.
    rewrite !string_length_app in Heq. cbn [String.length] in Heq.
    assert (i = String.length name) as -> by lia.
    rewrite string_length_app. cbn [String.length].
    rewrite Nat.eqb_refl. now rewrite substring_app.
Qed.

Lemma last_char_app (s t : string) :
  t <> EmptyString -> last_char (String.append s t) = last_char t.
Proof.
  intros Ht. induction s as [|c s IH]; [reflexivity|].
  change (String.append (String c s) t) with (String c (String.append s t)).
  cbn [last_char]. rewrite IH.
  destruct t as [|d t]; [contradiction|].
  cbn [last_char]. now destruct (last_char t).
Qed.

(** X20: the directory entries [enumerate_sessions] goes on with are
    exactly the names that end in [.sock] with a valid session name
    before this suffix, and the session's name is the entry's name
    without the suffix, whatever else the name holds (further
    occurrences of [.sock] included): the socket file of every valid
    session leads back to the session, and no pid or info file is taken
    for a socket. *)
Theorem entry_session_iff (fname name : string) :
  (entry_session fname = Some name
   <-> fname = String.append name ".sock"
       /\ Names.valid_session_name name = true)
  /\ entry_session (String.append name ".pid") = None
  /\ entry_session (String.append name ".info") = None.
Proof.
  assert (Hnot : forall ext : string,
             ext <> EmptyString -> last_char ext <> Some "k"%char ->
             entry_session (String.append name ext) = None).
  { intros ext Hne Hlast. unfold entry_session.
    destruct (entry_name (String.append name ext)) as [n|] eqn:E;
      [|reflexivity].
    apply entry_name_suffix in E.
    apply (f_equal last_char) in E.
    rewrite !last_char_app in E by (assumption || discriminate).
    cbn in E. congruence. }
  split; [|split; apply Hnot; (discriminate || (cbn; congruence))].
  unfold entry_session. split.
  - destruct (entry_name fname) as [n|] eqn:E; [|discriminate].
    destruct (Names.valid_session_name n) eqn:Hv; [|discriminate].
    intros [= <-]. apply entry_name_suffix in E. now split.
  - intros [-> Hv].
    rewrite (proj2 (entry_name_suffix _ name) eq_refl). now rewrite Hv.
Qed.

(** *** Arguments *)

Lemma collect_from_join (rest : list string) :
  forall cmd,
    cmd <> EmptyString ->
    collect_from cmd rest = String.concat " " (cmd :: rest).
Proof.
  induction rest as [|b rest IH]; intros cmd Hne; [reflexivity|].
  cbn [collect_from].
  destruct (String.eqb_spec cmd EmptyString) as [|_]; [contradiction|].
  rewrite IH by (destruct cmd; [contradiction | discriminate]).
  cbn [String.concat]. destruct rest as [|c rest].
  - apply string_app_assoc.
  - now rewrite !string_app_assoc.
Qed.

Lemma collect_from_empty (args : list string) :
  collect_from EmptyString args = String.concat " " (drop_empty args).
Proof.
  induction args as [|a args IH]; [reflexivity|].
  cbn [collect_from drop_empty String.eqb].
  change (String.append EmptyString a) with a.
  destruct (String.eqb_spec a EmptyString) as [->|Hne]; [exact IH|].
  now apply collect_from_join.
Qed.

Lemma drop_past (front : list string) (x : string) (cs : list string) :
  drop (length front + 1) (front ++ x :: cs) = cs.
Proof. induction front as [|a front IH]; [reflexivity | exact IH]. Qed.

Lemma find_cmd_run (cs : list string) (argv : list string) :
  forall (pre front : list string),
    argv = front ++ pre ++ "--"%string :: cs ->
    ~ In "--"%string pre ->
    find_cmd argv (length front) (pre ++ "--"%string :: cs)
    = collect_from EmptyString cs.
Proof.
  induction pre as [|a pre IH]; intros front Hargv Hpre.
  - cbn [app] in *. cbn [find_cmd]. rewrite String.eqb_refl.
    unfold collect_cmd. rewrite Hargv. now rewrite drop_past.
  - cbn [app find_cmd].
    destruct (String.eqb_spec a "--") as [->|Hne]; [now destruct Hpre; left|].
    replace (S (length front)) with (length (front ++ [a]))
      by (rewrite length_app; cbn; lia).
    apply IH.
    + now rewrite <- app_assoc.
    + intros Hin. apply Hpre. now right.
Qed.

Lemma find_cmd_none (argv rest : list string) :
  forall i, ~ In "--"%string rest -> find_cmd argv i rest = EmptyString.
Proof.
  induction rest as [|a rest IH]; intros i Hn; [reflexivity|].
  cbn [find_cmd].
  destruct (String.eqb_spec a "--") as [->|Hne]; [now destruct Hn; left|].
  apply IH. intros Hin. apply Hn. now right.
Qed.

(** X21: the command of [create] and [open].  With the arguments
    [prog sub name pre... -- c1 ... cn], no [--] among [pre], [main]
    passes on the arguments after the first [--], joined by single
    spaces, empty arguments at the front left out (later ones leave
    their space); what stands between the name and the [--] is
    ignored; and without any [--] the command is empty. *)
Theorem command_joins_arguments (prog sub name : string)
        (pre cs : list string) :
  ~ In "--"%string pre ->
  command_of (prog :: sub :: name :: pre ++ "--"%string :: cs)
  = String.concat " " (drop_empty cs)
  /\ command_of (prog :: sub :: name :: pre) = EmptyString.
Proof.
  intros Hpre. unfold command_of. cbn [drop]. split.
  - rewrite <- collect_from_empty.
    apply (find_cmd_run cs _ pre [prog; sub; name]); [reflexivity | exact Hpre].
  - now apply find_cmd_none.
Qed.

Lemma command_joins_arguments_witness :
  command_of ["ghostly-session"; "create"; "work"; "-x"; "--"; ""; "ls";
              "-l"; "--"; "a b"]%string
  = String.concat " " (drop_empty [""; "ls"; "-l"; "--"; "a b"]%string)
  /\ command_of ["ghostly-session"; "create"; "work"; "-x"]%string
     = EmptyString.
Proof.
  apply (command_joins_arguments "ghostly-session" "create" "work"
           ["-x"%string] [""; "ls"; "-l"; "--"; "a b"]%string).
  intros [H|[]]. discriminate.
Defined.

(** *** The pid file and the info file *)

Lemma digit_char_plain (c : ascii) :
  digit_of c <> None ->
  is_space c = false /\ Ascii.eqb c "-" = false /\ Ascii.eqb c "+" = false
  /\ c <> NL /\ c <> CR.
Proof.
  destruct c as [[] [] [] [] [] [] [] []]; vm_compute; intros H;
    repeat split; congruence.
Qed.

Lemma digit_of_pretty_char (d : N) :
  (d < 10)%N -> digit_of (pretty_N_char d) = Some (Z.of_N d).
Proof.
  intros Hd.
  assert (d = 0 \/ d = 1 \/ d = 2 \/ d = 3 \/ d = 4 \/ d = 5 \/ d = 6
          \/ d = 7 \/ d = 8 \/ d = 9)%N as H by lia.
  repeat (destruct H as [->|H]; [reflexivity|]). now subst.
Qed.

Lemma pretty_N_go_app (x : N) :
  forall s t,
    String.append (pretty_N_go x s) t = pretty_N_go x (String.append s t).
Proof.
  induction (N.lt_wf_0 x) as [x _ IH]; intros s t.
  destruct (N.eq_dec x 0%N) as [->|Hne]; [now rewrite !pretty_N_go_0|].
  rewrite (pretty_N_go_step x s), (pretty_N_go_step x (String.append s t))
    by lia.
  rewrite IH by (apply N.div_lt; lia). reflexivity.
Qed.

Lemma digits_pretty_go (x : N) :
  forall s, digits 0 (pretty_N_go x s) = digits (Z.of_N x) s.
Proof.
  induction (N.lt_wf_0 x) as [x _ IH]; intros s.
  destruct (N.eq_dec x 0%N) as [->|Hne]; [now rewrite pretty_N_go_0|].
  rewrite pretty_N_go_step by lia.
  rewrite IH by (apply N.div_lt; lia).
  cbn [digits]. rewrite digit_of_pretty_char by (apply N.mod_lt; lia).
  f_equal. rewrite (N.div_mod x 10) at 3 by lia. lia.
Qed.

(** A positive number is printed with a digit in front, and digits
    only. *)
Lemma pretty_N_go_head (x : N) :
  forall s,
    (0 < x)%N ->
    exists c r, pretty_N_go x s = String c r /\ digit_of c <> None.
Proof.
  induction (N.lt_wf_0 x) as [x _ IH]; intros s Hx.
  rewrite pretty_N_go_step by lia.
  destruct (N.eq_dec (x / 10)%N 0%N) as [E|Hne].
  - rewrite E, pretty_N_go_0. eexists _, _. split; [reflexivity|].
    rewrite digit_of_pretty_char by (apply N.mod_lt; lia). discriminate.
  - apply IH; [apply N.div_lt; lia | now apply N.neq_0_lt_0].
Qed.

Lemma pretty_N_go_forall (P : ascii -> Prop) (x : N) :
  (forall c, digit_of c <> None -> P c) ->
  forall s, Names.string_forall P s ->
            Names.string_forall P (pretty_N_go x s).
Proof.
  intros HP. induction (N.lt_wf_0 x) as [x _ IH]; intros s Hs.
  destruct (N.eq_dec x 0%N) as [->|Hne]; [now rewrite pretty_N_go_0|].
  rewrite pretty_N_go_step by lia.
  apply IH; [apply N.div_lt; lia|]. split; [|exact Hs].
  apply HP. rewrite digit_of_pretty_char by (apply N.mod_lt; lia).
  discriminate.
Qed.

Lemma pretty_pos_unfold (p : positive) :
  pretty (Z.pos p) = pretty_N_go (N.pos p) EmptyString.
Proof.
  unfold pretty, pretty_Z, pretty, pretty_positive, pretty, pretty_N.
  now destruct (decide (N.pos p = 0%N)).
Qed.

Lemma pretty_neg_unfold (p : positive) :
  pretty (Z.neg p) = String "-" (pretty_N_go (N.pos p) EmptyString).
Proof.
  unfold pretty at 1, pretty_Z.
  change (pretty p) with (pretty (Z.pos p)). now rewrite pretty_pos_unfold.
Qed.

Lemma leading_number_digits (c : ascii) (r : string) :
  digit_of c <> None ->
  leading_number (String c r) = Some (digits 0 (String c r)).
Proof.
  intros Hc. unfold leading_number. cbn [skip_space].
  destruct (digit_char_plain c Hc) as (-> & -> & -> & _).
  cbn [starts_with_digit]. now destruct (digit_of c).
Qed.

Lemma leading_number_minus (c : ascii) (r : string) :
  digit_of c <> None ->
  leading_number (String "-" (String c r)) = Some (- digits 0 (String c r)).
Proof.
  intros Hc. unfold leading_number. cbn [skip_space].
  change (is_space "-") with false. cbv iota.
  change (Ascii.eqb "-" "-") with true. cbv iota.
  cbn [starts_with_digit]. now destruct (digit_of c).
Qed.

(** Reading back a printed number that a line feed follows. *)
Lemma leading_number_pretty (z : Z) (t : string) :
  leading_number (String.append (pretty z) (String NL t)) = Some z.
Proof.
  destruct z as [|p|p].
  - reflexivity.
  - rewrite pretty_pos_unfold, pretty_N_go_app.
    change (String.append EmptyString (String NL t)) with (String NL t).
    pose proof (digits_pretty_go (N.pos p) (String NL t)) as Hd.
    destruct (pretty_N_go_head (N.pos p) (String NL t) ltac:(lia))
      as (c & r & E & Hc).
    rewrite E in *. rewrite leading_number_digits by exact Hc.
    now rewrite Hd.
  - rewrite pretty_neg_unfold.
    change (String.append (String "-" (pretty_N_go (N.pos p) EmptyString))
                          (String NL t))
      with (String "-" (String.append (pretty_N_go (N.pos p) EmptyString)
                                      (String NL t))).
    rewrite pretty_N_go_app.
    change (String.append EmptyString (String NL t)) with (String NL t).
    pose proof (digits_pretty_go (N.pos p) (String NL t)) as Hd.
    destruct (pretty_N_go_head (N.pos p) (String NL t) ltac:(lia))
      as (c & r & E & Hc).
    rewrite E in *. rewrite leading_number_minus by exact Hc.
    now rewrite Hd.
Qed.

(** X22: the pid file reads back.  What [write_pid_file] writes for a
    pid, [read_pid_file] reads as this pid, for every pid an [int]
    holds; and a file that cannot be opened, is empty or starts with
    no number reads as 0, the value every caller takes for no live
    session. *)
Theorem pid_file_roundtrip (pid : Z) :
  fits_int pid = true ->
  read_pid_file (Some (write_pid_file pid)) = Value pid
  /\ read_pid_file None = Value 0
  /\ read_pid_file (Some EmptyString) = Value 0.
Proof.
  intros Hfit. unfold read_pid_file, write_pid_file.
  rewrite leading_number_pretty, Hfit. now repeat split.
Qed.

Lemma pid_file_roundtrip_witness :
  read_pid_file (Some (write_pid_file 4242)) = Value 4242
  /\ read_pid_file None = Value 0
  /\ read_pid_file (Some EmptyString) = Value 0.
Proof. apply (pid_file_roundtrip 4242). reflexivity. Defined.

Lemma string_forall_app (P : ascii -> Prop) (s t : string) :
  Names.string_forall P s -> Names.string_forall P t ->
  Names.string_forall P (String.append s t).
Proof.
  intros Hs Ht. induction s as [|c s IH]; [exact Ht|].
  destruct Hs as [Hc Hs]. split; [exact Hc | now apply IH].
Qed.

Lemma fgets_go_line (size : nat) (l : string) :
  forall (room : nat) (rest : string),
    Names.string_forall (fun c => c <> NL) l ->
    (String.length l + 1 <= room)%nat ->
    fgets_go size room (String.append l (String NL rest))
    = String.append l (String NL EmptyString)
      :: fgets_go size (size - 1) rest.
Proof.
  induction l as [|c l IH]; intros room rest Hl Hroom.
  - reflexivity.
  - destruct Hl as [Hc Hl]. cbn [String.length] in Hroom.
    change (String.append (String c l) (String NL rest))
      with (String c (String.append l (String NL rest))).
    cbn [fgets_go].
    destruct (Ascii.eqb_spec c NL) as [|_]; [contradiction|].
    destruct (Nat.eqb_spec room 1) as [|_]; [lia|]. cbn [orb].
    rewrite IH by (assumption || lia). reflexivity.
Qed.

Lemma substring_skip (k r : string) :
  substring (String.length k)
            (String.length (String.append k r) - String.length k)
            (String.append k r) = r.
Proof.
  induction k as [|c k IH].
  - change (String.append EmptyString r) with r. cbn [String.length].
    rewrite Nat.sub_0_r. now apply substring_all.
  - exact IH.
Qed.

Lemma after_key_app (key rest : string) :
  after_key key (String.append key rest) = Some rest.
Proof. unfold after_key. now rewrite prefix_app, substring_skip. Qed.

Lemma after_key_first (c d : ascii) (k rest : string) :
  c <> d -> after_key (String c k) (String d rest) = None.
Proof.
  intros Hne. unfold after_key. cbn [String.prefix].
  now destruct (Ascii.ascii_dec c d).
Qed.

Lemma after_clients_cr (x : string) :
  after_key "clients=" (String "c" (String "r" x)) = None.
Proof. reflexivity. Qed.

Lemma after_clients_cm (x : string) :
  after_key "clients=" (String "c" (String "m" x)) = None.
Proof. reflexivity. Qed.

Lemma after_created_cm (x : string) :
  after_key "created=" (String "c" (String "m" x)) = None.
Proof. reflexivity. Qed.

Lemma c_str_line (s : string) :
  Client.c_str (String.append (Client.c_str s) (String NL EmptyString))
  = String.append (Client.c_str s) (String NL EmptyString).
Proof.
  induction s as [|c s IH]; [reflexivity|].
  cbn [Client.c_str]. destruct (Ascii.eqb c "000") eqn:Hc; [reflexivity|].
  change (String.append (String c ?a) ?b) with (String c (String.append a b)).
  cbn [Client.c_str]. now rewrite Hc, IH.
Qed.

Lemma one_line_c_str (s : string) : one_line s -> one_line (Client.c_str s).
Proof.
  unfold one_line. induction s as [|c s IH]; [trivial|].
  intros [Hc Hs]. cbn [Client.c_str].
  destruct (Ascii.eqb c "000"); [exact I|]. split; [exact Hc | now apply IH].
Qed.

Lemma one_line_no_nl (s : string) :
  one_line s -> Names.string_forall (fun c => c <> NL) s.
Proof.
  unfold one_line. induction s as [|c s IH]; [trivial|].
  intros [[Hn _] Hs]. split; [exact Hn | now apply IH].
Qed.

Lemma rtrim_line (s : string) :
  one_line s -> rtrim (String.append s (String NL EmptyString)) = s.
Proof.
  unfold one_line. induction s as [|c s IH]; [reflexivity|].
  intros [[Hn Hr] Hs].
  change (String.append (String c s) (String NL EmptyString))
    with (String c (String.append s (String NL EmptyString))).
  cbn [rtrim]. rewrite (IH Hs).
  destruct s; [|reflexivity].
  destruct (Ascii.eqb_spec c NL) as [|_]; [contradiction|].
  destruct (Ascii.eqb_spec c CR) as [|_]; [contradiction|]. reflexivity.
Qed.

Lemma pretty_Z_length (k : nat) (z : Z) :
  Z.abs z < 10 ^ Z.of_nat k -> (String.length (pretty z) <= k + 1)%nat.
Proof.
  intros Hz.
  assert (Hb : forall p, Z.pos p < 10 ^ Z.of_nat k ->
                         (N.pos p < 10 ^ N.of_nat k)%N).
  { intros p Hp. apply N2Z.inj_lt. rewrite N2Z.inj_pow, nat_N_Z. exact Hp. }
  destruct z as [|p|p].
  - cbn. lia.
  - rewrite pretty_pos_unfold.
    pose proof (pretty_N_go_length k (N.pos p) EmptyString (Hb p Hz)).
    cbn [String.length] in *. lia.
  - rewrite pretty_neg_unfold.
    pose proof (pretty_N_go_length k (N.pos p) EmptyString (Hb p Hz)).
    cbn [String.length] in *. lia.
Qed.

Lemma pretty_Z_no_nl (z : Z) :
  Names.string_forall (fun c => c <> NL) (pretty z).
Proof.
  assert (Hd : forall c, digit_of c <> None -> c <> NL)
    by (intros c Hc; apply (digit_char_plain c Hc)).
  destruct z as [|p|p].
  - cbn. split; [discriminate | exact I].
  - rewrite pretty_pos_unfold. now apply pretty_N_go_forall.
  - rewrite pretty_neg_unfold. split; [discriminate|].
    now apply pretty_N_go_forall.
Qed.

Lemma line_not_empty (l : string) (c : ascii) :
  negb (String.eqb (String.append l (String c EmptyString)) EmptyString)
  = true.
Proof. now destruct l. Qed.

(** What the loop over the info file makes of each line that
    [write_info_file] writes. *)
Lemma info_line_pid (i : info) (x : string) :
  info_line (Some i) (String.append "pid=" x) = Some i.
Proof.
  change (String.append "pid=" x) with (String "p" (String.append "id=" x)).
  cbn [info_line]. now rewrite !after_key_first by discriminate.
Qed.

Lemma info_line_clients (i : info) (z : Z) :
  fits_int z = true ->
  info_line (Some i)
            (String.append "clients="
                           (String.append (pretty z) (String NL EmptyString)))
  = Some (mkInfo z (i_created i) (i_command i)).
Proof.
  intros Hz. cbn [info_line]. rewrite after_key_app.
  unfold atoi. now rewrite leading_number_pretty, Hz.
Qed.

Lemma info_line_created (i : info) (z : Z) :
  fits_long z = true ->
  info_line (Some i)
            (String.append "created="
                           (String.append (pretty z) (String NL EmptyString)))
  = Some (mkInfo (i_clients i) z (i_command i)).
Proof.
  intros Hz. cbn [info_line].
  change (String.append "created=" ?x)
    with (String "c" (String "r" (String.append "eated=" x))) at 1.
  rewrite after_clients_cr, after_key_app.
  unfold atol. now rewrite leading_number_pretty, Hz.
Qed.

Lemma info_line_cmd (i : info) (cmd : string) :
  one_line cmd ->
  info_line (Some i)
            (String.append "cmd="
                           (String.append (Client.c_str cmd)
                                          (String NL EmptyString)))
  = Some (mkInfo (i_clients i) (i_created i) (Client.c_str cmd)).
Proof.
  intros Hcmd. cbn [info_line].
  change (String.append "cmd=" ?x)
    with (String "c" (String "m" (String.append "d=" x))) at 1 2.
  rewrite after_clients_cm, after_created_cm, after_key_app.
  now rewrite c_str_line, rtrim_line by now apply one_line_c_str.
Qed.

(** X23: the info file reads back.  From what [write_info_file]
    writes, [enumerate_sessions] reads the client count, the creation
    time and the command as they were written, whatever the pid,
    provided the numbers fit their types and the command (up to its
    first NUL) is at most 506 characters long and holds no line feed
    and no carriage return; the line of the pid is skipped. *)
Theorem info_file_roundtrip (pid clients created : Z) (cmd : string) :
  fits_int pid = true -> fits_int clients = true ->
  fits_long created = true ->
  one_line cmd ->
  (String.length (Client.c_str cmd) <= 506)%nat ->
  parse_info (write_info_file pid clients created cmd)
  = Some (mkInfo clients created (Client.c_str cmd)).
Proof.
  intros Hpid Hcl Hcr Hcmd Hlen.
  pose proof (one_line_c_str cmd Hcmd) as Hcmd'.
  set (C := Client.c_str cmd) in *.
  assert (Hint : forall z, fits_int z = true ->
                           (String.length (pretty z) <= 11)%nat).
  { intros z Hz. apply (pretty_Z_length 10).
    unfold fits_int in Hz. apply andb_true_iff in Hz as [H1 H2].
    apply Z.leb_le in H1. apply Z.ltb_lt in H2.
    change (10 ^ Z.of_nat 10) with 10000000000. lia. }
  assert (Hlong : (String.length (pretty created) <= 20)%nat).
  { apply (pretty_Z_length 19).
    unfold fits_long in Hcr. apply andb_true_iff in Hcr as [H1 H2].
    apply Z.leb_le in H1. apply Z.ltb_lt in H2.
    change (10 ^ Z.of_nat 19) with 10000000000000000000. lia. }
  assert (Hkey : forall key (z : Z),
             Names.string_forall (fun c => c <> NL) key ->
             Names.string_forall (fun c => c <> NL)
                                 (String.append key (pretty z))).
  { intros key z Hk. apply string_forall_app; [exact Hk|].
    apply pretty_Z_no_nl. }
  assert (Hshape :
            write_info_file pid clients created cmd
            = String.append (String.append "pid=" (pretty pid))
                (String NL
                   (String.append (String.append "clients=" (pretty clients))
                      (String NL
                         (String.append
                            (String.append "created=" (pretty created))
                            (String NL
                               (String.append (String.append "cmd=" C)
                                  (String NL EmptyString)))))))).
  { unfold write_info_file. fold C. rewrite !string_app_assoc. reflexivity. }
  unfold parse_info, fgets_lines. rewrite Hshape.
  rewrite fgets_go_line;
    [| apply Hkey; cbn; repeat split; discriminate
     | rewrite string_length_app; specialize (Hint pid Hpid);
       cbn [String.length]; lia ].
  rewrite fgets_go_line;
    [| apply Hkey; cbn; repeat split; discriminate
     | rewrite string_length_app; specialize (Hint clients Hcl);
       cbn [String.length]; lia ].
  rewrite fgets_go_line;
    [| apply Hkey; cbn; repeat split; discriminate
     | rewrite string_length_app; cbn [String.length]; lia ].
  rewrite fgets_go_line;
    [| apply string_forall_app;
       [ cbn; repeat split; discriminate
       | now apply one_line_no_nl ]
     | rewrite string_length_app; cbn [String.length]; lia ].
  cbn [fgets_go List.filter]. rewrite !line_not_empty.
  cbn [String.eqb negb fold_left].
  rewrite !string_app_assoc.
  rewrite info_line_pid, (info_line_clients _ clients Hcl),
    (info_line_created _ created Hcr). subst C.
  now rewrite (info_line_cmd _ cmd Hcmd).
Qed.

Lemma info_file_roundtrip_witness :
  parse_info (write_info_file 4242 2 1700000000 "bash -l")
  = Some (mkInfo 2 1700000000 "bash -l").
Proof.
  apply (info_file_roundtrip 4242 2 1700000000 "bash -l");
    [ reflexivity | reflexivity | reflexivity
    | cbn; repeat split; discriminate
    | cbn; lia ].
Defined.

End RegistryFacts.

(** * What the daemon passes on *)

Section PassingFacts.
Import Sys Wire Server Passing.

Lemma pass_remove (t : tick) (i : Z) : emits (pass_at t) (server_remove_client i).
Proof.
  intros s. rewrite server_remove_client_run. repeat constructor.
Qed.

Lemma pass_accept (t : tick) : emits (pass_at t) (accept_phase t).
Proof.
  intros s. rewrite accept_phase_run. cbv zeta.
  destruct (t_listen_in t && (0 <=? t_accept t)); [|constructor].
  destruct (MAX_CLIENTS <=? num_clients s); [repeat constructor|].
  destruct (t_hello t) as [f|] eqn:Hhello; [|repeat constructor].
  destruct (Z.eqb_spec (f_type f) MSG_HELLO) as [Hty|];
    [|repeat constructor].
  destruct (Z.eqb_spec (f_len f) 4) as [Hlen|]; [|repeat constructor].
  cbn [andb events_of snd].
  constructor; [exact I|]. constructor; [|repeat constructor].
  exists f. split; [left; now split|]. now repeat split.
Qed.

Lemma pass_pty (t : tick) : emits (pass_at t) (pty_phase t).
Proof.
  intros s. unfold pty_phase. rewrite events_of_bind. apply Forall_app.
  split; [|destruct (pollhup_err (t_pty t)); constructor].
  destruct (pollin (t_pty t)) eqn:Hin; [|constructor]. cbn [when].
  destruct (t_pty_read t) as [buf|retry] eqn:Hread.
  - destruct (0 <? length buf)%nat eqn:Hlen; [|constructor].
    apply emits_broadcast.
    + intros fd ok. cbn. repeat split; trivial.
      intros ->. discriminate.
    + intros fd. exact I.
    + intros. exact I.
  - destruct retry; constructor.
Qed.

Lemma pass_client_at (t : tick) (i : Z) : emits (pass_at t) (client_at t i).
Proof.
  intros s. unfold client_at.
  destruct (pollin (t_client t i) || pollhup_err (t_client t i));
    [|constructor].
  cbn [when]. destruct (pollin (t_client t i)); [|apply pass_remove].
  rewrite events_of_bind. cbn [get value_of state_of events_of fst snd app].
  destruct (t_recv t (fd_at s i)) as [f|] eqn:Hrecv; [|apply pass_remove].
  destruct (Z.eqb_spec (f_type f) MSG_DATA) as [Hdata|_].
  { destruct (Z.ltb_spec 0 (f_len f)) as [Hlen|]; [|constructor].
    constructor; [|constructor]. exists (fd_at s i), f. now repeat split. }
  destruct (Z.eqb_spec (f_type f) MSG_WINCH) as [Hwinch|_].
  { destruct (Z.eqb_spec (f_len f) 4) as [Hlen|]; [|constructor].
    constructor; [|constructor]. exists f.
    split; [right; exists (fd_at s i); now split|]. now repeat split. }
  destruct (f_type f =? MSG_DETACH); [apply pass_remove | constructor].
Qed.

Lemma pass_loop_iter (t : tick) : emits (pass_at t) (loop_iter t).
Proof.
  unfold loop_iter.
  apply emits_bind; [apply emits_modify | intros _].
  destruct (t_poll t); [|apply emits_ret..].
  apply emits_bind; [apply pass_accept | intros _].
  apply emits_bind; [apply pass_pty | intros _].
  apply emits_bind;
    [ unfold client_phase; apply emits_bind; [apply emits_get | intros s0];
      apply emits_down_from; intros i; apply pass_client_at
    | intros _].
  apply emits_bind; [apply emits_modify | intros _]. apply emits_ret.
Qed.

(** X24: the daemon passes on and adds nothing.  In a run of the
    daemon every DATA frame carries a chunk that some turn read from
    the PTY, whole and not empty; all that is written to the PTY is
    the payload of a non-empty DATA frame that some turn received from
    a client; the PTY's window is only ever set to the two 16-bit
    numbers of a 4-byte HELLO frame of a new connection or of a 4-byte
    WINCH frame from a client; and the only other frames it sends are
    EXIT frames. *)
Theorem daemon_relays_faithfully (session cmd : string) (su : startup)
        (ticks : list tick) (sd : shutdown_env) :
  Forall (passed ticks) (events_of (run_server session cmd su ticks sd)).
Proof.
  unfold run_server.
  set (s0 := init_server session cmd su).
  pose proof (while_loop_events_in running loop_iter pass_at
                pass_loop_iter ticks s0) as Hloop.
  fold (event_loop ticks s0) in Hloop.
  assert (Hloop' : Forall (passed ticks) (events_of (event_loop ticks s0))).
  { eapply Forall_impl; [exact Hloop|].
    intros e (t & Hin & He). destruct e; cbn; trivial.
    - right. now exists t.
    - now exists t.
    - now exists t. }
  assert (Hexit : forall sx,
             Forall (passed ticks) (events_of (shutdown sd sx))).
  { intros sx.
    assert (He : emits (fun e => match e with
                                 | ESend _ ty _ _ => ty = MSG_EXIT
                                 | EPtyWrite _ | EWinsize _ _ => False
                                 | _ => True
                                 end) (shutdown sd)).
    { unfold shutdown, shutdown_child.
      assert (Hc : forall fds,
                 emits (fun e => match e with
                                 | ESend _ ty _ _ => ty = MSG_EXIT
                                 | EPtyWrite _ | EWinsize _ _ => False
                                 | _ => True
                                 end) (close_all fds)).
      { induction fds as [|fd fds IH]; cbn [close_all];
          [apply emits_ret|].
        apply emits_bind; [now apply emits_emit | intros _; exact IH]. }
      repeat first
        [ apply emits_ret | apply emits_get | apply emits_modify
        | apply Hc
        | apply emits_broadcast; [intros; reflexivity | intros; exact I
                                  | intros; exact I]
        | apply emits_emit; exact I
        | apply emits_when
        | apply emits_bind; [|intros ?]
        | match goal with
          | |- emits _ (match ?x with _ => _ end) => destruct x
          end ]. }
    eapply Forall_impl; [apply He|].
    intros e H. destruct e; cbn in *; trivial; try contradiction.
    now left. }
  destruct (event_loop ticks s0) as [[exited s1] e1].
  cbn [events_of snd] in Hloop'.
  destruct exited.
  - specialize (Hexit s1). destruct (shutdown sd s1) as [[rc s2] e2].
    cbn [events_of snd] in *.
    apply Forall_app. split; [repeat constructor|].
    apply Forall_app. now split.
  - cbn [events_of snd]. apply Forall_app. split; [repeat constructor|].
    exact Hloop'.
Qed.

End PassingFacts.

(** * The shutdown sequence with signals *)

Section AsyncFacts.
Import Sys Server Daemon Async.

Lemma handled_child_pid (sgs : list signal) (s : ServerState) :
  child_pid (handled sgs s) = child_pid s \/ child_pid (handled sgs s) = -1.
Proof. exact (deliver_child_pid sgs s). Qed.

Lemma shutdown_child_async_kills (sd : shutdown_env) (sg : shutdown_signals)
      (s : ServerState) :
  kills (events_of (shutdown_child_async sd sg s)) = async_kills sd sg s.
Proof.
  unfold shutdown_child_async, async_kills, kill_child, wait_child, deliver,
    handled.
  run_prog. cbn [events_of snd fst].
  destruct (0 <? child_pid (fold_left _ (sg_check sg) s)); [|reflexivity].
  destruct (sd_wait1 sd), (sd_wait2 sd); cbn;
    repeat match goal with
           | |- context [if ?b then _ else _] => destruct b
           end; reflexivity.
Qed.

Lemma shutdown_child_quiet (sd : shutdown_env) (s : ServerState) :
  shutdown_child_async sd quiet s = shutdown_child sd s.
Proof.
  unfold shutdown_child_async, shutdown_child, kill_child, wait_child,
    deliver, quiet.
  run_prog. cbn.
  destruct (0 <? child_pid s); [|reflexivity].
  destruct (sd_wait1 sd), (sd_wait2 sd); cbn;
    repeat match goal with
           | |- context [if ?b then _ else _] => destruct b
           end; reflexivity.
Qed.

(** X12: whom the shutdown sequence signals.  The loop of the daemon
    sends no signal.  The shutdown sequence sends SIGHUP, then
    SIGTERM, then SIGKILL, each at most once and a later one only
    after the earlier ones, and every one of them to the pid the
    child had or to -1.  When no signal is handled while the sequence
    runs, it is the sequence of [shutdown_child] and all its signals
    go to the child, whose pid is positive.  But the handlers are
    still installed: when the SIGCHLD handler reaps the child after
    the first [waitpid] has returned 0, [srv.child_pid] is -1 when it
    is read next, and the sequence calls [kill(-1, SIGTERM)]. *)
Theorem shutdown_signal_targets (sd : shutdown_env) (sg : shutdown_signals)
        (s : ServerState) :
  let ks := kills (events_of (shutdown_child_async sd sg s)) in
  let quiet_ks := kills (events_of (shutdown_child_async sd quiet s)) in
  (forall ticks s0, kills (events_of (event_loop ticks s0)) = [])
  /\ Forall (fun k => fst k = child_pid s \/ fst k = -1) ks
  /\ map snd ks `prefix_of` [SIGHUP; SIGTERM; SIGKILL]
  /\ shutdown_child_async sd quiet s = shutdown_child sd s
  /\ quiet_ks `prefix_of` [(child_pid s, SIGHUP); (child_pid s, SIGTERM);
                            (child_pid s, SIGKILL)]
  /\ (quiet_ks <> [] -> 0 < child_pid s)
  /\ (forall ws,
         0 < child_pid s -> sd_wait1 sd = WaitNone ->
         In (-1, SIGTERM)
            (kills (events_of
                      (shutdown_child_async sd (reaped_before_term ws) s)))).
Proof.
  intros ks quiet_ks. subst ks quiet_ks.
  rewrite !shutdown_child_async_kills.
  split.
  { intros ticks s0. apply kills_no_kill.
    apply (while_loop_events running loop_iter no_kill loop_iter_no_kill). }
  assert (Hpid : forall l1 s1,
             (child_pid s1 = child_pid s \/ child_pid s1 = -1) ->
             child_pid (handled l1 s1) = child_pid s
             \/ child_pid (handled l1 s1) = -1).
  { intros l1 s1 H1.
    destruct (handled_child_pid l1 s1) as [E|E]; rewrite E; tauto. }
  split; [|split; [|split; [|split; [|split]]]].
  - unfold async_kills. cbv zeta.
    pose proof (Hpid (sg_check sg) s (or_introl eq_refl)) as H1.
    pose proof (Hpid (sg_hup sg) _ H1) as H2.
    pose proof (Hpid (sg_wait1 sg) _ H2) as H3.
    pose proof (Hpid (sg_term sg) _ H3) as H4.
    pose proof (Hpid (sg_wait2 sg) _ H4) as H5.
    pose proof (Hpid (sg_kill sg) _ H5) as H6.
    destruct (0 <? child_pid (handled (sg_check sg) s)); [|constructor].
    constructor; [exact H2|].
    destruct (sd_wait1 sd); [|constructor..].
    constructor; [exact H4|].
    destruct (sd_wait2 sd); [|constructor..].
    constructor; [exact H6 | constructor].
  - unfold async_kills. cbv zeta.
    destruct (0 <? child_pid (handled (sg_check sg) s)); [|apply prefix_nil].
    destruct (sd_wait1 sd), (sd_wait2 sd); cbn [map snd];
      first [ now exists []
            | now eexists [_]
            | now eexists [_; _] ].
  - apply shutdown_child_quiet.
  - unfold async_kills, quiet, handled. cbn [sg_check sg_hup sg_wait1 sg_term
                                              sg_wait2 sg_kill fold_left].
    destruct (0 <? child_pid s); [|apply prefix_nil].
    destruct (sd_wait1 sd), (sd_wait2 sd);
      first [ now exists []
            | now eexists [_]
            | now eexists [_; _] ].
  - unfold async_kills, quiet, handled. cbn [sg_check fold_left].
    destruct (Z.ltb_spec 0 (child_pid s)); [trivial | congruence].
  - intros ws Hpos Hw1. rewrite shutdown_child_async_kills.
    unfold async_kills, reaped_before_term, handled.
    cbn [sg_check sg_hup sg_wait1 sg_term fold_left].
    destruct (Z.ltb_spec 0 (child_pid s)) as [_|]; [|lia].
    rewrite Hw1. right. left.
    unfold handle, server_sigchld.
    destruct (Z.ltb_spec 0 (child_pid s)) as [_|]; [|lia].
    destruct (WIFEXITED ws); [|destruct (WIFSIGNALED ws)]; reflexivity.
Qed.

(** The child (pid 100) ignores SIGHUP; it ends, killed by signal 15
    from elsewhere, right after the first [waitpid] has returned 0. *)
Example shutdown_reaches_kill_all :
  kills (events_of
           (shutdown_child_async
              (mkShutdown WaitNone WaitError WaitError 0 (fun _ => true))
              (reaped_before_term (status_of_signal 15 false))
              (mkServer "work" "bash" 4 100 5 [] 0 0 0 false)))
  = [(100, SIGHUP); (-1, SIGTERM)].
Proof. reflexivity. Qed.

End AsyncFacts.
